(** * JanMitra backend: case lifecycle, SLA auto-escalation and device-bound
  sessions, embedded from the Django sources.

  Conventions of the embedding.
  - A Django table is the list of its rows in insertion order; a manager
    query ([objects.filter], [objects.get]) is a [filter] / [find] over it,
    [QuerySet.update] and [Model.save] rewrite the rows they address.
  - Primary keys (UUIDs) are natural numbers, timestamps are integers
    (seconds), [timedelta(hours=h)] is [h * 3600].
  - A call to [timezone.now()] is an explicit argument of the operation
    that makes it; a [uuid4()] primary key is a key not yet in its table.
  - [request.data] is an association list of strings, and a string is a
    sequence of code points below 256.
  - A request is its [request.data], its user and, for the
    authentication backend, its [META] headers; the header values that
    [AuditLog.log] copies into an entry are not carried along.
  - What the code leaves to the database engine or to a library is a
    parameter of the definition that depends on it:
    [has_select_for_update], [enforces_max_length], [DecimalField_saves],
    [get_validated_token], [sha256_hexdigest].
  - Exceptions are values of the result type. *)

From Stdlib Require Import ZArith List String Ascii Bool Lia DecimalString.
From Stdlib Require Import Sorting.Sorted Sorting.Permutation.
Import ListNotations.

Open Scope Z_scope.

(* ===================================================================== *)
(** * Core: shared vocabulary (core/models.py and the framework types)     *)
(* ===================================================================== *)

Module Core.

Definition UUID := N.
Definition datetime := Z.

Definition timedelta_hours (h : Z) : Z := h * 3600.

(** [request.data] / [device_info]: a dict with string keys and values. *)
Definition Dict := list (string * string).

Fixpoint dict_lookup (d : Dict) (k : string) : option string :=
  match d with
  | [] => None
  | (k', v) :: d' => if String.eqb k' k then Some v else dict_lookup d' k
  end.

(** [d.get(k, default)] *)
Definition dict_get (d : Dict) (k : string) (default : string) : string :=
  match dict_lookup d k with
  | Some v => v
  | None => default
  end.

(** Python truthiness of a string: [if s:] *)
Definition truthy (s : string) : bool :=
  match s with
  | EmptyString => false
  | String _ _ => true
  end.

(** [x or y] on strings *)
Definition str_or (x y : string) : string := if truthy x then x else y.

(** [uuid4()] as the default of a primary key: a key that no row of the
    table has. *)
Definition fresh (keys : list UUID) : UUID :=
  N.succ (fold_right N.max 0%N keys).

(** [str.strip()]. A string is a sequence of code points below 256, one
    [ascii] each; of these [str.isspace] holds for 9..13, 28..32, 133
    (U+0085, next line) and 160 (U+00A0, no-break space). *)
Definition is_space (c : ascii) : bool :=
  let n := nat_of_ascii c in
  ((9 <=? n) && (n <=? 13) || (28 <=? n) && (n <=? 32)
   || (n =? 133) || (n =? 160))%nat.

Fixpoint lstrip (s : string) : string :=
  match s with
  | EmptyString => EmptyString
  | String c s' => if is_space c then lstrip s' else s
  end.

Fixpoint rstrip (s : string) : string :=
  match s with
  | EmptyString => EmptyString
  | String c s' =>
      match rstrip s' with
      | EmptyString => if is_space c then EmptyString else String c EmptyString
      | r => String c r
      end
  end.

Definition strip (s : string) : string := rstrip (lstrip s).

(** [str(n)] / [f"{n}"] for an integer *)
Definition str_of_Z (n : Z) : string := NilZero.string_of_int (Z.to_int n).

(** [queryset.order_by(key)]: a stable insertion sort; [le a b = true]
    when [a] may stand before [b]. *)
Fixpoint insert_by {A} (le : A -> A -> bool) (x : A) (l : list A) : list A :=
  match l with
  | [] => [x]
  | y :: l' => if le x y then x :: y :: l' else y :: insert_by le x l'
  end.

Fixpoint order_by {A} (le : A -> A -> bool) (l : list A) : list A :=
  match l with
  | [] => []
  | x :: l' => insert_by le x (order_by le l')
  end.

End Core.

Import Core.

(* ===================================================================== *)
(** * authentication/models.py: roles, statuses and the User model         *)
(* ===================================================================== *)

Module Authentication.

(** [class UserRole]: the five values of [UserRole.CHOICES]; [JANMITRA]
    is an alias of [LEVEL_3].  The column is a [CharField] with these
    choices; a row holding any other text is not represented. *)
Inductive UserRole := LEVEL_0 | LEVEL_1 | LEVEL_2 | LEVEL_2_CAPTAIN | LEVEL_3.

Definition JANMITRA : UserRole := LEVEL_3.

Definition UserRole_eqb (a b : UserRole) : bool :=
  match a, b with
  | LEVEL_0, LEVEL_0 | LEVEL_1, LEVEL_1 | LEVEL_2, LEVEL_2
  | LEVEL_2_CAPTAIN, LEVEL_2_CAPTAIN | LEVEL_3, LEVEL_3 => true
  | _, _ => false
  end.

Definition AUTHORITY_ROLES : list UserRole :=
  [LEVEL_0; LEVEL_1; LEVEL_2; LEVEL_2_CAPTAIN].

(** [class UserStatus] *)
Inductive UserStatus := ACTIVE | SUSPENDED | REVOKED | PENDING.

Definition UserStatus_eqb (a b : UserStatus) : bool :=
  match a, b with
  | ACTIVE, ACTIVE | SUSPENDED, SUSPENDED
  | REVOKED, REVOKED | PENDING, PENDING => true
  | _, _ => false
  end.

(** [class User]: the fields the case and session logic reads or writes. *)
Record User := mkUser {
  user_id : UUID;
  identifier : string;
  role : UserRole;
  status : UserStatus;
  is_anonymous : bool;
  is_active : bool;
  user_is_deleted : bool;
  revoked_at : option datetime;
  revoked_by : option UUID;
  revocation_reason : string
}.

Definition is_level_0 (u : User) : bool := UserRole_eqb (role u) LEVEL_0.
Definition is_level_1 (u : User) : bool := UserRole_eqb (role u) LEVEL_1.
Definition is_level_2 (u : User) : bool := UserRole_eqb (role u) LEVEL_2.
Definition is_level_2_captain (u : User) : bool :=
  UserRole_eqb (role u) LEVEL_2_CAPTAIN.
Definition is_janmitra (u : User) : bool := UserRole_eqb (role u) LEVEL_3.
Definition is_authority (u : User) : bool :=
  existsb (UserRole_eqb (role u)) AUTHORITY_ROLES.
Definition is_revoked (u : User) : bool := UserStatus_eqb (status u) REVOKED.

(** [request.user]: [None] is Django's AnonymousUser, which has none of
    the role properties. *)
Definition RequestUser := option User.

(** [getattr(user, attr, False)] *)
Definition getattr (user : RequestUser) (attr : User -> bool) : bool :=
  match user with
  | Some u => attr u
  | None => false
  end.

(** [user.is_authenticated]: always [True] on a User instance. *)
Definition is_authenticated (user : RequestUser) : bool :=
  match user with
  | Some _ => true
  | None => false
  end.

End Authentication.

Import Authentication.

(* ===================================================================== *)
(** * authentication/permissions.py                                        *)
(* ===================================================================== *)

Module Permissions.

(** [IsLevel1.has_permission] *)
Definition IsLevel1 (user : RequestUser) : bool :=
  match user with
  | None => false
  | Some u =>
      if is_revoked u || negb (is_active u) then false
      else is_level_1 u
  end.

(** [IsLevel1OrLevel2.has_permission] *)
Definition IsLevel1OrLevel2 (user : RequestUser) : bool :=
  match user with
  | None => false
  | Some u =>
      if is_revoked u || negb (is_active u) then false
      else is_authority u
  end.

(** [CanRevokeUser.has_permission] *)
Definition CanRevokeUser_has_permission (user : RequestUser) : bool :=
  match user with
  | None => false
  | Some u => is_level_1 u
  end.

(** [CanRevokeUser.has_object_permission]; [obj == user] compares
    primary keys. *)
Definition CanRevokeUser_has_object_permission (user obj : User) : bool :=
  if N.eqb (user_id obj) (user_id user) then false
  else if is_level_1 obj then false
  else is_level_1 user.

End Permissions.

(* ===================================================================== *)
(** * reports/models.py: Case, CaseStatusHistory and the visibility rule   *)
(* ===================================================================== *)

Module Reports.

(** [class CaseStatus] *)
Inductive CaseStatus := OPEN | SOLVED | REJECTED | CLOSED.

Definition CaseStatus_eqb (a b : CaseStatus) : bool :=
  match a, b with
  | OPEN, OPEN | SOLVED, SOLVED | REJECTED, REJECTED | CLOSED, CLOSED => true
  | _, _ => false
  end.

(** The string stored in the [status] column. *)
Definition CaseStatus_value (s : CaseStatus) : string :=
  match s with
  | OPEN => "open"
  | SOLVED => "solved"
  | REJECTED => "rejected"
  | CLOSED => "closed"
  end.

(** [class CaseLevel] *)
Module CaseLevel.
Definition LEVEL_2 : Z := 2.
Definition LEVEL_1 : Z := 1.
Definition LEVEL_0 : Z := 0.
End CaseLevel.

(** [class Case(BaseModel)] *)
Record Case := mkCase {
  id : UUID;
  created_at : datetime;
  updated_at : datetime;
  is_deleted : bool;
  incident : UUID;
  current_level : Z;
  status : CaseStatus;
  sla_deadline : datetime;
  solved_at : option datetime;
  solved_by : option UUID;
  solution_notes : string;
  rejected_at : option datetime;
  rejected_by : option UUID;
  rejection_reason : string;
  escalation_count : Z;
  last_escalated_at : option datetime
}.

(** [class CaseStatusHistory(BaseModel)] *)
Record CaseStatusHistory := mkHistory {
  h_case : UUID;
  from_status : option CaseStatus;
  to_status : CaseStatus;
  from_level : option Z;
  to_level : option Z;
  changed_by : option UUID;
  reason : string;
  is_auto_escalation : bool
}.

(** [class Incident(BaseModel)]: the fields the case lifecycle needs
    (location and media columns belong to the upload plumbing). *)
Record Incident := mkIncident {
  incident_id : UUID;
  submitted_by : UUID;
  text_content : string;
  category : string
}.

(** [class IncidentCategory] *)
Module IncidentCategory.
Definition GENERAL : string := "general".
Definition CHOICES : list (string * string) :=
  [ ("general", "General"); ("public_safety", "Public Safety");
    ("infrastructure", "Infrastructure"); ("environmental", "Environmental");
    ("social", "Social"); ("economic", "Economic");
    ("governance", "Governance"); ("other", "Other") ]%string.
End IncidentCategory.

(** [Case.objects]: the SoftDeleteManager hides soft-deleted rows. *)
Definition objects (table : list Case) : list Case :=
  filter (fun c => negb (is_deleted c)) table.

(** [visible_cases_for_user(user)] *)
Definition visible_cases_for_user (table : list Case) (user : RequestUser)
  : list Case :=
  let qs := filter (fun c => negb (is_deleted c)) (objects table) in
  if getattr user is_level_2 && negb (getattr user is_level_2_captain) then
    filter (fun c => current_level c =? 2) qs
  else if getattr user is_level_2_captain then
    filter (fun c => current_level c >=? 2) qs
  else if getattr user is_level_1 then
    filter (fun c => current_level c =? 1) qs
  else if getattr user is_level_0 then
    filter (fun c => current_level c =? 0) qs
  else [].

End Reports.

Import Reports.

(* ===================================================================== *)
(** * audit/models.py: the append-only audit sink                          *)
(* ===================================================================== *)

Module Audit.

(** One [AuditLog.log(...)] call, kept by event type, actor, target and
    outcome. *)
Record AuditLogEntry := mkAudit {
  event_type : string;
  actor : option UUID;
  target : option UUID;
  success : bool
}.

Definition log (event : string) (who what : option UUID) (ok : bool)
  (trail : list AuditLogEntry) : list AuditLogEntry :=
  trail ++ [mkAudit event who what ok].

End Audit.

(* ===================================================================== *)
(** * reports/views.py: the case lifecycle endpoints                       *)
(* ===================================================================== *)

Module Views.

(** The tables the case lifecycle reads and writes.  The calls to
    [NotificationService] are wrapped in [try/except: pass] by every
    endpoint and write to none of these tables; they are left out.  An
    endpoint reads the clock once ([now]). *)
Record DB := mkDB {
  incidents : list Incident;
  cases : list Case;
  status_history : list CaseStatusHistory;
  audit_log : list Audit.AuditLogEntry
}.

(** [rest_framework.response.Response]: status code and payload. *)
Inductive Body :=
| Detail (msg : string)
| FieldErrors (field msg : string)
| IncidentReceived (new_incident new_case : UUID)
| ServerError.

Record Response := mkResponse { status_code : Z; data : Body }.

Definition HTTP_200_OK : Z := 200.
Definition HTTP_201_CREATED : Z := 201.
Definition HTTP_400_BAD_REQUEST : Z := 400.
Definition HTTP_401_UNAUTHORIZED : Z := 401.
Definition HTTP_403_FORBIDDEN : Z := 403.
Definition HTTP_404_NOT_FOUND : Z := 404.
Definition HTTP_500_INTERNAL_SERVER_ERROR : Z := 500.

(** [APIView.check_permissions]: every permission class must grant; a
    refusal is 403 for an authenticated caller and 401 otherwise. *)
Definition check_permissions (permission_classes : list (RequestUser -> bool))
  (user : RequestUser) : option Response :=
  if forallb (fun has_permission => has_permission user) permission_classes
  then None
  else if is_authenticated user
       then Some (mkResponse HTTP_403_FORBIDDEN
                    (Detail "You do not have permission to perform this action."))
       else Some (mkResponse HTTP_401_UNAUTHORIZED
                    (Detail "Authentication credentials were not provided.")).

(** [APIView.dispatch]: permissions first, then the handler with
    [request.user].  The throttle check that [initial] makes after the
    permission check (429 once a caller has used up
    [DEFAULT_THROTTLE_RATES]) is not embedded: a request is one within the
    rates. *)
Definition dispatch {S : Type} (permission_classes : list (RequestUser -> bool))
  (handler : User -> S -> Response * S) (user : RequestUser) (st : S)
  : Response * S :=
  match check_permissions permission_classes user, user with
  | Some denied, _ => (denied, st)
  | None, Some u => handler u st
  | None, None =>
      (mkResponse HTTP_401_UNAUTHORIZED
         (Detail "Authentication credentials were not provided."), st)
  end.

(** [Case.objects.get(id=case_id, is_deleted=False)]; [None] is
    [Case.DoesNotExist]. *)
Definition get (table : list Case) (case_id : UUID) : option Case :=
  find (fun c => N.eqb (id c) case_id && negb (is_deleted c)) (objects table).

(** [auto_now] on [updated_at] *)
Definition touch (c : Case) (now : datetime) : Case :=
  {| id := id c; created_at := created_at c; updated_at := now;
     is_deleted := is_deleted c; incident := incident c;
     current_level := current_level c; status := status c;
     sla_deadline := sla_deadline c; solved_at := solved_at c;
     solved_by := solved_by c; solution_notes := solution_notes c;
     rejected_at := rejected_at c; rejected_by := rejected_by c;
     rejection_reason := rejection_reason c;
     escalation_count := escalation_count c;
     last_escalated_at := last_escalated_at c |}.

(** [case.save()]: rewrites the row with the instance's primary key. *)
Definition save (c : Case) (now : datetime) (table : list Case) : list Case :=
  map (fun row => if N.eqb (id row) (id c) then touch c now else row) table.

(** The attribute assignments of [SolveCaseView.post]. *)
Definition assign_solved (c : Case) (user : User) (notes : string)
  (now : datetime) : Case :=
  {| id := id c; created_at := created_at c; updated_at := updated_at c;
     is_deleted := is_deleted c; incident := incident c;
     current_level := current_level c; status := SOLVED;
     sla_deadline := sla_deadline c; solved_at := Some now;
     solved_by := Some (user_id user); solution_notes := notes;
     rejected_at := rejected_at c; rejected_by := rejected_by c;
     rejection_reason := rejection_reason c;
     escalation_count := escalation_count c;
     last_escalated_at := last_escalated_at c |}.

(** The attribute assignments of [RejectCaseView.post]. *)
Definition assign_rejected (c : Case) (user : User) (why : string)
  (now : datetime) : Case :=
  {| id := id c; created_at := created_at c; updated_at := updated_at c;
     is_deleted := is_deleted c; incident := incident c;
     current_level := current_level c; status := REJECTED;
     sla_deadline := sla_deadline c; solved_at := solved_at c;
     solved_by := solved_by c; solution_notes := solution_notes c;
     rejected_at := Some now; rejected_by := Some (user_id user);
     rejection_reason := why;
     escalation_count := escalation_count c;
     last_escalated_at := last_escalated_at c |}.

(** The attribute assignments shared by [ForwardCaseView.post],
    [CaseAdmin.force_escalate_case] and the auto-escalation command:
    new level, one more escalation, its time, a new SLA deadline. *)
Definition assign_escalated (c : Case) (new_level : Z) (now deadline : datetime)
  : Case :=
  {| id := id c; created_at := created_at c; updated_at := updated_at c;
     is_deleted := is_deleted c; incident := incident c;
     current_level := new_level; status := status c;
     sla_deadline := deadline; solved_at := solved_at c;
     solved_by := solved_by c; solution_notes := solution_notes c;
     rejected_at := rejected_at c; rejected_by := rejected_by c;
     rejection_reason := rejection_reason c;
     escalation_count := escalation_count c + 1;
     last_escalated_at := Some now |}.

(** The attribute assignment of [CaseAdmin.force_close_case]. *)
Definition assign_closed (c : Case) : Case :=
  {| id := id c; created_at := created_at c; updated_at := updated_at c;
     is_deleted := is_deleted c; incident := incident c;
     current_level := current_level c; status := CLOSED;
     sla_deadline := sla_deadline c; solved_at := solved_at c;
     solved_by := solved_by c; solution_notes := solution_notes c;
     rejected_at := rejected_at c; rejected_by := rejected_by c;
     rejection_reason := rejection_reason c;
     escalation_count := escalation_count c;
     last_escalated_at := last_escalated_at c |}.

(** [CaseStatusHistory.objects.create(...)] *)
Definition add_history (h : CaseStatusHistory) (db : DB) : DB :=
  {| incidents := incidents db; cases := cases db;
     status_history := status_history db ++ [h];
     audit_log := audit_log db |}.

Definition set_cases (table : list Case) (db : DB) : DB :=
  {| incidents := incidents db; cases := table;
     status_history := status_history db;
     audit_log := audit_log db |}.

Definition add_audit (event : string) (who what : option UUID) (db : DB) : DB :=
  {| incidents := incidents db; cases := cases db;
     status_history := status_history db;
     audit_log := Audit.log event who what true (audit_log db) |}.

(** [class IncidentBroadcastView]: the transaction that creates the
    Incident, its Case and the initial history row.  The area fields
    ([area_name], [city], [state], cut to the width of their columns) and
    the uploaded media, kept in a table of their own after the
    transaction, do not reach the tables of [DB]. *)
Module IncidentBroadcastView.

Definition permission_classes : list (RequestUser -> bool) :=
  [fun user => match user with
               | None => false
               | Some u => negb (is_revoked u || negb (is_active u))
               end].

Section Fields.

(** [latitude] and [longitude] go from [request.data] to
    [Incident.objects.create] as they come, into
    [DecimalField(max_digits=10, decimal_places=7, null=True)].  Whether
    Django and the database take a text as such a decimal is for them to
    say: [DecimalField_saves]. *)
Variable DecimalField_saves : string -> bool.

(** A value absent from the request is [None], stored as NULL. *)
Definition saves (value : option string) : bool :=
  match value with
  | None => true
  | Some text => DecimalField_saves text
  end.

(** [IncidentBroadcastView.post]: when [create] raises, the [atomic]
    block writes nothing and the request ends in a server error. *)
Definition post (request_data : Dict) (now : datetime) (user : User) (db : DB)
  : Response * DB :=
  let text_content := strip (dict_get request_data "text_content" "") in
  if negb (truthy text_content) then
    (mkResponse HTTP_400_BAD_REQUEST
       (FieldErrors "text_content" "This field is required."), db)
  else
    let category := dict_get request_data "category" IncidentCategory.GENERAL in
    let category :=
      if existsb (fun kv => String.eqb (fst kv) category) IncidentCategory.CHOICES
      then category else IncidentCategory.GENERAL in
    let latitude := dict_lookup request_data "latitude" in
    let longitude := dict_lookup request_data "longitude" in
    if negb (saves latitude && saves longitude) then
      (mkResponse HTTP_500_INTERNAL_SERVER_ERROR ServerError, db)
    else
    let incident :=
      mkIncident (fresh (map incident_id (incidents db))) (user_id user)
        text_content category in
    let sla_deadline := now + timedelta_hours 24 in
    let case :=
      {| id := fresh (map id (cases db)); created_at := now; updated_at := now;
         is_deleted := false; incident := incident_id incident;
         current_level := CaseLevel.LEVEL_2; status := OPEN;
         sla_deadline := sla_deadline; solved_at := None;
         solved_by := None; solution_notes := "";
         rejected_at := None; rejected_by := None; rejection_reason := "";
         escalation_count := 0; last_escalated_at := None |} in
    let db :=
      {| incidents := incidents db ++ [incident];
         cases := cases db ++ [case];
         status_history := status_history db;
         audit_log := audit_log db |} in
    let db :=
      add_history
        {| h_case := id case; from_status := None; to_status := OPEN;
           from_level := None; to_level := Some CaseLevel.LEVEL_2;
           changed_by := Some (user_id user);
           reason := "Initial submission";
           is_auto_escalation := false |} db in
    let db := add_audit "report.created" (Some (user_id user))
                (Some (incident_id incident)) db in
    (mkResponse HTTP_201_CREATED
       (IncidentReceived (incident_id incident) (id case)), db).

Definition as_view (request_data : Dict) (now : datetime)
  : RequestUser -> DB -> Response * DB :=
  dispatch permission_classes (post request_data now).

End Fields.

End IncidentBroadcastView.

(** [class SolveCaseView] *)
Module SolveCaseView.

Definition permission_classes : list (RequestUser -> bool) :=
  [Permissions.IsLevel1OrLevel2].

Definition post (case_id : UUID) (request_data : Dict) (now : datetime)
  (user : User) (db : DB) : Response * DB :=
  match get (cases db) case_id with
  | None => (mkResponse HTTP_404_NOT_FOUND (Detail "Case not found."), db)
  | Some case =>
      if negb (CaseStatus_eqb (status case) OPEN) then
        (mkResponse HTTP_400_BAD_REQUEST (Detail "Case is not open."), db)
      else
        let solution_notes := dict_get request_data "solution_notes" "" in
        let old_status := status case in
        let case := assign_solved case user solution_notes now in
        let db := set_cases (save case now (cases db)) db in
        let db :=
          add_history
            {| h_case := id case; from_status := Some old_status;
               to_status := SOLVED; from_level := None; to_level := None;
               changed_by := Some (user_id user); reason := solution_notes;
               is_auto_escalation := false |} db in
        (mkResponse HTTP_200_OK (Detail "Case marked as solved."), db)
  end.

Definition as_view (case_id : UUID) (request_data : Dict) (now : datetime)
  : RequestUser -> DB -> Response * DB :=
  dispatch permission_classes (post case_id request_data now).

End SolveCaseView.

(** [class ForwardCaseView] *)
Module ForwardCaseView.

Definition permission_classes : list (RequestUser -> bool) :=
  [Permissions.IsLevel1OrLevel2].

Definition post (case_id : UUID) (request_data : Dict) (now : datetime)
  (user : User) (db : DB) : Response * DB :=
  match get (cases db) case_id with
  | None => (mkResponse HTTP_404_NOT_FOUND (Detail "Case not found."), db)
  | Some case =>
      if negb (CaseStatus_eqb (status case) OPEN) then
        (mkResponse HTTP_400_BAD_REQUEST (Detail "Case is not open."), db)
      else if current_level case <=? CaseLevel.LEVEL_0 then
        (mkResponse HTTP_400_BAD_REQUEST
           (Detail "Case is already at highest level."), db)
      else
        let reason := dict_get request_data "reason" "" in
        let old_level := current_level case in
        let case :=
          assign_escalated case (old_level - 1) now
            (now + timedelta_hours 24) in
        let db := set_cases (save case now (cases db)) db in
        let db :=
          add_history
            {| h_case := id case; from_status := Some (status case);
               to_status := status case; from_level := Some old_level;
               to_level := Some (current_level case);
               changed_by := Some (user_id user);
               reason := str_or reason "Forwarded to higher level";
               is_auto_escalation := false |} db in
        (mkResponse HTTP_200_OK
           (Detail ("Case forwarded to Level "
                    ++ str_of_Z (current_level case) ++ ".")), db)
  end.

Definition as_view (case_id : UUID) (request_data : Dict) (now : datetime)
  : RequestUser -> DB -> Response * DB :=
  dispatch permission_classes (post case_id request_data now).

End ForwardCaseView.

(** [class RejectCaseView] *)
Module RejectCaseView.

Definition permission_classes : list (RequestUser -> bool) :=
  [Permissions.IsLevel1OrLevel2].

Definition post (case_id : UUID) (request_data : Dict) (now : datetime)
  (user : User) (db : DB) : Response * DB :=
  match get (cases db) case_id with
  | None => (mkResponse HTTP_404_NOT_FOUND (Detail "Case not found."), db)
  | Some case =>
      if negb (CaseStatus_eqb (status case) OPEN) then
        (mkResponse HTTP_400_BAD_REQUEST (Detail "Case is not open."), db)
      else
        let reason := dict_get request_data "reason" "" in
        if negb (truthy reason) then
          (mkResponse HTTP_400_BAD_REQUEST
             (FieldErrors "reason" "Rejection reason is required."), db)
        else
          let old_status := status case in
          let case := assign_rejected case user reason now in
          let db := set_cases (save case now (cases db)) db in
          let db :=
            add_history
              {| h_case := id case; from_status := Some old_status;
                 to_status := REJECTED; from_level := None; to_level := None;
                 changed_by := Some (user_id user); reason := reason;
                 is_auto_escalation := false |} db in
          (mkResponse HTTP_200_OK (Detail "Case rejected."), db)
  end.

Definition as_view (case_id : UUID) (request_data : Dict) (now : datetime)
  : RequestUser -> DB -> Response * DB :=
  dispatch permission_classes (post case_id request_data now).

End RejectCaseView.

(** [class CaseListView]: [get_queryset] with the optional [status] query
    parameter, newest first. *)
Module CaseListView.

Definition permission_classes : list (RequestUser -> bool) :=
  [Permissions.IsLevel1OrLevel2].

Definition get_queryset (status_filter : option string) (user : RequestUser)
  (db : DB) : list Case :=
  if getattr user is_janmitra then []
  else
    let queryset := visible_cases_for_user (cases db) user in
    let queryset :=
      match status_filter with
      | Some wanted =>
          if truthy wanted
          then filter (fun c => String.eqb (CaseStatus_value (status c)) wanted)
                 queryset
          else queryset
      | None => queryset
      end in
    order_by (fun a b => created_at b <=? created_at a) queryset.

End CaseListView.

(** [class OpenCasesView] *)
Module OpenCasesView.

Definition permission_classes : list (RequestUser -> bool) :=
  [Permissions.IsLevel1OrLevel2].

Definition get_queryset (user : User) (db : DB) : list Case :=
  if is_janmitra user then []
  else
    let queryset :=
      filter (fun c => negb (is_deleted c) && CaseStatus_eqb (status c) OPEN)
        (objects (cases db)) in
    let by_deadline :=
      order_by (fun a b : Case => sla_deadline a <=? sla_deadline b) in
    if is_level_2 user && negb (is_level_2_captain user) then
      by_deadline (filter (fun c => current_level c =? CaseLevel.LEVEL_2) queryset)
    else if is_level_2_captain user then
      by_deadline (filter (fun c => current_level c <=? CaseLevel.LEVEL_2) queryset)
    else if is_level_1 user then
      by_deadline (filter (fun c => current_level c =? CaseLevel.LEVEL_1) queryset)
    else if is_level_0 user then
      by_deadline (filter (fun c => current_level c =? CaseLevel.LEVEL_0) queryset)
    else [].

End OpenCasesView.

End Views.

Import Views.

(* ===================================================================== *)
(** * reports/admin.py: the CaseAdmin bulk actions                         *)
(* ===================================================================== *)

Module CaseAdmin.

(** [django.contrib.messages] levels used by the actions. *)
Inductive MessageLevel := SUCCESS | WARNING.

Record Message := mkMessage { level : MessageLevel; text : string }.

(** [ordering = ['-created_at']], which the change list makes total with
    [-pk]: whether [a] stands before [b]. *)
Definition ordering (a b : Case) : bool :=
  (created_at b <? created_at a)
  || (created_at b =? created_at a) && (id b <=? id a)%N.

(** The queryset handed to an action: the selected rows as the default
    manager shows them, in the order of the change list, read when the
    loop starts. *)
Definition queryset (selected : list UUID) (db : DB) : list Case :=
  order_by ordering
    (filter (fun c => existsb (N.eqb (id c)) selected) (objects (cases db))).

(** Loop state: the tables and the two counters. *)
Definition LoopState : Type := DB * Z * Z.

(** One iteration of the loop of [force_escalate_case]. *)
Definition force_escalate_body (user : User) (now : datetime)
  (st : LoopState) (case : Case) : LoopState :=
  let '(db, escalated_count, skipped_count) := st in
  if negb (CaseStatus_eqb (status case) OPEN) then
    (db, escalated_count, skipped_count + 1)
  else if current_level case =? CaseLevel.LEVEL_0 then
    (db, escalated_count, skipped_count + 1)
  else
    let prev_level := current_level case in
    let prev_status := status case in
    let case :=
      assign_escalated case (current_level case - 1) now
        (now + timedelta_hours 24) in
    let db := set_cases (save case now (cases db)) db in
    let db :=
      add_history
        {| h_case := id case; from_status := Some prev_status;
           to_status := status case; from_level := Some prev_level;
           to_level := Some (current_level case);
           changed_by := Some (user_id user);
           reason := "Admin force escalation by " ++ identifier user;
           is_auto_escalation := false |} db in
    let db := add_audit "escalation.created" (Some (user_id user))
                (Some (id case)) db in
    (db, escalated_count + 1, skipped_count).

(** [CaseAdmin.force_escalate_case(request, queryset)] *)
Definition force_escalate_case (user : User) (selected : list UUID)
  (now : datetime) (db : DB) : list Message * DB :=
  let '(db', escalated_count, skipped_count) :=
    fold_left (force_escalate_body user now) (queryset selected db) (db, 0, 0) in
  ((if 0 <? escalated_count
    then [mkMessage SUCCESS
            ("Successfully escalated " ++ str_of_Z escalated_count
             ++ " case(s). SLA reset to 24h.")]
    else [])
   ++
   (if 0 <? skipped_count
    then [mkMessage WARNING
            ("Skipped " ++ str_of_Z skipped_count
             ++ " case(s) (not open or already at Level 0).")]
    else []),
   db').

(** One iteration of the loop of [force_close_case]. *)
Definition force_close_body (user : User) (now : datetime)
  (st : LoopState) (case : Case) : LoopState :=
  let '(db, closed_count, skipped_count) := st in
  if existsb (CaseStatus_eqb (status case)) [SOLVED; REJECTED; CLOSED] then
    (db, closed_count, skipped_count + 1)
  else
    let prev_status := status case in
    let prev_level := current_level case in
    let case := assign_closed case in
    let db := set_cases (save case now (cases db)) db in
    let db :=
      add_history
        {| h_case := id case; from_status := Some prev_status;
           to_status := CLOSED; from_level := Some prev_level;
           to_level := Some prev_level;
           changed_by := Some (user_id user);
           reason := "Admin force closed by " ++ identifier user;
           is_auto_escalation := false |} db in
    let db := add_audit "report.status.changed" (Some (user_id user))
                (Some (id case)) db in
    (db, closed_count + 1, skipped_count).

(** [CaseAdmin.force_close_case(request, queryset)] *)
Definition force_close_case (user : User) (selected : list UUID)
  (now : datetime) (db : DB) : list Message * DB :=
  let '(db', closed_count, skipped_count) :=
    fold_left (force_close_body user now) (queryset selected db) (db, 0, 0) in
  ((if 0 <? closed_count
    then [mkMessage SUCCESS
            ("Successfully closed " ++ str_of_Z closed_count ++ " case(s).")]
    else [])
   ++
   (if 0 <? skipped_count
    then [mkMessage WARNING
            ("Skipped " ++ str_of_Z skipped_count
             ++ " case(s) (already in terminal state).")]
    else []),
   db').

End CaseAdmin.

(* ===================================================================== *)
(** * reports/management/commands/auto_escalate_cases.py                   *)
(* ===================================================================== *)

Module AutoEscalateCases.

(** What one call of [_escalate_case] tells the loop of [handle]:
    [True], [False], or an exception caught by its [except]. *)
Inductive Outcome := Escalated | Skipped | Raised.

(** The counters printed in the summary. *)
Record Summary := mkSummary {
  total_found : Z;
  escalated_count : Z;
  skipped_count : Z;
  error_count : Z
}.

(** How [handle] ends: with the summary printed, or with the exception
    that Django raises when a [select_for_update] queryset is evaluated
    in autocommit mode. *)
Inductive Exit :=
| Completed (summary : Summary)
| TransactionManagementError.

Section Command.

(** The command looks up three attributes of [Case] and one of
    [AuditEventType]; [None] is a lookup that raises AttributeError.
    The command is embedded over what the lookups give; the classes of
    reports/models.py and audit/models.py are [Case_can_escalate] and the
    three definitions after it. *)
Variable can_escalate : option (Case -> bool * string).
Variable is_sla_expired : option (Case -> datetime -> bool).
Variable calculate_sla_deadline_for_level : option (Z -> datetime -> datetime).
Variable CASE_ESCALATED : option string.

(** [connection.features.has_select_for_update]: [True] on PostgreSQL,
    [False] on SQLite, where [select_for_update] is ignored. *)
Variable has_select_for_update : bool.

(** [locked_case.save(update_fields=[current_level, escalation_count,
    last_escalated_at, sla_deadline, updated_at])] *)
Definition save_update_fields (c : Case) (now : datetime) (table : list Case)
  : list Case :=
  map (fun row =>
         if N.eqb (id row) (id c) then
           {| id := id row; created_at := created_at row; updated_at := now;
              is_deleted := is_deleted row; incident := incident row;
              current_level := current_level c; status := status row;
              sla_deadline := sla_deadline c; solved_at := solved_at row;
              solved_by := solved_by row; solution_notes := solution_notes row;
              rejected_at := rejected_at row; rejected_by := rejected_by row;
              rejection_reason := rejection_reason row;
              escalation_count := escalation_count c;
              last_escalated_at := last_escalated_at c |}
         else row) table.

(** [Command._escalate_case(case, now, dry_run, verbose)]; [verbose]
    only adds lines to stdout.  An exception inside [transaction.atomic]
    undoes what the block has written. *)
Definition _escalate_case (case : Case) (now : datetime) (dry_run : bool)
  (db : DB) : Outcome * DB :=
  let old_level := current_level case in
  match (if old_level =? CaseLevel.LEVEL_2 then Some CaseLevel.LEVEL_1
         else if old_level =? CaseLevel.LEVEL_1 then Some CaseLevel.LEVEL_0
         else None) with
  | None => (Skipped, db)
  | Some new_level =>
      match can_escalate with
      | None => (Raised, db)
      | Some can_escalate =>
          if negb (fst (can_escalate case)) then (Skipped, db)
          else
            match is_sla_expired with
            | None => (Raised, db)
            | Some is_sla_expired =>
                if negb (is_sla_expired case now) then (Skipped, db)
                else if dry_run then (Escalated, db)
                else
                  (* with transaction.atomic(): *)
                  match find (fun c => N.eqb (id c) (id case))
                          (objects (cases db)) with
                  | None => (Raised, db)
                  | Some locked_case =>
                      if negb (CaseStatus_eqb (status locked_case) OPEN)
                      then (Skipped, db)
                      else if negb (current_level locked_case =? old_level)
                      then (Skipped, db)
                      else
                        match calculate_sla_deadline_for_level with
                        | None => (Raised, db)
                        | Some calculate_sla_deadline_for_level =>
                            let locked_case :=
                              assign_escalated locked_case new_level now
                                (calculate_sla_deadline_for_level new_level now) in
                            let db' :=
                              set_cases
                                (save_update_fields locked_case now (cases db))
                                db in
                            let db' :=
                              add_history
                                {| h_case := id locked_case;
                                   from_status := Some OPEN;
                                   to_status := OPEN;
                                   from_level := Some old_level;
                                   to_level := Some new_level;
                                   changed_by := None;
                                   reason := "SLA expired - auto-escalation";
                                   is_auto_escalation := true |} db' in
                            match CASE_ESCALATED with
                            | None => (Raised, db)
                            | Some event_type =>
                                (Escalated,
                                 add_audit event_type None
                                   (Some (id locked_case)) db')
                            end
                        end
                  end
            end
      end
  end.

(** The query of [handle]: open, SLA deadline before [now], not at
    level 0, in the order of [Case.Meta.ordering = ['-created_at']]
    (cases of one instant in table order). *)
Definition expired_cases (now : datetime) (db : DB) : list Case :=
  order_by (fun a b => created_at b <=? created_at a)
    (filter (fun c => negb (current_level c =? CaseLevel.LEVEL_0))
       (filter (fun c => CaseStatus_eqb (status c) OPEN && (sla_deadline c <? now))
          (objects (cases db)))).

(** One iteration of the loop of [handle]. *)
Definition handle_body (now : datetime) (dry_run : bool)
  (st : DB * Summary) (case : Case) : DB * Summary :=
  let '(db, n) := st in
  match _escalate_case case now dry_run db with
  | (Escalated, db') =>
      (db', mkSummary (total_found n) (escalated_count n + 1)
              (skipped_count n) (error_count n))
  | (Skipped, db') =>
      (db', mkSummary (total_found n) (escalated_count n)
              (skipped_count n + 1) (error_count n))
  | (Raised, db') =>
      (db', mkSummary (total_found n) (escalated_count n)
              (skipped_count n) (error_count n + 1))
  end.

(** [Command.handle]: the sweep at time [now].  The [for] loop evaluates
    the [select_for_update] queryset outside any [atomic] block, in the
    autocommit mode a management command runs in: where the database has
    the feature, Django raises before the first candidate is handled. *)
Definition handle (now : datetime) (dry_run : bool) (db : DB) : DB * Exit :=
  let candidates := expired_cases now db in
  let total_found := Z.of_nat (List.length candidates) in
  if has_select_for_update then (db, TransactionManagementError)
  else
    let st :=
      fold_left (handle_body now dry_run) candidates
        (db, mkSummary total_found 0 0 0) in
    (fst st, Completed (snd st)).

End Command.

(** The attributes in the sources: [class Case] (reports/models.py) has
    its fields, [Meta] and [__str__], and [class AuditEventType]
    (audit/models.py) has no constant for a case escalation. *)
Definition Case_can_escalate : option (Case -> bool * string) := None.
Definition Case_is_sla_expired : option (Case -> datetime -> bool) := None.
Definition Case_calculate_sla_deadline_for_level
  : option (Z -> datetime -> datetime) := None.
Definition AuditEventType_CASE_ESCALATED : option string := None.

End AutoEscalateCases.

(* ===================================================================== *)
(** * authentication/models.py: DeviceSession and InviteCode               *)
(* ===================================================================== *)

Module DeviceSessions.

(** [class DeviceSession(BaseModel)] *)
Record DeviceSession := mkSession {
  id : UUID;
  is_deleted : bool;
  user : UUID;
  device_fingerprint_hash : string;
  device_name : string;
  device_type : string;
  os_name : string;
  os_version : string;
  app_version : string;
  is_active : bool;
  refresh_token_jti : string;
  last_activity_at : datetime;
  last_activity_ip : option string;
  invalidated_at : option datetime;
  invalidation_reason : string
}.

(** [DeviceSession.objects] *)
Definition objects (table : list DeviceSession) : list DeviceSession :=
  filter (fun s => negb (is_deleted s)) table.

(** The rows [DeviceSession.objects.filter(user=user, is_active=True)]
    selects. *)
Definition is_active_of (user_pk : UUID) (s : DeviceSession) : bool :=
  negb (is_deleted s) && N.eqb (user s) user_pk && is_active s.

(** [DeviceSession.objects.filter(user=user, is_active=True).update(
      is_active=False, invalidated_at=now, invalidation_reason=why)] *)
Definition invalidate_active (user_pk : UUID) (now : datetime) (why : string)
  (table : list DeviceSession) : list DeviceSession :=
  map (fun s =>
         if is_active_of user_pk s then
           {| id := id s; is_deleted := is_deleted s; user := user s;
              device_fingerprint_hash := device_fingerprint_hash s;
              device_name := device_name s; device_type := device_type s;
              os_name := os_name s; os_version := os_version s;
              app_version := app_version s;
              is_active := false;
              refresh_token_jti := refresh_token_jti s;
              last_activity_at := last_activity_at s;
              last_activity_ip := last_activity_ip s;
              invalidated_at := Some now;
              invalidation_reason := why |}
         else s) table.

(** [DeviceSession.objects.filter(user=user, is_active=True).update(
      last_activity_at=now, last_activity_ip=ip)] *)
Definition touch_active (user_pk : UUID) (now : datetime) (ip : string)
  (table : list DeviceSession) : list DeviceSession :=
  map (fun s =>
         if is_active_of user_pk s then
           {| id := id s; is_deleted := is_deleted s; user := user s;
              device_fingerprint_hash := device_fingerprint_hash s;
              device_name := device_name s; device_type := device_type s;
              os_name := os_name s; os_version := os_version s;
              app_version := app_version s;
              is_active := is_active s;
              refresh_token_jti := refresh_token_jti s;
              last_activity_at := now;
              last_activity_ip := Some ip;
              invalidated_at := invalidated_at s;
              invalidation_reason := invalidation_reason s |}
         else s) table.

Section Hashing.

(** [hashlib.sha256(s.encode()).hexdigest()] *)
Variable sha256_hexdigest : string -> string.

(** [DeviceSession.hash_fingerprint] *)
Definition hash_fingerprint (fingerprint : string) : string :=
  sha256_hexdigest fingerprint.

(** [DeviceSession.verify_fingerprint] *)
Definition verify_fingerprint (s : DeviceSession) (fingerprint : string) : bool :=
  String.eqb (device_fingerprint_hash s) (hash_fingerprint fingerprint).

(** [DeviceSession.create_session(user, device_fingerprint, device_info)]:
    returns the new row and the table. *)
Definition create_session (user_pk : UUID) (device_fingerprint : string)
  (device_info : Dict) (now : datetime) (table : list DeviceSession)
  : DeviceSession * list DeviceSession :=
  let table := invalidate_active user_pk now "NEW_DEVICE" table in
  let session :=
    {| id := fresh (map id table); is_deleted := false; user := user_pk;
       device_fingerprint_hash := hash_fingerprint device_fingerprint;
       device_name := dict_get device_info "device_name" "";
       device_type := dict_get device_info "device_type" "";
       os_name := dict_get device_info "os_name" "";
       os_version := dict_get device_info "os_version" "";
       app_version := dict_get device_info "app_version" "";
       is_active := true;
       refresh_token_jti := "";
       last_activity_at := now;
       last_activity_ip := dict_lookup device_info "ip_address";
       invalidated_at := None;
       invalidation_reason := "" |} in
  (session, table ++ [session]).

End Hashing.

End DeviceSessions.

Module InviteCodes.

(** [class InviteCode(BaseModel)] *)
Record InviteCode := mkInvite {
  id : UUID;
  is_deleted : bool;
  code : string;
  issued_by : UUID;
  is_used : bool;
  used_at : option datetime;
  used_by : option UUID;
  expires_at : datetime;
  max_uses : Z;
  use_count : Z
}.

(** [InviteCode.is_valid], read at time [now] *)
Definition is_valid (self : InviteCode) (now : datetime) : bool :=
  if is_deleted self then false
  else if use_count self >=? max_uses self then false
  else if now >? expires_at self then false
  else true.

(** [InviteCode.use(user)]: the instance after the assignments (the row
    that [save()] writes). *)
Definition use (self : InviteCode) (user_pk : UUID) (now : datetime)
  : InviteCode :=
  let use_count' := use_count self + 1 in
  {| id := id self; is_deleted := is_deleted self; code := code self;
     issued_by := issued_by self;
     is_used := if use_count' >=? max_uses self then true else is_used self;
     used_at := Some now; used_by := Some user_pk;
     expires_at := expires_at self; max_uses := max_uses self;
     use_count := use_count' |}.

(** [invite.save()] *)
Definition save (c : InviteCode) (table : list InviteCode) : list InviteCode :=
  map (fun row => if N.eqb (id row) (id c) then c else row) table.

(** [str.upper()] on ASCII letters *)
Definition upper_ascii (c : ascii) : ascii :=
  let n := nat_of_ascii c in
  if ((97 <=? n) && (n <=? 122))%nat then ascii_of_nat (n - 32) else c.

Fixpoint upper (s : string) : string :=
  match s with
  | EmptyString => EmptyString
  | String c s' => String (upper_ascii c) (upper s')
  end.

(** [JanMitraRegistrationSerializer.validate_invite_code(value)]:
    the invite, or the message of the ValidationError. *)
Definition validate_invite_code (value : string) (now : datetime)
  (table : list InviteCode) : InviteCode + string :=
  match find (fun c => String.eqb (code c) (upper value))
          (filter (fun c => negb (is_deleted c)) table) with
  | None => inr "Invalid invite code."%string
  | Some invite =>
      if negb (is_valid invite now) then
        if is_deleted invite then
          inr "This invite code has been revoked."%string
        else if use_count invite >=? max_uses invite then
          inr "This invite code has already been used."%string
        else if now >? expires_at invite then
          inr "This invite code has expired."%string
        else inr "This invite code is no longer valid."%string
      else inl invite
  end.

(** The invite steps of registration: [validate_invite_code] during
    validation, then [invite.use(user)] in [create]. *)
Definition use_invite (value : string) (user_pk : UUID) (now : datetime)
  (table : list InviteCode) : (InviteCode * list InviteCode) + string :=
  match validate_invite_code value now table with
  | inr message => inr message
  | inl invite =>
      let invite := use invite user_pk now in
      inl (invite, save invite table)
  end.

End InviteCodes.

(* ===================================================================== *)
(** * authentication: the tables, User.revoke_access and RevokeUserView    *)
(* ===================================================================== *)

Module AuthViews.

Import DeviceSessions.

(** The tables of the authentication app. *)
Record AuthDB := mkAuthDB {
  users : list User;
  sessions : list DeviceSession;
  audit_log : list Audit.AuditLogEntry
}.

(** [User.objects.get(id=user_id)]: the UserManager hides soft-deleted
    users. *)
Definition get_user (table : list User) (pk : UUID) : option User :=
  find (fun u => N.eqb (user_id u) pk)
    (filter (fun u => negb (user_is_deleted u)) table).

(** [user.save()] *)
Definition save_user (u : User) (table : list User) : list User :=
  map (fun row => if N.eqb (user_id row) (user_id u) then u else row) table.

(** [User.revoke_access(revoked_by, reason)] *)
Definition revoke_access (self revoked_by : User) (reason : string)
  (now : datetime) (db : AuthDB) : AuthDB :=
  let self :=
    {| user_id := user_id self; identifier := identifier self;
       role := role self;
       Authentication.status := REVOKED;
       is_anonymous := is_anonymous self;
       Authentication.is_active := false;
       user_is_deleted := user_is_deleted self;
       revoked_at := Some now;
       revoked_by := Some (user_id revoked_by);
       revocation_reason := reason |} in
  {| users := save_user self (users db);
     sessions := invalidate_active (user_id self) now "ACCESS_REVOKED" (sessions db);
     audit_log := audit_log db |}.

(** [class RevokeUserView] *)
Module RevokeUserView.

Definition permission_classes : list (RequestUser -> bool) :=
  [Permissions.IsLevel1; Permissions.CanRevokeUser_has_permission].

(** [check_object_permissions]: [IsLevel1] keeps the default
    [has_object_permission], which grants. *)
Definition check_object_permissions (user obj : User) : bool :=
  true && Permissions.CanRevokeUser_has_object_permission user obj.

Definition post (target_id : UUID) (request_data : Dict) (now : datetime)
  (user : User) (db : AuthDB) : Response * AuthDB :=
  let reason := strip (dict_get request_data "reason" "") in
  if negb (truthy reason) then
    (mkResponse HTTP_400_BAD_REQUEST (Detail "Revocation reason is required."), db)
  else
    match get_user (users db) target_id with
    | None => (mkResponse HTTP_404_NOT_FOUND (Detail "User not found."), db)
    | Some target_user =>
        if negb (check_object_permissions user target_user) then
          (mkResponse HTTP_403_FORBIDDEN
             (Detail "You do not have permission to revoke user access."), db)
        else if is_revoked target_user then
          (mkResponse HTTP_400_BAD_REQUEST
             (Detail "User access is already revoked."), db)
        else
          let db := revoke_access target_user user reason now db in
          let db :=
            {| users := users db; sessions := sessions db;
               audit_log :=
                 Audit.log "user.revoked" (Some (user_id user))
                   (Some (user_id target_user)) true (audit_log db) |} in
          (mkResponse HTTP_200_OK (Detail "User access has been revoked."), db)
    end.

Definition as_view (target_id : UUID) (request_data : Dict) (now : datetime)
  : RequestUser -> AuthDB -> Response * AuthDB :=
  dispatch permission_classes (post target_id request_data now).

End RevokeUserView.

End AuthViews.

(* ===================================================================== *)
(** * authentication/backends.py: DeviceBoundJWTAuthentication             *)
(* ===================================================================== *)

Module Backends.

Import DeviceSessions AuthViews.

(** The request as the backend reads it: the [META] headers. *)
Record Request := mkRequest { META : Dict }.

(** What [authenticate] produces: [None], the pair [(user, token)], an
    [InvalidToken] or an [AuthenticationFailed] (its base class) with its
    detail and code, or another exception that nothing here catches. *)
Inductive Outcome (Token : Type) :=
| NoCredentials
| Authenticated (user : User) (validated_token : Token)
| InvalidToken (detail code : string)
| AuthenticationFailed (detail code : string)
| Unhandled (exception : string).

Arguments NoCredentials {Token}.
Arguments Authenticated {Token}.
Arguments InvalidToken {Token}.
Arguments AuthenticationFailed {Token}.
Arguments Unhandled {Token}.

(** ** The base class: [JWTAuthentication] of rest_framework_simplejwt *)

(** What the base class makes of the [Authorization] header: no bearer
    token in it, a token it rejects (malformed, expired, wrongly signed,
    without a user id), or a valid token and the user id of its claim. *)
Inductive Bearer (Token : Type) :=
| NoBearer
| Rejected (detail code : string)
| Valid (validated_token : Token) (user_id : UUID).

Arguments NoBearer {Token}.
Arguments Rejected {Token}.
Arguments Valid {Token}.

Module JWTAuthentication.

Section Library.

Variable Token : Type.

(** [get_header], [get_raw_token] and [get_validated_token]: the
    cryptography, left to the library. *)
Variable get_validated_token : Request -> Bearer Token.

(** [JWTAuthentication.get_user(validated_token)]: the row of the token's
    user, through [User.objects]; a missing or inactive user is refused
    here. *)
Definition get_user (table : list User) (user_id : UUID)
  : Outcome Token + User :=
  match AuthViews.get_user table user_id with
  | None => inl (AuthenticationFailed "User not found" "user_not_found")
  | Some user =>
      if negb (Authentication.is_active user)
      then inl (AuthenticationFailed "User is inactive" "user_inactive")
      else inr user
  end.

(** [JWTAuthentication.authenticate(request)] against the user table. *)
Definition authenticate (table : list User) (request : Request)
  : Outcome Token :=
  match get_validated_token request with
  | NoBearer => NoCredentials
  | Rejected detail code => InvalidToken detail code
  | Valid validated_token user_id =>
      match get_user table user_id with
      | inl raised => raised
      | inr user => Authenticated user validated_token
      end
  end.

End Library.

End JWTAuthentication.

(** [s.split(',')[0]] *)
Fixpoint before_comma (s : string) : string :=
  match s with
  | EmptyString => EmptyString
  | String c s' =>
      if Ascii.eqb c ","%char then EmptyString else String c (before_comma s')
  end.

(** [DeviceBoundJWTAuthentication._get_ip] *)
Definition _get_ip (request : Request) : string :=
  match dict_lookup (META request) "HTTP_X_FORWARDED_FOR" with
  | Some x_forwarded_for =>
      if truthy x_forwarded_for then strip (before_comma x_forwarded_for)
      else dict_get (META request) "REMOTE_ADDR" "unknown"
  | None => dict_get (META request) "REMOTE_ADDR" "unknown"
  end.

Section Authentication.

Variable Token : Type.

(** [super().authenticate]: what the base class answers the request. *)
Variable jwt_authenticate : Request -> Outcome Token.

Variable sha256_hexdigest : string -> string.

(** [_check_user_status(user, request)] *)
Definition _check_user_status (user : User) (request : Request) (db : AuthDB)
  : Outcome Token * AuthDB + AuthDB :=
  if is_revoked user then
    inl (InvalidToken "Your access has been revoked." "access_revoked",
         {| users := users db; sessions := sessions db;
            audit_log :=
              Audit.log "auth.token.revoked" (Some (user_id user)) None false
                (audit_log db) |})
  else if UserStatus_eqb (Authentication.status user) SUSPENDED then
    inl (InvalidToken "Your account is temporarily suspended." "account_suspended",
         db)
  else if negb (Authentication.is_active user) then
    inl (InvalidToken "Your account is not active." "account_inactive", db)
  else inr db.

(** [_validate_device_binding(user, request, token)] *)
Definition _validate_device_binding (user : User) (request : Request)
  (db : AuthDB) : Outcome Token * AuthDB + AuthDB :=
  let device_fingerprint := dict_get (META request) "HTTP_X_DEVICE_FINGERPRINT" "" in
  if negb (truthy device_fingerprint) then
    inl (InvalidToken "Device verification required." "missing_device_fingerprint",
         db)
  else
    match filter (is_active_of (user_id user)) (sessions db) with
    | [] =>
        inl (InvalidToken "No active session found. Please log in again."
               "no_active_session", db)
    | [active_session] =>
        if negb (verify_fingerprint sha256_hexdigest active_session
                   device_fingerprint) then
          inl (InvalidToken "Device verification failed." "device_mismatch",
               {| users := users db; sessions := sessions db;
                  audit_log :=
                    Audit.log "system.security.alert" (Some (user_id user))
                      None false (audit_log db) |})
        else inr db
    | _ :: _ :: _ => inl (Unhandled "MultipleObjectsReturned", db)
    end.

(** [_update_activity(user, request)] *)
Definition _update_activity (user : User) (request : Request) (now : datetime)
  (db : AuthDB) : AuthDB :=
  if is_janmitra user then
    {| users := users db;
       sessions := touch_active (user_id user) now (_get_ip request) (sessions db);
       audit_log := audit_log db |}
  else db.

(** [DeviceBoundJWTAuthentication.authenticate(request)] *)
Definition authenticate (request : Request) (now : datetime) (db : AuthDB)
  : Outcome Token * AuthDB :=
  match jwt_authenticate request with
  | NoCredentials => (NoCredentials, db)
  | InvalidToken detail code => (InvalidToken detail code, db)
  | AuthenticationFailed detail code => (AuthenticationFailed detail code, db)
  | Unhandled exception => (Unhandled exception, db)
  | Authenticated user validated_token =>
      match _check_user_status user request db with
      | inl raised => raised
      | inr db =>
          match (if is_janmitra user
                 then _validate_device_binding user request db
                 else inr db) with
          | inl raised => raised
          | inr db =>
              (Authenticated user validated_token,
               _update_activity user request now db)
          end
      end
  end.

End Authentication.

(** [DeviceBoundJWTAuthentication.authenticate] on top of its base class,
    which reads the user table as the request finds it. *)
Definition DeviceBoundJWTAuthentication {Token : Type}
  (get_validated_token : Request -> Bearer Token)
  (sha256_hexdigest : string -> string)
  (request : Request) (now : datetime) (db : AuthDB) : Outcome Token * AuthDB :=
  authenticate Token
    (JWTAuthentication.authenticate Token get_validated_token (users db))
    sha256_hexdigest request now db.

End Backends.

(* ===================================================================== *)
(** * Further code of the cited files                                     *)
(* ===================================================================== *)

(** ** authentication/permissions.py: the remaining role permissions *)

Module RolePermissions.

(** [IsLevel2.has_permission] *)
Definition IsLevel2 (user : RequestUser) : bool :=
  match user with
  | None => false
  | Some u =>
      if is_revoked u || negb (is_active u) then false else is_level_2 u
  end.

(** [IsJanMitra.has_permission] *)
Definition IsJanMitra (user : RequestUser) : bool :=
  match user with
  | None => false
  | Some u =>
      if is_revoked u || negb (is_active u) then false else is_janmitra u
  end.

(** [IsJanMitraOrAuthority.has_permission] *)
Definition IsJanMitraOrAuthority (user : RequestUser) : bool :=
  match user with
  | None => false
  | Some u => if is_revoked u || negb (is_active u) then false else true
  end.

(** [CanIssueInviteCode.has_permission] *)
Definition CanIssueInviteCode (user : RequestUser) : bool :=
  match user with
  | None => false
  | Some u => is_authority u
  end.

(** [CanDownloadMedia.has_permission] *)
Definition CanDownloadMedia (user : RequestUser) : bool :=
  match user with
  | None => false
  | Some u =>
      if is_revoked u || negb (is_active u) then false
      else if is_janmitra u then false
      else existsb (UserRole_eqb (role u)) [LEVEL_0; LEVEL_1; LEVEL_2_CAPTAIN]
  end.

(** [CanPreviewMedia.has_permission] *)
Definition CanPreviewMedia (user : RequestUser) : bool :=
  match user with
  | None => false
  | Some u =>
      if is_revoked u || negb (is_active u) then false
      else if is_janmitra u then false
      else is_authority u
  end.

End RolePermissions.

(** ** authentication/models.py and views.py: invalidating one session *)

Module SessionViews.

Import DeviceSessions AuthViews.

(** [DeviceSession.invalidate(reason)]: the instance after the
    assignments; [save(update_fields=...)] writes the three columns. *)
Definition invalidate (s : DeviceSession) (reason : string) (now : datetime)
  : DeviceSession :=
  {| id := id s; is_deleted := is_deleted s; user := user s;
     device_fingerprint_hash := device_fingerprint_hash s;
     device_name := device_name s; device_type := device_type s;
     os_name := os_name s; os_version := os_version s;
     app_version := app_version s;
     is_active := false;
     refresh_token_jti := refresh_token_jti s;
     last_activity_at := last_activity_at s;
     last_activity_ip := last_activity_ip s;
     invalidated_at := Some now;
     invalidation_reason := reason |}.

Definition save_session (s : DeviceSession) (table : list DeviceSession)
  : list DeviceSession :=
  map (fun row => if N.eqb (id row) (id s) then s else row) table.

(** [class InvalidateSessionView] *)
Module InvalidateSessionView.

Definition post (session_id : UUID) (now : datetime) (request_user : User)
  (db : AuthDB) : Response * AuthDB :=
  match find (fun s => N.eqb (id s) session_id
                       && N.eqb (user s) (user_id request_user))
          (objects (sessions db)) with
  | None => (mkResponse HTTP_404_NOT_FOUND (Detail "Session not found."), db)
  | Some session =>
      if negb (is_active session) then
        (mkResponse HTTP_400_BAD_REQUEST (Detail "Session is already inactive."),
         db)
      else
        let session := invalidate session "SECURITY" now in
        (mkResponse HTTP_200_OK (Detail "Session has been invalidated."),
         {| users := users db;
            sessions := save_session session (sessions db);
            audit_log :=
              Audit.log "auth.device.invalidated" (Some (user_id request_user))
                (Some (id session)) true (audit_log db) |})
  end.

End InvalidateSessionView.

End SessionViews.

(** ** core/models.py: the soft-delete base model *)

Module CoreModels.

(** The columns of [class BaseModel]. *)
Record BaseModel := mkBase {
  id : UUID;
  created_at : datetime;
  updated_at : datetime;
  is_deleted : bool;
  deleted_at : option datetime
}.

(** [models.Manager.get_queryset()]: every row. *)
Definition all_with_deleted (table : list BaseModel) : list BaseModel := table.

(** [SoftDeleteManager.get_queryset] *)
Definition get_queryset (table : list BaseModel) : list BaseModel :=
  filter (fun r => Bool.eqb (is_deleted r) false) (all_with_deleted table).

(** [SoftDeleteManager.deleted_only] *)
Definition deleted_only (table : list BaseModel) : list BaseModel :=
  filter (fun r => Bool.eqb (is_deleted r) true) (all_with_deleted table).

(** [self.save(update_fields=[is_deleted, deleted_at, updated_at])]:
    the three columns of the row with this key are written; [updated_at]
    is [auto_now]. *)
Definition save_update_fields (self : BaseModel) (now : datetime)
  (table : list BaseModel) : list BaseModel :=
  map (fun row =>
         if N.eqb (id row) (id self) then
           {| id := id row; created_at := created_at row; updated_at := now;
              is_deleted := is_deleted self; deleted_at := deleted_at self |}
         else row) table.

(** [BaseModel.soft_delete] *)
Definition soft_delete (self : BaseModel) (now : datetime)
  (table : list BaseModel) : list BaseModel :=
  let self :=
    {| id := id self; created_at := created_at self;
       updated_at := updated_at self;
       is_deleted := true; deleted_at := Some now |} in
  save_update_fields self now table.

(** [BaseModel.restore] *)
Definition restore (self : BaseModel) (now : datetime)
  (table : list BaseModel) : list BaseModel :=
  let self :=
    {| id := id self; created_at := created_at self;
       updated_at := updated_at self;
       is_deleted := false; deleted_at := None |} in
  save_update_fields self now table.

(** [BaseModel.delete]: a soft delete. *)
Definition delete (self : BaseModel) (now : datetime)
  (table : list BaseModel) : list BaseModel :=
  soft_delete self now table.

End CoreModels.

(** ** reports/views.py: case detail, incident feed and case notes *)

Module CaseViews.

(** [class CaseDetailView] *)
Module CaseDetailView.

Definition permission_classes : list (RequestUser -> bool) :=
  [Permissions.IsLevel1OrLevel2].

Definition get_queryset (user : RequestUser) (db : DB) : list Case :=
  if getattr user is_janmitra then []
  else visible_cases_for_user (cases db) user.

(** [get]: the row [get_object_or_404(queryset, id=case_id)] hands to the
    serializer; [None] is Http404. *)
Definition get (case_id : UUID) (user : RequestUser) (db : DB) : option Case :=
  find (fun c => N.eqb (Reports.id c) case_id) (get_queryset user db).

End CaseDetailView.

(** [class IncidentFeedView] *)
Module IncidentFeedView.

Definition permission_classes : list (RequestUser -> bool) :=
  [Permissions.IsLevel1OrLevel2].

Definition get_queryset (user : User) (db : DB) : list Case :=
  if is_janmitra user then []
  else
    let queryset :=
      filter (fun c => negb (Reports.is_deleted c)) (objects (cases db)) in
    let newest (qs : list Case) :=
      firstn 100
        (order_by (fun a b => Reports.created_at b <=? Reports.created_at a) qs) in
    if is_level_2 user && negb (is_level_2_captain user) then
      newest (filter (fun c => current_level c =? CaseLevel.LEVEL_2) queryset)
    else if is_level_2_captain user then
      newest (filter (fun c => current_level c <=? CaseLevel.LEVEL_2) queryset)
    else if is_level_1 user then
      newest (filter (fun c => current_level c =? CaseLevel.LEVEL_1) queryset)
    else if is_level_0 user then
      newest (filter (fun c => current_level c =? CaseLevel.LEVEL_0) queryset)
    else [].

End IncidentFeedView.

(** [class CaseNote(BaseModel)] *)
Record CaseNote := mkNote {
  note_id : UUID;
  note_created_at : datetime;
  note_case : UUID;
  author : UUID;
  author_level : string;
  note_text : string
}.

(** [CaseNote.author_level = CharField(max_length=10)]:
    [objects.create] runs no field validation, so the width is left to
    the database to enforce. *)
Definition author_level_max_length : nat := 10.

(** The string value of a role ([class UserRole]). *)
Definition UserRole_value (r : UserRole) : string :=
  match r with
  | LEVEL_0 => "level_0"
  | LEVEL_1 => "level_1"
  | LEVEL_2 => "level_2"
  | LEVEL_2_CAPTAIN => "level_2_captain"
  | LEVEL_3 => "level_3"
  end.

(** [class AddCaseNoteView] *)
Module AddCaseNoteView.

Definition permission_classes : list (RequestUser -> bool) :=
  [Permissions.IsLevel1OrLevel2].

(** The answers of [post]: an error payload, the created note, or the
    server error that an exception of the database ends in. *)
Inductive Answer :=
| NotFound (detail : string)
| Invalid (field msg : string)
| Created (note : CaseNote)
| DataError.


Section Database.

(** Whether the database refuses a text longer than its [varchar(n)]
    column: PostgreSQL does ("value too long for type character
    varying"), SQLite stores the text. *)
Variable enforces_max_length : bool.

Definition post (case_id : UUID) (request_data : Dict) (now : datetime)
  (user : User) (db : DB) (notes : list CaseNote) : Answer * list CaseNote :=
  match get (cases db) case_id with
  | None => (NotFound "Case not found.", notes)
  | Some case =>
      let content := strip (dict_get request_data "content" "") in
      if negb (truthy content) then
        (Invalid "content" "This field is required.", notes)
      else
        let author_level := InviteCodes.upper (UserRole_value (role user)) in
        if enforces_max_length
           && (author_level_max_length <? String.length author_level)%nat
        then (DataError, notes)
        else
          let note :=
            {| note_id := fresh (map note_id notes); note_created_at := now;
               note_case := Reports.id case; author := user_id user;
               author_level := author_level; note_text := content |} in
          (Created note, notes ++ [note])
  end.

End Database.

End AddCaseNoteView.

End CaseViews.

(** ** reports/serializers.py and reports/admin.py: computed fields *)

Module CaseSerializers.

(** [CaseListSerializer.get_is_sla_breached] and
    [CaseDetailSerializer.get_is_sla_breached] (the same body). *)
Definition get_is_sla_breached (obj : Case) (now : datetime) : bool :=
  if existsb (CaseStatus_eqb (status obj)) [SOLVED; REJECTED] then false
  else now >? sla_deadline obj.

(** [CaseDetailSerializer.get_can_download_media], on the request's
    user. *)
Definition get_can_download_media (user : RequestUser) : bool :=
  match user with
  | None => false
  | Some u =>
      if is_janmitra u then false
      else existsb (UserRole_eqb (role u)) [LEVEL_0; LEVEL_1; LEVEL_2_CAPTAIN]
  end.

End CaseSerializers.

Module CaseAdminDisplay.

(** [CaseAdmin.is_sla_breached_display] *)
Definition is_sla_breached_display (obj : Case) (now : datetime) : bool :=
  (now >? sla_deadline obj) && CaseStatus_eqb (status obj) OPEN.

(** The three badges of [CaseAdmin.sla_status_badge]. *)
Inductive Badge := BREACHED | NOT_APPLICABLE | OK.

(** [CaseAdmin.sla_status_badge] *)
Definition sla_status_badge (obj : Case) (now : datetime) : Badge :=
  let is_breached :=
    (now >? sla_deadline obj) && CaseStatus_eqb (status obj) OPEN in
  if is_breached then BREACHED
  else if negb (CaseStatus_eqb (status obj) OPEN) then NOT_APPLICABLE
  else OK.

End CaseAdminDisplay.

(** ** notifications/services.py: who is notified *)

Module NotificationService.

Definition role_mapping (level : Z) : list UserRole :=
  if level =? 2 then [LEVEL_2; LEVEL_2_CAPTAIN]
  else if level =? 1 then [LEVEL_1]
  else if level =? 0 then [LEVEL_0]
  else [].

(** [User.objects]: the UserManager hides soft-deleted users. *)
Definition user_objects (table : list User) : list User :=
  filter (fun u => negb (user_is_deleted u)) table.

(** [NotificationService._get_users_by_level] *)
Definition _get_users_by_level (level : Z) (table : list User) : list User :=
  match role_mapping level with
  | [] => []
  | roles =>
      filter (fun u => existsb (UserRole_eqb (role u)) roles
                       && is_active u && negb (user_is_deleted u))
        (user_objects table)
  end.

(** [NotificationService._get_captains] *)
Definition _get_captains (table : list User) : list User :=
  filter (fun u => UserRole_eqb (role u) LEVEL_2_CAPTAIN
                   && is_active u && negb (user_is_deleted u))
    (user_objects table).

End NotificationService.

(** ** authentication/models.py: the trust score of a citizen's profile *)

Module Profiles.

(** The statistics columns of [class JanMitraProfile(BaseModel)]. *)
Record JanMitraProfile := mkProfile {
  total_reports_submitted : Z;
  verified_reports_count : Z;
  rejected_reports_count : Z;
  trust_score : Z
}.

(** The column defaults of a new profile. *)
Definition new_profile : JanMitraProfile := mkProfile 0 0 0 50.

(** [JanMitraProfile.update_trust_score] *)
Definition update_trust_score (self : JanMitraProfile) : JanMitraProfile :=
  let score :=
    50 + verified_reports_count self * 5 - rejected_reports_count self * 10 in
  {| total_reports_submitted := total_reports_submitted self;
     verified_reports_count := verified_reports_count self;
     rejected_reports_count := rejected_reports_count self;
     trust_score := Z.max 0 (Z.min 100 score) |}.

(** [JanMitraProfile.increment_report_count(status)] *)
Definition increment_report_count (self : JanMitraProfile) (status : string)
  : JanMitraProfile :=
  let self :=
    if String.eqb status "submitted" then
      {| total_reports_submitted := total_reports_submitted self + 1;
         verified_reports_count := verified_reports_count self;
         rejected_reports_count := rejected_reports_count self;
         trust_score := trust_score self |}
    else if String.eqb status "verified" then
      {| total_reports_submitted := total_reports_submitted self;
         verified_reports_count := verified_reports_count self + 1;
         rejected_reports_count := rejected_reports_count self;
         trust_score := trust_score self |}
    else if String.eqb status "rejected" then
      {| total_reports_submitted := total_reports_submitted self;
         verified_reports_count := verified_reports_count self;
         rejected_reports_count := rejected_reports_count self + 1;
         trust_score := trust_score self |}
    else self in
  update_trust_score self.

End Profiles.

(* ===================================================================== *)
(** * Properties                                                           *)
(* ===================================================================== *)

(** ** Enumerations and queries *)

Lemma UserRole_eqb_eq a b : UserRole_eqb a b = true <-> a = b.
Proof. destruct a, b; simpl; split; congruence. Qed.

Lemma UserStatus_eqb_eq a b : UserStatus_eqb a b = true <-> a = b.
Proof. destruct a, b; simpl; split; congruence. Qed.

Lemma CaseStatus_eqb_eq a b : CaseStatus_eqb a b = true <-> a = b.
Proof. destruct a, b; simpl; split; congruence. Qed.

Lemma CaseStatus_eqb_refl a : CaseStatus_eqb a a = true.
Proof. now destruct a. Qed.

Lemma In_insert_by {A} (le : A -> A -> bool) (x y : A) (l : list A) :
  In y (insert_by le x l) <-> y = x \/ In y l.
Proof.
  induction l as [|z l IH]; simpl.
  - intuition congruence.
  - destruct (le x z); simpl; [intuition congruence|].
    rewrite IH. intuition congruence.
Qed.

Lemma In_order_by {A} (le : A -> A -> bool) (y : A) (l : list A) :
  In y (order_by le l) <-> In y l.
Proof.
  induction l as [|x l IH]; simpl; [tauto|].
  rewrite In_insert_by, IH. intuition congruence.
Qed.

Lemma insert_by_perm {A} (le : A -> A -> bool) (x : A) (l : list A) :
  Permutation (insert_by le x l) (x :: l).
Proof.
  induction l as [|z l IH]; simpl; [reflexivity|].
  destruct (le x z); [reflexivity|].
  rewrite IH. apply perm_swap.
Qed.

Lemma order_by_perm {A} (le : A -> A -> bool) (l : list A) :
  Permutation (order_by le l) l.
Proof.
  induction l as [|x l IH]; simpl; [reflexivity|].
  rewrite insert_by_perm. now constructor.
Qed.

(** Ordering a selection keeps its keys unique. *)
Lemma order_by_keys {A B} (key : A -> B) (le : A -> A -> bool) (l : list A) :
  NoDup (map key l) -> NoDup (map key (order_by le l)).
Proof.
  apply Permutation_NoDup, Permutation_map, Permutation_sym, order_by_perm.
Qed.

Lemma find_none_intro {A} (f : A -> bool) (l : list A) :
  (forall x, In x l -> f x = false) -> find f l = None.
Proof.
  induction l as [|y l IH]; intros H; simpl; [reflexivity|].
  rewrite (H y (or_introl eq_refl)). apply IH.
  intros x Hx. apply H. now right.
Qed.

Lemma In_objects (c : Case) (table : list Case) :
  In c (objects table) <-> In c table /\ is_deleted c = false.
Proof.
  unfold objects. rewrite filter_In, negb_true_iff. tauto.
Qed.

(** ** Visibility (reports/models.py, reports/views.py) *)

Module VisibilityProps.

(** The level test each role gets from [visible_cases_for_user]. *)
Definition listed_level (r : UserRole) (lvl : Z) : Prop :=
  match r with
  | LEVEL_2 => lvl = 2
  | LEVEL_2_CAPTAIN => 2 <= lvl
  | LEVEL_1 => lvl = 1
  | LEVEL_0 => lvl = 0
  | LEVEL_3 => False
  end.

(** The level test each role gets from [OpenCasesView.get_queryset]. *)
Definition open_listed_level (r : UserRole) (lvl : Z) : Prop :=
  match r with
  | LEVEL_2 => lvl = 2
  | LEVEL_2_CAPTAIN => lvl <= 2
  | LEVEL_1 => lvl = 1
  | LEVEL_0 => lvl = 0
  | LEVEL_3 => False
  end.

(** What the case list endpoint returns, role by role. *)
Lemma CaseListView_members (u : User) (db : DB) (c : Case) :
  In c (CaseListView.get_queryset None (Some u) db) <->
  In c (cases db) /\ is_deleted c = false /\ listed_level (role u) (current_level c).
Proof.
  unfold CaseListView.get_queryset, visible_cases_for_user, getattr,
    is_janmitra, is_level_2, is_level_2_captain, is_level_1, is_level_0.
  destruct (role u); simpl;
    rewrite ?In_order_by, ?filter_In, ?In_objects, ?negb_true_iff,
      ?Z.eqb_eq, ?Z.geb_le; tauto.
Qed.

(** What the open-cases dashboard returns, role by role. *)
Lemma OpenCasesView_members (u : User) (db : DB) (c : Case) :
  In c (OpenCasesView.get_queryset u db) <->
  In c (cases db) /\ is_deleted c = false /\ status c = OPEN
  /\ open_listed_level (role u) (current_level c).
Proof.
  unfold OpenCasesView.get_queryset,
    is_janmitra, is_level_2, is_level_2_captain, is_level_1, is_level_0.
  destruct (role u); simpl;
    rewrite ?In_order_by, ?filter_In, ?In_objects, ?andb_true_iff,
      ?negb_true_iff, ?CaseStatus_eqb_eq, ?Z.eqb_eq, ?Z.leb_le;
    unfold CaseLevel.LEVEL_2, CaseLevel.LEVEL_1, CaseLevel.LEVEL_0; tauto.
Qed.

(** A citizen's call returns the empty list, whatever the filter. *)
Lemma CaseListView_janmitra (filter_by : option string) (u : User) (db : DB) :
  role u = JANMITRA -> CaseListView.get_queryset filter_by (Some u) db = [].
Proof.
  intros H. unfold CaseListView.get_queryset, getattr, is_janmitra.
  now rewrite H.
Qed.

(** A captain and a case that was escalated to level 1. *)
Definition captain : User :=
  mkUser 7%N "captain@police.example" LEVEL_2_CAPTAIN ACTIVE false true false
    None None "".

Definition escalated_case : Case :=
  {| Reports.id := 1%N; created_at := 100; updated_at := 200;
     Reports.is_deleted := false; incident := 1%N; current_level := 1;
     Reports.status := OPEN; sla_deadline := 90000; solved_at := None;
     solved_by := None; solution_notes := ""; rejected_at := None;
     rejected_by := None; rejection_reason := ""; escalation_count := 1;
     last_escalated_at := Some 200 |}.

(** C1. The visibility rule gives a LEVEL_2_CAPTAIN every case with
    [current_level <= 2].  [visible_cases_for_user], which the case list
    and the case detail endpoints use, filters the captain's cases with
    [current_level >= 2] instead: an open level-1 case is at a level
    [<= 2], the captain passes the endpoint's permission, and the list is
    empty, while [OpenCasesView.get_queryset], written with [<=], returns
    the case. *)
Theorem C1_captain_list_misses_escalated_case :
  let db := mkDB [] [escalated_case] [] [] in
  Permissions.IsLevel1OrLevel2 (Some captain) = true
  /\ current_level escalated_case <= 2
  /\ visible_cases_for_user (cases db) (Some captain) = []
  /\ CaseListView.get_queryset None (Some captain) db = []
  /\ OpenCasesView.get_queryset captain db = [escalated_case].
Proof.
  cbv zeta. repeat split; try reflexivity. discriminate.
Qed.

End VisibilityProps.

(** ** One active device session per user (authentication/models.py) *)

Module SessionProps.

Import DeviceSessions.

(** The rows of the table that belong to [u] and have [is_active] set. *)
Definition active_rows (u : UUID) (table : list DeviceSession)
  : list DeviceSession :=
  filter (fun s => N.eqb (user s) u && is_active s) table.

(** No row of the table is soft-deleted (sessions are invalidated, never
    deleted). *)
Definition never_deleted (table : list DeviceSession) : Prop :=
  Forall (fun s => is_deleted s = false) table.

(** One [createSession] call: whose session, from which device, when. *)
Record Call := mkCall {
  call_user : UUID;
  call_fingerprint : string;
  call_info : Dict;
  call_now : datetime
}.

Section Hashing.

Variable sha256_hexdigest : string -> string.

Definition run_call (table : list DeviceSession) (c : Call)
  : list DeviceSession :=
  snd (create_session sha256_hexdigest (call_user c) (call_fingerprint c)
         (call_info c) (call_now c) table).

Definition run_calls (calls : list Call) (table : list DeviceSession)
  : list DeviceSession :=
  fold_left run_call calls table.

Lemma active_rows_app u t1 t2 :
  active_rows u (t1 ++ t2) = active_rows u t1 ++ active_rows u t2.
Proof. apply filter_app. Qed.

Lemma invalidate_active_same u now why table :
  never_deleted table ->
  active_rows u (invalidate_active u now why table) = [].
Proof.
  unfold never_deleted, active_rows, invalidate_active.
  induction table as [|s table IH]; intros Hnd; [reflexivity|].
  inversion Hnd as [|? ? Hs Hrest]; subst. simpl.
  destruct (is_active_of u s) eqn:E; simpl.
  - rewrite andb_false_r. now apply IH.
  - unfold is_active_of in E. rewrite Hs in E. simpl in E.
    rewrite E. now apply IH.
Qed.

Lemma invalidate_active_other u v now why table :
  u <> v ->
  active_rows u (invalidate_active v now why table) = active_rows u table.
Proof.
  intros Huv. unfold active_rows, invalidate_active.
  induction table as [|s table IH]; [reflexivity|]. simpl.
  destruct (is_active_of v s) eqn:E; simpl.
  - unfold is_active_of in E.
    apply andb_true_iff in E. destruct E as [E _].
    apply andb_true_iff in E. destruct E as [_ E].
    apply N.eqb_eq in E.
    assert (Eu : N.eqb (user s) u = false)
      by (apply N.eqb_neq; congruence).
    rewrite Eu. simpl. exact IH.
  - now rewrite IH.
Qed.

Lemma invalidate_active_never_deleted u now why table :
  never_deleted table -> never_deleted (invalidate_active u now why table).
Proof.
  unfold never_deleted, invalidate_active. intros H.
  apply Forall_map. eapply Forall_impl; [|exact H].
  intros s Hs. destruct (is_active_of u s); simpl; exact Hs.
Qed.

Lemma run_call_never_deleted table c :
  never_deleted table -> never_deleted (run_call table c).
Proof.
  intros H. unfold run_call, create_session. simpl.
  apply Forall_app. split.
  - now apply invalidate_active_never_deleted.
  - constructor; [reflexivity|constructor].
Qed.

Lemma run_calls_never_deleted calls table :
  never_deleted table -> never_deleted (run_calls calls table).
Proof.
  revert table. induction calls as [|c calls IH]; intros table H; simpl; auto.
  apply IH. now apply run_call_never_deleted.
Qed.

(** The call for [u] leaves the new session as the only active row. *)
Lemma create_session_active_rows u fp info now table :
  never_deleted table ->
  active_rows u (snd (create_session sha256_hexdigest u fp info now table))
  = [fst (create_session sha256_hexdigest u fp info now table)].
Proof.
  intros H. unfold create_session. simpl.
  rewrite active_rows_app, invalidate_active_same by exact H.
  unfold active_rows. simpl. now rewrite N.eqb_refl.
Qed.

(** A call for another user does not touch the active rows of [u]. *)
Lemma create_session_other u v fp info now table :
  u <> v ->
  active_rows u (snd (create_session sha256_hexdigest v fp info now table))
  = active_rows u table.
Proof.
  intros Huv. unfold create_session. simpl.
  rewrite active_rows_app, invalidate_active_other by exact Huv.
  unfold active_rows at 2. simpl.
  assert (E : N.eqb v u = false) by (apply N.eqb_neq; congruence).
  rewrite E. simpl. apply app_nil_r.
Qed.

Lemma run_calls_one_active u calls table :
  never_deleted table ->
  In u (map call_user calls) ->
  List.length (active_rows u (run_calls calls table)) = 1%nat.
Proof.
  revert table. induction calls as [|c calls IH] using rev_ind;
    intros table Hnd Hin; [destruct Hin|].
  unfold run_calls. rewrite fold_left_app. simpl.
  fold (run_calls calls table).
  destruct (N.eq_dec (call_user c) u) as [E|E].
  - unfold run_call. rewrite E.
    rewrite create_session_active_rows
      by (now apply run_calls_never_deleted).
    reflexivity.
  - unfold run_call.
    rewrite create_session_other by congruence.
    apply IH; [exact Hnd|].
    rewrite map_app, in_app_iff in Hin. simpl in Hin.
    destruct Hin as [Hin|[Hin|[]]]; [exact Hin|congruence].
Qed.

(** Every row of [u] that was active is still in the table, inactive,
    with reason NEW_DEVICE. *)
Lemma create_session_invalidates u fp info now table s :
  never_deleted table ->
  In s table -> user s = u -> is_active s = true ->
  exists s',
    In s' (snd (create_session sha256_hexdigest u fp info now table))
    /\ id s' = id s /\ is_active s' = false
    /\ invalidated_at s' = Some now
    /\ invalidation_reason s' = "NEW_DEVICE"%string.
Proof.
  intros Hnd Hin Hu Ha.
  unfold never_deleted in Hnd. rewrite Forall_forall in Hnd.
  pose proof (Hnd s Hin) as Hd.
  unfold create_session. simpl.
  eexists. split.
  - apply in_or_app. left. unfold invalidate_active.
    apply in_map_iff. exists s. split; [reflexivity|exact Hin].
  - unfold is_active_of. rewrite Hd, Hu, Ha, N.eqb_refl. simpl.
    repeat split.
Qed.

(** C3. Session singularity.  In a table without soft-deleted rows,
    [create_session] for user [u] deactivates every active session of [u]
    with reason NEW_DEVICE and inserts one active session whose stored
    hash is the SHA-256 digest of the device fingerprint, so exactly one
    row of [u] is active afterwards; and after any sequence of
    [create_session] calls (for any users) that contains a call for [u],
    exactly one row of [u] has [is_active] set. *)
Theorem C3_session_singularity (table : list DeviceSession) (u : UUID) :
  never_deleted table ->
  (forall fp info now,
     let (session, table') :=
       create_session sha256_hexdigest u fp info now table in
     active_rows u table' = [session]
     /\ user session = u /\ is_active session = true
     /\ device_fingerprint_hash session = sha256_hexdigest fp
     /\ forall s, In s table -> user s = u -> is_active s = true ->
          exists s', In s' table' /\ id s' = id s /\ is_active s' = false
                     /\ invalidation_reason s' = "NEW_DEVICE"%string)
  /\ (forall calls,
        In u (map call_user calls) ->
        List.length (active_rows u (run_calls calls table)) = 1%nat).
Proof.
  intros Hnd. split.
  - intros fp info now.
    pose proof (create_session_active_rows u fp info now table Hnd) as H1.
    pose proof (fun s => create_session_invalidates u fp info now table s Hnd)
      as H2.
    destruct (create_session sha256_hexdigest u fp info now table)
      as [session table'] eqn:E.
    simpl in H1, H2.
    assert (Es : session =
                 fst (create_session sha256_hexdigest u fp info now table))
      by now rewrite E.
    split; [exact H1|].
    repeat split; try (rewrite Es; reflexivity).
    intros s Hin Hu Ha. destruct (H2 s Hin Hu Ha) as (s' & ? & ? & ? & ? & ?).
    exists s'. auto.
  - intros calls Hin. now apply run_calls_one_active.
Qed.

End Hashing.

(** A table with two stale active sessions of user 5 and calls from two
    users. *)
Definition stale (k : UUID) : DeviceSession :=
  mkSession k false 5%N "old" "" "" "" "" "" true "" 0 None None "".

Lemma C3_session_singularity_witness :
  never_deleted [stale 1%N; stale 2%N]
  /\ In 5%N (map call_user [mkCall 5%N "pixel" [] 10; mkCall 6%N "nokia" [] 11])
  /\ List.length
       (active_rows 5%N
          (run_calls (fun s => s)
             [mkCall 5%N "pixel" [] 10; mkCall 6%N "nokia" [] 11]
             [stale 1%N; stale 2%N])) = 1%nat.
Proof.
  assert (Hnd : never_deleted [stale 1%N; stale 2%N])
    by (repeat constructor).
  assert (Hin : In 5%N (map call_user
                          [mkCall 5%N "pixel" [] 10; mkCall 6%N "nokia" [] 11]))
    by (simpl; auto).
  split; [exact Hnd|]. split; [exact Hin|].
  exact (proj2 (C3_session_singularity (fun s => s) _ 5%N Hnd) _ Hin).
Defined.

End SessionProps.

(** ** Device-bound authentication (authentication/backends.py) *)

Module BackendProps.

Import DeviceSessions AuthViews Backends.

Lemma is_revoked_iff (u : User) :
  is_revoked u = true <-> Authentication.status u = REVOKED.
Proof. unfold is_revoked. apply UserStatus_eqb_eq. Qed.

Lemma get_user_save_user (table : list User) (pk : UUID) (old new : User) :
  get_user table pk = Some old ->
  user_id new = pk -> user_is_deleted new = false ->
  get_user (save_user new table) pk = Some new.
Proof.
  unfold get_user, save_user. intros Hget Hid Hdel. subst pk.
  induction table as [|row table IH]; [discriminate|].
  simpl in *.
  destruct (N.eqb (user_id row) (user_id new)) eqn:E.
  - rewrite Hdel. simpl. now rewrite N.eqb_refl.
  - destruct (negb (user_is_deleted row)); simpl in *.
    + rewrite E in *. now apply IH.
    + now apply IH.
Qed.

Lemma get_user_found (table : list User) (pk : UUID) (u : User) :
  get_user table pk = Some u -> user_id u = pk /\ user_is_deleted u = false.
Proof.
  unfold get_user. intros H. apply find_some in H. destruct H as [Hin E].
  apply N.eqb_eq in E. apply filter_In in Hin.
  split; [exact E|]. now apply negb_true_iff.
Qed.

Section Authentication.

Variable Token : Type.
Variable get_validated_token : Request -> Bearer Token.
Variable sha256_hexdigest : string -> string.

(** C4. A revoked user with a valid token.  The claim has every user
    whose status is REVOKED refused with AccessRevoked, whatever the
    device fingerprint.  [_check_user_status] is written to do so, and,
    running before any device check, it does so for a REVOKED user whose
    row is still active: the answer is [access_revoked] whatever the
    headers carry and whatever sessions are stored, and the attempt is
    audited.  But [User.revoke_access] clears [is_active] along with
    setting the status, and the base class refuses an inactive user on
    its own: for a user revoked through [revoke_access] the request ends
    in the base class with "User is inactive" ([user_inactive]), before
    [_check_user_status] is reached, and the database is left as it is,
    with no audit entry. *)
Theorem C4_revoked_user_refused_as_inactive (request : Request)
  (now : datetime) (db : AuthDB) (user : User) (validated_token : Token) :
  get_validated_token request = Valid validated_token (user_id user) ->
  get_user (users db) (user_id user) = Some user ->
  Authentication.status user = REVOKED ->
  let result :=
    DeviceBoundJWTAuthentication get_validated_token sha256_hexdigest
      request now db in
  (Authentication.is_active user = false ->
   result = (AuthenticationFailed "User is inactive" "user_inactive", db))
  /\ (Authentication.is_active user = true ->
      result
      = (InvalidToken "Your access has been revoked." "access_revoked",
         {| users := users db; sessions := sessions db;
            audit_log :=
              Audit.log "auth.token.revoked" (Some (user_id user)) None false
                (audit_log db) |}))
  /\ (forall before target revoked_by reason at_time,
        get_user (users before) (user_id user) = Some target ->
        db = revoke_access target revoked_by reason at_time before ->
        Authentication.is_active user = false).
Proof.
  intros Htoken Hget Hrevoked result. subst result.
  unfold DeviceBoundJWTAuthentication, authenticate,
    JWTAuthentication.authenticate, JWTAuthentication.get_user.
  rewrite Htoken, Hget.
  split; [|split].
  - intros Ha. rewrite Ha. reflexivity.
  - intros Ha. rewrite Ha. simpl.
    unfold _check_user_status, is_revoked. rewrite Hrevoked. reflexivity.
  - intros before target revoked_by reason at_time Hbefore ->.
    destruct (get_user_found _ _ _ Hbefore) as [Hid Hlive].
    unfold revoke_access in Hget. cbn [users] in Hget.
    match type of Hget with
    | get_user (save_user ?new _) _ = _ =>
        rewrite (get_user_save_user (users before) (user_id user) target new
                   Hbefore Hid Hlive) in Hget
    end.
    inversion Hget. reflexivity.
Qed.

End Authentication.

(** A citizen with an active session on the device "pixel-7", the
    senior officer who revokes the citizen at time 50, and the
    citizen's next request, from that very device. *)
Definition citizen : User :=
  mkUser 9%N "JM-0123456789AB" LEVEL_3 ACTIVE true true false None None "".

Definition revoked_citizen : User :=
  mkUser 9%N "JM-0123456789AB" LEVEL_3 REVOKED true false false
    (Some 50) (Some 2%N) "abuse".

Definition senior : User :=
  mkUser 2%N "senior@police.example" LEVEL_1 ACTIVE false true false
    None None "".

Definition bound_request : Request :=
  mkRequest [("HTTP_X_DEVICE_FINGERPRINT", "pixel-7")]%string.

Definition before_revocation : AuthDB :=
  mkAuthDB [citizen; senior]
    [mkSession 1%N false 9%N "pixel-7" "" "" "" "" "" true "" 0 None None ""]
    [].

Definition bound_db : AuthDB :=
  revoke_access citizen senior "abuse" 50 before_revocation.

(** The token of the citizen, as the base class validates it. *)
Definition citizen_token (request : Request) : Bearer unit := Valid tt 9%N.

Lemma C4_revoked_user_refused_as_inactive_witness :
  get_user (users bound_db) 9%N = Some revoked_citizen
  /\ DeviceBoundJWTAuthentication citizen_token (fun s => s) bound_request 60
       bound_db
     = (AuthenticationFailed "User is inactive" "user_inactive", bound_db).
Proof.
  split; [reflexivity|].
  exact (proj1 (C4_revoked_user_refused_as_inactive unit citizen_token
                  (fun s => s) bound_request 60 bound_db revoked_citizen tt
                  eq_refl eq_refl eq_refl) eq_refl).
Defined.

End BackendProps.

(** ** Invite codes (authentication/models.py, authentication/serializers.py) *)

Module InviteProps.

Import InviteCodes.

(** The validity rule as the specification words it, with a strict
    comparison against the expiry time. *)
Definition valid_strictly_before_expiry (c : InviteCode) (now : datetime) : Prop :=
  is_deleted c = false /\ use_count c < max_uses c /\ now < expires_at c.

(** The validity rule the code implements: the expiry instant itself is
    still inside the validity window. *)
Definition valid_until_expiry (c : InviteCode) (now : datetime) : Prop :=
  is_deleted c = false /\ use_count c < max_uses c /\ now <= expires_at c.

Lemma is_valid_iff (c : InviteCode) (now : datetime) :
  is_valid c now = true <-> valid_until_expiry c now.
Proof.
  unfold is_valid, valid_until_expiry.
  destruct (is_deleted c); [intuition discriminate|].
  destruct (Z.geb_spec (use_count c) (max_uses c));
    [intuition (discriminate || lia)|].
  destruct (Z.gtb_spec now (expires_at c));
    [intuition (discriminate || lia)|].
  intuition lia.
Qed.

(** The live row with a given code is the one the lookup finds. *)
Lemma find_by_code (table : list InviteCode) (c : InviteCode) (wanted : string) :
  NoDup (map code table) -> In c table -> code c = wanted ->
  find (fun r => String.eqb (code r) wanted)
    (filter (fun r => negb (is_deleted r)) table)
  = if is_deleted c then None else Some c.
Proof.
  intros Hnd Hin Hc. subst wanted.
  induction table as [|r table IH]; [destruct Hin|].
  simpl in Hnd. inversion Hnd as [|? ? Hnotin Hnd']; subst.
  destruct Hin as [->|Hin].
  - simpl. destruct (is_deleted c) eqn:Ed; simpl.
    + apply find_none_intro. intros r Hr.
      apply filter_In in Hr. destruct Hr as [Hr _].
      apply String.eqb_neq. intros E. apply Hnotin.
      rewrite <- E. now apply in_map.
    + now rewrite String.eqb_refl.
  - assert (Hne : String.eqb (code r) (code c) = false).
    { apply String.eqb_neq. intros E. apply Hnotin.
      rewrite E. now apply in_map. }
    simpl. destruct (is_deleted r); simpl; rewrite ?Hne; now apply IH.
Qed.

(** C9, as the code has it.  An InviteCode is valid if and only if it is
    not soft-deleted, [use_count < max_uses] and [now <= expires_at] (the
    expiry instant itself is still valid).  With unique codes, using an
    invite whose row is expired, exhausted or soft-deleted fails with a
    validation error; otherwise [use] adds one to [use_count] and sets
    [is_used] exactly when the new count equals [max_uses]. *)
Theorem C9_invite_validity (table : list InviteCode) (c : InviteCode)
  (value : string) (user_pk : UUID) (now : datetime) :
  NoDup (map code table) -> In c table -> code c = upper value ->
  (is_valid c now = true <-> valid_until_expiry c now)
  /\ (is_valid c now = false ->
        exists message, use_invite value user_pk now table = inr message)
  /\ (is_valid c now = true ->
        let used := use c user_pk now in
        use_invite value user_pk now table = inl (used, save used table)
        /\ use_count used = use_count c + 1
        /\ (use_count used = max_uses c -> is_used used = true)
        /\ (use_count used <> max_uses c -> is_used used = is_used c)).
Proof.
  intros Hnd Hin Hc.
  pose proof (find_by_code table c (upper value) Hnd Hin Hc) as Hfind.
  split; [apply is_valid_iff|]. split.
  - intros Hinv. unfold use_invite, validate_invite_code. rewrite Hfind.
    destruct (is_deleted c) eqn:Ed; [eauto|].
    rewrite Hinv. simpl. rewrite Ed.
    destruct (use_count c >=? max_uses c); [eauto|].
    destruct (now >? expires_at c); eauto.
  - intros Hv used.
    pose proof (proj1 (is_valid_iff c now) Hv) as (Hd & Hlt & _).
    unfold use_invite, validate_invite_code. rewrite Hfind, Hd, Hv. simpl.
    repeat split; subst used; unfold use; simpl.
    + intros E. rewrite E, Z.geb_leb, Z.leb_refl. reflexivity.
    + intros E.
      destruct (Z.geb_spec (use_count c + 1) (max_uses c)); [lia|reflexivity].
Qed.

(** A single-use code read at the very instant it expires. *)
Definition at_expiry : InviteCode :=
  mkInvite 1%N false "JM-AAAA-BBBB-CCCC" 2%N false None None 1000 1 0.

(** The strict reading fails on the code: at [now = expires_at] the code
    is valid, and registration with it goes through. *)
Lemma C9_valid_at_expiry_instant :
  ~ (forall c now,
       is_valid c now = true <-> valid_strictly_before_expiry c now).
Proof.
  intros H.
  destruct (proj1 (H at_expiry 1000) eq_refl) as (_ & _ & Hlt).
  simpl in Hlt. lia.
Qed.

Lemma C9_invite_validity_witness :
  is_valid at_expiry 1000 = true
  /\ use_invite "jm-aaaa-bbbb-cccc" 3%N 1000 [at_expiry]
     = inl (use at_expiry 3%N 1000, save (use at_expiry 3%N 1000) [at_expiry])
  /\ is_used (use at_expiry 3%N 1000) = true.
Proof.
  assert (Hnd : NoDup (map code [at_expiry]))
    by (repeat constructor; simpl; tauto).
  assert (Hin : In at_expiry [at_expiry]) by (simpl; auto).
  pose proof (C9_invite_validity [at_expiry] at_expiry "jm-aaaa-bbbb-cccc"
                3%N 1000 Hnd Hin eq_refl) as (_ & _ & H).
  specialize (H eq_refl). cbv zeta in H.
  destruct H as (H1 & _ & H3 & _).
  split; [reflexivity|]. split; [exact H1|]. apply H3. reflexivity.
Defined.

End InviteProps.

(** ** Revocation (authentication/permissions.py, models.py, views.py) *)

Module RevokeProps.

Import DeviceSessions AuthViews.




Lemma invalidate_active_none_left (pk : UUID) (now : datetime) (why : string)
  (table : list DeviceSession) :
  filter (is_active_of pk) (invalidate_active pk now why table) = [].
Proof.
  unfold invalidate_active.
  induction table as [|s table IH]; [reflexivity|]. simpl.
  destruct (is_active_of pk s) eqn:E.
  - unfold is_active_of at 1. simpl. rewrite andb_false_r. exact IH.
  - rewrite E. exact IH.
Qed.



Lemma dispatch_granted {S} (perms : list (RequestUser -> bool)) handler
  (u : User) (st : S) :
  forallb (fun p : RequestUser -> bool => p (Some u)) perms = true ->
  dispatch perms handler (Some u) st = handler u st.
Proof.
  intros H. unfold dispatch, check_permissions. rewrite H. reflexivity.
Qed.


(** A senior authority, a colleague of the same role, and a citizen with
    an active session. *)
Definition senior : User :=
  mkUser 1%N "senior@police.example" LEVEL_1 ACTIVE false true false
    None None "".

Definition colleague : User :=
  mkUser 2%N "colleague@police.example" LEVEL_1 ACTIVE false true false
    None None "".

Definition citizen : User :=
  mkUser 3%N "JM-AAAAAAAAAAAA" LEVEL_3 ACTIVE true true false None None "".

Definition office : AuthDB :=
  mkAuthDB [senior; colleague; citizen]
    [mkSession 1%N false 3%N "hash" "" "" "" "" "" true "" 0 None None ""]
    [].



End RevokeProps.

(** ** The case endpoints (reports/views.py) *)

Module CaseProps.

Lemma get_Some (table : list Case) (cid : UUID) (c : Case) :
  get table cid = Some c ->
  In c table /\ id c = cid /\ is_deleted c = false.
Proof.
  unfold get. intros H. apply find_some in H. destruct H as [Hin Hc].
  apply In_objects in Hin. apply andb_true_iff in Hc.
  destruct Hc as [Hc _]. apply N.eqb_eq in Hc. tauto.
Qed.

Lemma touch_id c now : id (touch c now) = id c.
Proof. reflexivity. Qed.

(** Saving an instance makes it the row its key leads to. *)
Lemma get_save_same (table : list Case) (old new : Case) (now : datetime) :
  get table (id new) = Some old -> is_deleted new = false ->
  get (save new now table) (id new) = Some (touch new now).
Proof.
  unfold get, objects, save. intros Hget Hdel.
  induction table as [|row table IH]; [discriminate|]. simpl in *.
  destruct (N.eqb (id row) (id new)) eqn:E.
  - simpl. rewrite Hdel. simpl. now rewrite N.eqb_refl, Hdel.
  - destruct (negb (is_deleted row)) eqn:Ed; simpl in *.
    + rewrite E in *. simpl in *. now apply IH.
    + now apply IH.
Qed.

(** Saving an instance leaves every other key alone. *)
Lemma get_save_other (table : list Case) (new : Case) (now : datetime)
  (cid : UUID) :
  cid <> id new -> get (save new now table) cid = get table cid.
Proof.
  unfold get, objects, save. intros Hne.
  induction table as [|row table IH]; [reflexivity|]. simpl.
  destruct (N.eqb (id row) (id new)) eqn:E.
  - apply N.eqb_eq in E. simpl.
    assert (E1 : N.eqb (id new) cid = false)
      by (apply N.eqb_neq; congruence).
    assert (E2 : N.eqb (id row) cid = false)
      by (apply N.eqb_neq; congruence).
    destruct (negb (is_deleted new)), (negb (is_deleted row)); simpl;
      rewrite ?E1, ?E2; simpl; exact IH.
  - destruct (negb (is_deleted row)); simpl; rewrite IH; reflexivity.
Qed.

(** The history rows of one case, in insertion order. *)
Definition history_of (cid : UUID) (db : DB) : list CaseStatusHistory :=
  filter (fun h => N.eqb (h_case h) cid) (status_history db).

(** The refusal a transition endpoint gives when the case is not in the
    state the transition needs. *)
Definition ConflictError (r : Response) : Prop :=
  status_code r = HTTP_400_BAD_REQUEST
  /\ (data r = Detail "Case is not open."
      \/ data r = Detail "Case is already at highest level.").

Definition terminal (s : CaseStatus) : Prop :=
  s = SOLVED \/ s = REJECTED \/ s = CLOSED.

Lemma terminal_not_open (s : CaseStatus) :
  terminal s <-> CaseStatus_eqb s OPEN = false.
Proof. unfold terminal. destruct s; simpl; intuition discriminate. Qed.

Lemma terminal_listed (s : CaseStatus) :
  terminal s <-> existsb (CaseStatus_eqb s) [SOLVED; REJECTED; CLOSED] = true.
Proof. unfold terminal. destruct s; simpl; intuition discriminate. Qed.

Lemma authority_granted (u : User) :
  is_authority u = true -> is_revoked u = false ->
  Authentication.is_active u = true ->
  forallb (fun p : RequestUser -> bool => p (Some u))
    [Permissions.IsLevel1OrLevel2] = true.
Proof.
  intros Ha Hr Hact. simpl. unfold Permissions.IsLevel1OrLevel2.
  now rewrite Hr, Hact, Ha.
Qed.

End CaseProps.

(** ** The lifecycle as a transition system *)

Module LifecycleProps.

Import CaseProps.

(** The table with the row of key [id c'] replaced by [c']. *)
Definition put (c' : Case) (table : list Case) : list Case :=
  map (fun r => if N.eqb (id r) (id c') then c' else r) table.

(** One recorded change of the live OPEN case [c]: its row becomes [c'],
    one history row [h] is appended; either the case stays OPEN and goes
    one level down from a level other than 0, or it reaches a terminal
    status at the same level. *)
Inductive moves (c : Case) (db db' : DB) : Prop :=
| Moves (c' : Case) (h : CaseStatusHistory)
    (Hin : In c (cases db))
    (Hlive : is_deleted c = false)
    (Hid : id c' = id c)
    (Hlive' : is_deleted c' = false)
    (Hcases : cases db' = put c' (cases db))
    (Hhist : status_history db' = status_history db ++ [h])
    (Hrow : h_case h = id c)
    (Hopen : status c = OPEN)
    (Hfrom : from_status h = Some OPEN)
    (Hto : to_status h = status c')
    (Hkind :
       (status c' = OPEN /\ current_level c <> 0
        /\ current_level c' = current_level c - 1
        /\ from_level h = Some (current_level c)
        /\ to_level h = Some (current_level c'))
       \/ (terminal (status c') /\ current_level c' = current_level c
           /\ (from_level h = None /\ to_level h = None
               \/ from_level h = Some (current_level c)
                  /\ to_level h = Some (current_level c)))).

(** The creation of a case: a new OPEN row at level 2 under a key the
    table does not have, and its initial history row. *)
Inductive creates (db db' : DB) : Prop :=
| Creates (c : Case) (h : CaseStatusHistory)
    (Hnew : ~ In (id c) (map id (cases db)))
    (Hlive : is_deleted c = false)
    (Hcases : cases db' = cases db ++ [c])
    (Hhist : status_history db' = status_history db ++ [h])
    (Hrow : h_case h = id c)
    (Hopen : status c = OPEN)
    (Hlevel : current_level c = 2)
    (Hfrom : from_status h = None /\ from_level h = None)
    (Hto : to_status h = OPEN /\ to_level h = Some 2).

Inductive atomic (db db' : DB) : Prop :=
| atomic_moves (c : Case) : moves c db db' -> atomic db db'
| atomic_creates : creates db db' -> atomic db db'.

(** Finitely many recorded changes, one after the other; tables other
    than the cases and their history may differ at the end. *)
Inductive steps : DB -> DB -> Prop :=
| steps_same db db' :
    cases db' = cases db -> status_history db' = status_history db ->
    steps db db'
| steps_next db db1 db2 : atomic db db1 -> steps db1 db2 -> steps db db2.

Lemma steps_refl db : steps db db.
Proof. now apply steps_same. Qed.

Lemma steps_one db db' : atomic db db' -> steps db db'.
Proof. intros H. eapply steps_next; [exact H|apply steps_refl]. Qed.

Lemma steps_trans db1 db2 db3 : steps db1 db2 -> steps db2 db3 -> steps db1 db3.
Proof.
  intros H12. revert db3. induction H12 as [db db' Hc Hh|db dba dbb Ha Hs IH];
    intros db3 H23.
  - revert Hc Hh.
    induction H23 as [d d' Hc' Hh'|d da dbb Ha Hs IH]; intros Hc Hh.
    + apply steps_same; congruence.
    + eapply steps_next; [|exact Hs].
      destruct Ha as [c [c' h]|[c h]].
      * apply atomic_moves with (c := c).
        apply Moves with (c' := c') (h := h); congruence.
      * apply atomic_creates.
        apply Creates with (c := c) (h := h); congruence.
  - eapply steps_next; [exact Ha|]. now apply IH.
Qed.

Lemma save_put (c : Case) (now : datetime) (table : list Case) :
  save c now table = put (touch c now) table.
Proof. reflexivity. Qed.

(** Adding the audit entry does not show in cases or history. *)
Lemma steps_audit db db' event who what :
  steps db db' -> steps db (add_audit event who what db').
Proof.
  intros H. eapply steps_trans; [exact H|]. now apply steps_same.
Qed.

(** Solving the live OPEN case [c] is one recorded change of [c]. *)
Lemma solve_moves cid data now (u : User) db c :
  get (cases db) cid = Some c -> status c = OPEN ->
  moves c db (snd (SolveCaseView.post cid data now u db)).
Proof.
  intros Hget Hopen. destruct (get_Some _ _ _ Hget) as (Hin & Hid & Hlive).
  unfold SolveCaseView.post. rewrite Hget, Hopen. simpl.
  eapply Moves
    with (c' := touch (assign_solved c u (dict_get data "solution_notes" "") now)
                  now);
    simpl; try reflexivity; try assumption.
  right. unfold terminal. auto.
Qed.

Lemma reject_moves cid data now (u : User) db c :
  get (cases db) cid = Some c -> status c = OPEN ->
  truthy (dict_get data "reason" "") = true ->
  moves c db (snd (RejectCaseView.post cid data now u db)).
Proof.
  intros Hget Hopen Hreason.
  destruct (get_Some _ _ _ Hget) as (Hin & Hid & Hlive).
  unfold RejectCaseView.post. rewrite Hget, Hopen, Hreason. simpl.
  eapply Moves
    with (c' := touch (assign_rejected c u (dict_get data "reason" "") now) now);
    simpl; try reflexivity; try assumption.
  right. unfold terminal. auto.
Qed.

Lemma forward_moves cid data now (u : User) db c :
  get (cases db) cid = Some c -> status c = OPEN -> 0 < current_level c ->
  moves c db (snd (ForwardCaseView.post cid data now u db)).
Proof.
  intros Hget Hopen Hlevel.
  destruct (get_Some _ _ _ Hget) as (Hin & Hid & Hlive).
  unfold ForwardCaseView.post. rewrite Hget, Hopen. simpl.
  unfold CaseLevel.LEVEL_0.
  destruct (Z.leb_spec (current_level c) 0); [lia|]. simpl.
  eapply Moves
    with (c' := touch (assign_escalated c (current_level c - 1) now
                         (now + timedelta_hours 24)) now);
    simpl; try reflexivity; try assumption.
  - now rewrite Hopen.
  - left. repeat split; try assumption. lia.
Qed.

(** What an endpoint does to the tables: nothing, or one recorded change
    of the case it addresses. *)
Definition nothing_or_moves (cid : UUID) (db db' : DB) : Prop :=
  db' = db
  \/ exists c, get (cases db) cid = Some c /\ status c = OPEN /\ moves c db db'.

Lemma dispatch_cases {S} (perms : list (RequestUser -> bool))
  (handler : User -> S -> Response * S) (user : RequestUser) (st : S) :
  snd (dispatch perms handler user st) = st
  \/ exists u, user = Some u /\ dispatch perms handler user st = handler u st.
Proof.
  unfold dispatch. destruct (check_permissions perms user); [now left|].
  destruct user as [u|]; [right; eauto|now left].
Qed.

Lemma solve_effect cid data now user db :
  nothing_or_moves cid db (snd (SolveCaseView.as_view cid data now user db)).
Proof.
  unfold SolveCaseView.as_view.
  destruct (dispatch_cases SolveCaseView.permission_classes
              (SolveCaseView.post cid data now) user db) as [E|(u & _ & E)];
    rewrite E; [now left|].
  destruct (get (cases db) cid) as [c|] eqn:Hget.
  - destruct (CaseStatus_eqb (status c) OPEN) eqn:Hs.
    + apply CaseStatus_eqb_eq in Hs. right. exists c.
      repeat split; auto. now apply solve_moves.
    + left. unfold SolveCaseView.post. now rewrite Hget, Hs.
  - left. unfold SolveCaseView.post. now rewrite Hget.
Qed.

Lemma reject_effect cid data now user db :
  nothing_or_moves cid db (snd (RejectCaseView.as_view cid data now user db)).
Proof.
  unfold RejectCaseView.as_view.
  destruct (dispatch_cases RejectCaseView.permission_classes
              (RejectCaseView.post cid data now) user db) as [E|(u & _ & E)];
    rewrite E; [now left|].
  destruct (get (cases db) cid) as [c|] eqn:Hget.
  - destruct (CaseStatus_eqb (status c) OPEN) eqn:Hs.
    + apply CaseStatus_eqb_eq in Hs.
      destruct (truthy (dict_get data "reason" "")) eqn:Hr.
      * right. exists c. repeat split; auto. now apply reject_moves.
      * left. unfold RejectCaseView.post. rewrite Hget, Hs. simpl.
        now rewrite Hr.
    + left. unfold RejectCaseView.post. now rewrite Hget, Hs.
  - left. unfold RejectCaseView.post. now rewrite Hget.
Qed.

Lemma forward_effect cid data now user db :
  nothing_or_moves cid db (snd (ForwardCaseView.as_view cid data now user db)).
Proof.
  unfold ForwardCaseView.as_view.
  destruct (dispatch_cases ForwardCaseView.permission_classes
              (ForwardCaseView.post cid data now) user db) as [E|(u & _ & E)];
    rewrite E; [now left|].
  destruct (get (cases db) cid) as [c|] eqn:Hget.
  - destruct (CaseStatus_eqb (status c) OPEN) eqn:Hs.
    + apply CaseStatus_eqb_eq in Hs.
      destruct (Z.leb_spec (current_level c) CaseLevel.LEVEL_0) as [Hl|Hl].
      * left. unfold ForwardCaseView.post. rewrite Hget, Hs. simpl.
        now rewrite (proj2 (Z.leb_le _ _) Hl).
      * right. exists c. repeat split; auto. now apply forward_moves.
    + left. unfold ForwardCaseView.post. now rewrite Hget, Hs.
  - left. unfold ForwardCaseView.post. now rewrite Hget.
Qed.

Lemma nothing_or_moves_steps cid db db' :
  nothing_or_moves cid db db' -> steps db db'.
Proof.
  intros [->|(c & _ & _ & H)]; [apply steps_refl|].
  apply steps_one. now apply atomic_moves with (c := c).
Qed.

(** *** Keys *)

Lemma map_id_put c' table : map id (put c' table) = map id table.
Proof.
  unfold put. rewrite map_map. apply map_ext_in. intros r _.
  destruct (N.eqb (id r) (id c')) eqn:E; [|reflexivity].
  apply N.eqb_eq in E. congruence.
Qed.

Lemma In_put_other c' k table :
  In k table -> id k <> id c' -> In k (put c' table).
Proof.
  intros Hin Hne. unfold put. apply in_map_iff. exists k.
  split; [|exact Hin].
  now rewrite (proj2 (N.eqb_neq _ _) Hne).
Qed.

Lemma In_put c' k table :
  In k (put c' table) -> k = c' \/ (In k table /\ id k <> id c').
Proof.
  unfold put. intros H. apply in_map_iff in H. destruct H as (r & Hr & Hin).
  destruct (N.eqb (id r) (id c')) eqn:E; [now left|].
  right. subst k. split; [exact Hin|]. now apply N.eqb_neq.
Qed.

(** A selection of the rows of a table has unique keys when the table
    has. *)
Lemma selection_keys (keep : Case -> bool) (table : list Case) :
  NoDup (map id table) -> NoDup (map id (filter keep table)).
Proof.
  intros Hnd. induction table as [|row table IH]; simpl; [constructor|].
  simpl in Hnd. apply NoDup_cons_iff in Hnd. destruct Hnd as [Hrow Hnd].
  destruct (keep row); simpl; [|now apply IH].
  apply NoDup_cons_iff. split; [|now apply IH].
  intros Hin. apply Hrow. apply in_map_iff in Hin.
  destruct Hin as (other & Hkey & Hin). apply filter_In in Hin.
  apply in_map_iff. exists other. tauto.
Qed.

Lemma NoDup_key_eq {A B} (f : A -> B) (l : list A) (a b : A) :
  NoDup (map f l) -> In a l -> In b l -> f a = f b -> a = b.
Proof.
  induction l as [|x l IH]; simpl; intros Hnd Ha Hb E; [destruct Ha|].
  inversion Hnd as [|? ? Hnotin Hnd']; subst.
  destruct Ha as [->|Ha], Hb as [->|Hb]; auto.
  - exfalso. apply Hnotin. rewrite E. now apply in_map.
  - exfalso. apply Hnotin. rewrite <- E. now apply in_map.
Qed.

(** With unique keys, a row rewritten in place is [put]. *)
Lemma map_at_key (F : Case -> Case) (c : Case) (table : list Case) :
  NoDup (map id table) -> In c table ->
  map (fun r => if N.eqb (id r) (id c) then F r else r) table
  = map (fun r => if N.eqb (id r) (id c) then F c else r) table.
Proof.
  intros Hnd Hin. apply map_ext_in. intros r Hr.
  destruct (N.eqb (id r) (id c)) eqn:E; [|reflexivity].
  apply N.eqb_eq in E.
  now rewrite (NoDup_key_eq id table r c Hnd Hr Hin E).
Qed.

(** With unique keys, the live row [k] is what a lookup of its key finds. *)
Lemma find_live_row (k : Case) (table : list Case) :
  NoDup (map id table) -> In k table -> is_deleted k = false ->
  find (fun c => N.eqb (id c) (id k)) (objects table) = Some k.
Proof.
  intros Hnd Hin Hlive.
  destruct (find (fun c => N.eqb (id c) (id k)) (objects table)) as [r|] eqn:E.
  - apply find_some in E. destruct E as [Hr E]. apply N.eqb_eq in E.
    apply In_objects in Hr. destruct Hr as [Hr _].
    now rewrite (NoDup_key_eq id table r k Hnd Hr Hin E).
  - exfalso.
    assert (Hk : In k (objects table)) by (apply In_objects; tauto).
    pose proof (find_none _ _ E k Hk) as H. simpl in H.
    now rewrite N.eqb_refl in H.
Qed.

(** *** Loops over a queryset *)

(** A loop whose body either leaves cases and history alone or records
    one change of the row it is given performs finitely many recorded
    changes. *)
Lemma loop_steps {St} (proj : St -> DB) (body : St -> Case -> St) :
  (forall st k,
     In k (cases (proj st)) -> is_deleted k = false ->
     NoDup (map id (cases (proj st))) ->
     (cases (proj (body st k)) = cases (proj st)
      /\ status_history (proj (body st k)) = status_history (proj st))
     \/ moves k (proj st) (proj (body st k))) ->
  forall qs st,
    NoDup (map id qs) ->
    (forall k, In k qs -> In k (cases (proj st)) /\ is_deleted k = false) ->
    NoDup (map id (cases (proj st))) ->
    steps (proj st) (proj (fold_left body qs st)).
Proof.
  intros Hbody qs. induction qs as [|k qs IH]; intros st Hqs Hall Hnd; simpl.
  - apply steps_refl.
  - inversion Hqs as [|? ? Hk Hqs']; subst.
    destruct (Hall k (or_introl eq_refl)) as [Hin Hlive].
    destruct (Hbody st k Hin Hlive Hnd) as [[Hc Hh]|Hm].
    + eapply steps_trans; [apply steps_same; eassumption|].
      apply IH; [exact Hqs'| |now rewrite Hc].
      intros k' Hk'. rewrite Hc. apply Hall. now right.
    + eapply steps_next; [apply atomic_moves with (c := k); exact Hm|].
      destruct Hm as [c' h ? ? Hid ? Hcases].
      apply IH; [exact Hqs'| |now rewrite Hcases, map_id_put].
      intros k' Hk'. destruct (Hall k' (or_intror Hk')) as [Hin2 Hlive2].
      split; [|exact Hlive2]. rewrite Hcases. apply In_put_other; [exact Hin2|].
      rewrite Hid. intros E. apply Hk. rewrite <- E. now apply in_map.
Qed.

(** *** The admin actions and the sweep as loops of recorded changes *)

Definition tables (st : CaseAdmin.LoopState) : DB := fst (fst st).

Lemma force_escalate_body_ok (u : User) (now : datetime)
  (st : CaseAdmin.LoopState) (k : Case) :
  In k (cases (tables st)) -> is_deleted k = false ->
  (cases (tables (CaseAdmin.force_escalate_body u now st k)) = cases (tables st)
   /\ status_history (tables (CaseAdmin.force_escalate_body u now st k))
      = status_history (tables st))
  \/ moves k (tables st) (tables (CaseAdmin.force_escalate_body u now st k)).
Proof.
  destruct st as [[db e] n]. unfold tables. simpl. intros Hin Hlive.
  destruct (CaseStatus_eqb (status k) OPEN) eqn:Hs; simpl; [|now left].
  apply CaseStatus_eqb_eq in Hs.
  destruct (Z.eqb_spec (current_level k) CaseLevel.LEVEL_0) as [Hl|Hl];
    simpl; [now left|].
  right.
  eapply Moves
    with (c' := touch (assign_escalated k (current_level k - 1) now
                         (now + timedelta_hours 24)) now);
    simpl; try reflexivity; try assumption.
  - now rewrite Hs.
  - left. repeat split; assumption.
Qed.

Lemma force_close_body_ok (u : User) (now : datetime)
  (st : CaseAdmin.LoopState) (k : Case) :
  In k (cases (tables st)) -> is_deleted k = false ->
  (cases (tables (CaseAdmin.force_close_body u now st k)) = cases (tables st)
   /\ status_history (tables (CaseAdmin.force_close_body u now st k))
      = status_history (tables st))
  \/ moves k (tables st) (tables (CaseAdmin.force_close_body u now st k)).
Proof.
  destruct st as [[db e] n]. unfold tables, CaseAdmin.force_close_body.
  intros Hin Hlive.
  destruct (existsb (CaseStatus_eqb (status k)) [SOLVED; REJECTED; CLOSED])
    eqn:Hs; [now left|].
  assert (Hopen : status k = OPEN) by (destruct (status k); simpl in Hs; congruence).
  right.
  eapply Moves with (c' := touch (assign_closed k) now);
    simpl; try reflexivity; try assumption.
  - now rewrite Hopen.
  - right. unfold terminal. auto.
Qed.

Lemma queryset_rows (selected : list UUID) (db : DB) :
  NoDup (map id (cases db)) ->
  NoDup (map id (CaseAdmin.queryset selected db))
  /\ forall k, In k (CaseAdmin.queryset selected db) ->
       In k (cases db) /\ is_deleted k = false.
Proof.
  intros Hnd. unfold CaseAdmin.queryset, objects. split.
  - apply order_by_keys. now repeat apply selection_keys.
  - intros k Hk. apply In_order_by, filter_In in Hk. destruct Hk as [Hk _].
    apply filter_In in Hk. now rewrite negb_true_iff in Hk.
Qed.

Lemma force_escalate_steps (u : User) (selected : list UUID) (now : datetime)
  (db : DB) :
  NoDup (map id (cases db)) ->
  steps db (snd (CaseAdmin.force_escalate_case u selected now db)).
Proof.
  intros Hnd. destruct (queryset_rows selected db Hnd) as [Hq Hrows].
  pose proof (loop_steps tables (CaseAdmin.force_escalate_body u now)
                (fun st k Hin Hlive _ => force_escalate_body_ok u now st k Hin Hlive)
                (CaseAdmin.queryset selected db) (db, 0, 0) Hq Hrows Hnd) as H.
  unfold CaseAdmin.force_escalate_case.
  destruct (fold_left _ _ _) as [[db' e] n]. exact H.
Qed.

Lemma force_close_steps (u : User) (selected : list UUID) (now : datetime)
  (db : DB) :
  NoDup (map id (cases db)) ->
  steps db (snd (CaseAdmin.force_close_case u selected now db)).
Proof.
  intros Hnd. destruct (queryset_rows selected db Hnd) as [Hq Hrows].
  pose proof (loop_steps tables (CaseAdmin.force_close_body u now)
                (fun st k Hin Hlive _ => force_close_body_ok u now st k Hin Hlive)
                (CaseAdmin.queryset selected db) (db, 0, 0) Hq Hrows Hnd) as H.
  unfold CaseAdmin.force_close_case.
  destruct (fold_left _ _ _) as [[db' e] n]. exact H.
Qed.

Section Sweep.

Import AutoEscalateCases.

Variable can_escalate : option (Case -> bool * string).
Variable is_sla_expired : option (Case -> datetime -> bool).
Variable calculate_sla_deadline_for_level : option (Z -> datetime -> datetime).
Variable CASE_ESCALATED : option string.
Variable has_select_for_update : bool.
Variable DecimalField_saves : string -> bool.

Local Abbreviation submit := (IncidentBroadcastView.as_view DecimalField_saves).
Local Abbreviation escalate_case :=
  (_escalate_case can_escalate is_sla_expired
     calculate_sla_deadline_for_level CASE_ESCALATED).
Local Abbreviation sweep :=
  (handle can_escalate is_sla_expired
     calculate_sla_deadline_for_level CASE_ESCALATED has_select_for_update).
Local Abbreviation sweep_body :=
  (handle_body can_escalate is_sla_expired
     calculate_sla_deadline_for_level CASE_ESCALATED).

(** The row that the sweep writes for the candidate [k] going to
    [new_level] with the SLA deadline [deadline]. *)
Definition auto_escalated (k : Case) (new_level : Z) (now deadline : datetime)
  : Case :=
  {| id := id k; created_at := created_at k; updated_at := now;
     is_deleted := is_deleted k; incident := incident k;
     current_level := new_level; status := status k;
     sla_deadline := deadline;
     solved_at := solved_at k; solved_by := solved_by k;
     solution_notes := solution_notes k;
     rejected_at := rejected_at k; rejected_by := rejected_by k;
     rejection_reason := rejection_reason k;
     escalation_count := escalation_count k + 1;
     last_escalated_at := Some now |}.

(** The history row of an automatic escalation. *)
Definition auto_row (k : Case) (new_level : Z) : CaseStatusHistory :=
  {| h_case := id k; from_status := Some OPEN; to_status := OPEN;
     from_level := Some (current_level k); to_level := Some new_level;
     changed_by := None; reason := "SLA expired - auto-escalation";
     is_auto_escalation := true |}.

(** The four lookups succeed and the two checks let [k] through. *)
Definition goes_through (k : Case) (now : datetime) : Prop :=
  exists can expired calculate event,
    can_escalate = Some can /\ is_sla_expired = Some expired
    /\ calculate_sla_deadline_for_level = Some calculate
    /\ CASE_ESCALATED = Some event
    /\ fst (can k) = true /\ expired k now = true.

(** The deadline the sweep computes, if the class method is there. *)
Definition new_deadline (new_level : Z) (now : datetime) : datetime :=
  match calculate_sla_deadline_for_level with
  | Some calculate => calculate new_level now
  | None => now
  end.

(** What [_escalate_case] does with the live row [k] of a table with
    unique keys: nothing (skip, exception, dry run), or the escalation
    of [k]. *)
Lemma escalate_case_cases (k : Case) (now : datetime) (dry_run : bool) (db : DB) :
  NoDup (map id (cases db)) -> In k (cases db) -> is_deleted k = false ->
  (snd (escalate_case k now dry_run db) = db
   /\ (fst (escalate_case k now dry_run db) = Skipped
       \/ fst (escalate_case k now dry_run db) = Raised
       \/ fst (escalate_case k now dry_run db) = Escalated /\ dry_run = true))
  \/ (fst (escalate_case k now dry_run db) = Escalated
      /\ dry_run = false /\ status k = OPEN
      /\ (current_level k = 2 \/ current_level k = 1)
      /\ goes_through k now
      /\ cases (snd (escalate_case k now dry_run db))
         = put (auto_escalated k (current_level k - 1) now
                  (new_deadline (current_level k - 1) now)) (cases db)
      /\ status_history (snd (escalate_case k now dry_run db))
         = status_history db ++ [auto_row k (current_level k - 1)]).
Proof.
  intros Hnd Hin Hlive. unfold _escalate_case.
  rewrite (find_live_row k (cases db) Hnd Hin Hlive), Z.eqb_refl.
  unfold CaseLevel.LEVEL_2, CaseLevel.LEVEL_1, CaseLevel.LEVEL_0.
  change (negb true) with false. cbv iota.
  assert (Hcore : forall new_level,
    new_level = current_level k - 1 ->
    (current_level k = 2 \/ current_level k = 1) ->
    let r :=
      match can_escalate with
      | None => (Raised, db)
      | Some can =>
          if negb (fst (can k)) then (Skipped, db)
          else
            match is_sla_expired with
            | None => (Raised, db)
            | Some expired =>
                if negb (expired k now) then (Skipped, db)
                else if dry_run then (Escalated, db)
                else if negb (CaseStatus_eqb (status k) OPEN) then (Skipped, db)
                else
                  match calculate_sla_deadline_for_level with
                  | None => (Raised, db)
                  | Some calculate =>
                      match CASE_ESCALATED with
                      | None => (Raised, db)
                      | Some event =>
                          (Escalated,
                           add_audit event None (Some (id k))
                             (add_history
                                {| h_case := id k; from_status := Some OPEN;
                                   to_status := OPEN;
                                   from_level := Some (current_level k);
                                   to_level := Some new_level;
                                   changed_by := None;
                                   reason := "SLA expired - auto-escalation";
                                   is_auto_escalation := true |}
                                (set_cases
                                   (save_update_fields
                                      (assign_escalated k new_level now
                                         (calculate new_level now))
                                      now (cases db)) db)))
                      end
                  end
            end
      end in
    (snd r = db
     /\ (fst r = Skipped \/ fst r = Raised
         \/ fst r = Escalated /\ dry_run = true))
    \/ (fst r = Escalated /\ dry_run = false /\ status k = OPEN
        /\ (current_level k = 2 \/ current_level k = 1)
        /\ goes_through k now
        /\ cases (snd r)
           = put (auto_escalated k (current_level k - 1) now
                    (new_deadline (current_level k - 1) now)) (cases db)
        /\ status_history (snd r)
           = status_history db ++ [auto_row k (current_level k - 1)])).
  { intros new_level Hnew Hlvl r. subst r. unfold goes_through, new_deadline.
    destruct can_escalate as [can|]; [|left; auto].
    destruct (fst (can k)) eqn:Hcan; simpl; [|left; auto].
    destruct is_sla_expired as [expired|]; [|left; auto].
    destruct (expired k now) eqn:Hexp; simpl; [|left; auto].
    destruct dry_run; [left; auto|].
    destruct (CaseStatus_eqb (status k) OPEN) eqn:Hs; simpl; [|left; auto].
    apply CaseStatus_eqb_eq in Hs.
    destruct calculate_sla_deadline_for_level as [calculate|]; [|left; auto].
    destruct CASE_ESCALATED as [event|]; [|left; auto].
    right. split; [reflexivity|]. split; [reflexivity|].
    split; [exact Hs|]. split; [exact Hlvl|].
    split; [exists can, expired, calculate, event; auto 10|].
    split.
    - subst new_level. unfold save_update_fields. simpl.
      rewrite (map_at_key
                 (fun row =>
                    {| id := id row; created_at := created_at row;
                       updated_at := now; is_deleted := is_deleted row;
                       incident := incident row;
                       current_level := current_level k - 1;
                       status := status row;
                       sla_deadline := calculate (current_level k - 1) now;
                       solved_at := solved_at row; solved_by := solved_by row;
                       solution_notes := solution_notes row;
                       rejected_at := rejected_at row;
                       rejected_by := rejected_by row;
                       rejection_reason := rejection_reason row;
                       escalation_count := escalation_count k + 1;
                       last_escalated_at := Some now |}) k (cases db) Hnd Hin).
      reflexivity.
    - subst new_level. reflexivity. }
  destruct (Z.eqb_spec (current_level k) 2) as [E2|E2].
  - apply (Hcore 1); [lia|now left].
  - destruct (Z.eqb_spec (current_level k) 1) as [E1|E1].
    + apply (Hcore 0); [lia|now right].
    + left. auto.
Qed.

Lemma sweep_body_ok (now : datetime) (dry_run : bool) (st : DB * Summary)
  (k : Case) :
  In k (cases (fst st)) -> is_deleted k = false ->
  NoDup (map id (cases (fst st))) ->
  (cases (fst (sweep_body now dry_run st k)) = cases (fst st)
   /\ status_history (fst (sweep_body now dry_run st k))
      = status_history (fst st))
  \/ moves k (fst st) (fst (sweep_body now dry_run st k)).
Proof.
  destruct st as [db n]. simpl. intros Hin Hlive Hnd.
  unfold handle_body.
  destruct (escalate_case_cases k now dry_run db Hnd Hin Hlive)
    as [[Hsame _]|(Hout & _ & Hopen & Hlvl & _ & Hc & Hh)].
  - left. destruct (escalate_case k now dry_run db) as [[| |] db'];
      simpl in *; subst db'; auto.
  - right. destruct (escalate_case k now dry_run db) as [o db'].
    simpl in *. subst o. simpl.
    eapply Moves
      with (c' := auto_escalated k (current_level k - 1) now
                    (new_deadline (current_level k - 1) now));
      simpl; try eassumption; try reflexivity.
    + now rewrite Hopen.
    + left. repeat split; auto. lia.
Qed.

Lemma expired_cases_rows (now : datetime) (db : DB) :
  NoDup (map id (cases db)) ->
  NoDup (map id (expired_cases now db))
  /\ forall k, In k (expired_cases now db) ->
       In k (cases db) /\ is_deleted k = false.
Proof.
  intros Hnd. unfold expired_cases, objects. split.
  - apply order_by_keys. now repeat apply selection_keys.
  - intros k Hk. apply In_order_by, filter_In in Hk. destruct Hk as [Hk _].
    apply filter_In in Hk. destruct Hk as [Hk _].
    apply filter_In in Hk. now rewrite negb_true_iff in Hk.
Qed.

Lemma sweep_steps (now : datetime) (dry_run : bool) (db : DB) :
  NoDup (map id (cases db)) -> steps db (fst (sweep now dry_run db)).
Proof.
  intros Hnd. unfold handle.
  destruct has_select_for_update; [apply steps_refl|].
  destruct (expired_cases_rows now db Hnd) as [Hq Hrows].
  exact (loop_steps fst (sweep_body now dry_run)
           (sweep_body_ok now dry_run) (expired_cases now db)
           (db, mkSummary (Z.of_nat (List.length (expired_cases now db))) 0 0 0)
           Hq Hrows Hnd).
Qed.

(** *** Creation *)

Lemma fresh_not_in (keys : list UUID) : ~ In (fresh keys) keys.
Proof.
  assert (H : forall k, In k keys -> (k <= fold_right N.max 0 keys)%N).
  { induction keys as [|x keys IH]; simpl; intros k Hk; [destruct Hk|].
    destruct Hk as [->|Hk]; [lia|]. specialize (IH k Hk). lia. }
  intros Hin. specialize (H _ Hin). unfold fresh in H. lia.
Qed.

Lemma submit_effect data now user db :
  snd (submit data now user db) = db
  \/ creates db (snd (submit data now user db)).
Proof.
  unfold IncidentBroadcastView.as_view.
  destruct (dispatch_cases IncidentBroadcastView.permission_classes
              (IncidentBroadcastView.post DecimalField_saves data now) user db)
    as [E|(u & _ & E)];
    rewrite E; [now left|].
  unfold IncidentBroadcastView.post.
  destruct (truthy (strip (dict_get data "text_content" ""))); simpl;
    [|now left].
  destruct (IncidentBroadcastView.saves DecimalField_saves
              (dict_lookup data "latitude")
            && IncidentBroadcastView.saves DecimalField_saves
                 (dict_lookup data "longitude")); simpl; [|now left].
  right. eapply Creates; simpl; try reflexivity; auto.
  apply fresh_not_in.
Qed.

(** *** Operations and runs *)

(** The operations that create a case or may change its status or
    level, with their callers and inputs. *)
Inductive Op :=
| Submit (user : RequestUser) (request_data : Dict) (now : datetime)
| Solve (user : RequestUser) (case_id : UUID) (request_data : Dict)
    (now : datetime)
| Reject (user : RequestUser) (case_id : UUID) (request_data : Dict)
    (now : datetime)
| Forward (user : RequestUser) (case_id : UUID) (request_data : Dict)
    (now : datetime)
| ForceEscalate (admin : User) (selected : list UUID) (now : datetime)
| ForceClose (admin : User) (selected : list UUID) (now : datetime)
| AutoEscalate (now : datetime) (dry_run : bool).

Definition apply_op (op : Op) (db : DB) : DB :=
  match op with
  | Submit user data now => snd (submit data now user db)
  | Solve user cid data now => snd (SolveCaseView.as_view cid data now user db)
  | Reject user cid data now => snd (RejectCaseView.as_view cid data now user db)
  | Forward user cid data now =>
      snd (ForwardCaseView.as_view cid data now user db)
  | ForceEscalate admin selected now =>
      snd (CaseAdmin.force_escalate_case admin selected now db)
  | ForceClose admin selected now =>
      snd (CaseAdmin.force_close_case admin selected now db)
  | AutoEscalate now dry_run => fst (sweep now dry_run db)
  end.

Definition run (ops : list Op) (db : DB) : DB :=
  fold_left (fun db op => apply_op op db) ops db.

Definition empty : DB := mkDB [] [] [] [].

Lemma run_app ops1 ops2 db : run (ops1 ++ ops2) db = run ops2 (run ops1 db).
Proof. apply fold_left_app. Qed.

Lemma apply_op_steps (op : Op) (db : DB) :
  NoDup (map id (cases db)) -> steps db (apply_op op db).
Proof.
  intros Hnd. destruct op; simpl.
  - destruct (submit_effect request_data now user db) as [->|H];
      [apply steps_refl|]. apply steps_one. now apply atomic_creates.
  - eapply nothing_or_moves_steps. apply solve_effect.
  - eapply nothing_or_moves_steps. apply reject_effect.
  - eapply nothing_or_moves_steps. apply forward_effect.
  - now apply force_escalate_steps.
  - now apply force_close_steps.
  - now apply sweep_steps.
Qed.

End Sweep.

(** *** The invariant of the case tables *)

(** The levels recorded in [to_level] by the history rows of a case, in
    insertion order. *)
Definition recorded_levels (cid : UUID) (hist : list CaseStatusHistory) : list Z :=
  flat_map (fun h => match to_level h with Some l => [l] | None => [] end)
    (filter (fun h => N.eqb (h_case h) cid) hist).

(** What a history row may say about levels: the initial row introduces
    level 2; a row with two different levels goes one down from a level
    above 0 and leaves the status OPEN. *)
Definition row_ok (h : CaseStatusHistory) : Prop :=
  match from_level h, to_level h with
  | Some a, Some b =>
      b = a \/ (b = a - 1 /\ 0 < a
                /\ from_status h = Some OPEN /\ to_status h = OPEN)
  | None, Some b => b = 2 /\ from_status h = None
  | _, None => True
  end.

Record Inv (db : DB) : Prop := {
  inv_keys : NoDup (map id (cases db));
  inv_fk : forall h, In h (status_history db) ->
             In (h_case h) (map id (cases db));
  inv_levels : forall c, In c (cases db) -> 0 <= current_level c <= 2;
  inv_bound : forall c, In c (cases db) ->
                Forall (fun l => current_level c <= l)
                  (recorded_levels (id c) (status_history db));
  inv_sorted : forall c, In c (cases db) ->
                 StronglySorted (fun a b => b <= a)
                   (recorded_levels (id c) (status_history db));
  inv_rows : forall h, In h (status_history db) -> row_ok h
}.

Lemma recorded_levels_snoc cid hist h :
  recorded_levels cid (hist ++ [h])
  = recorded_levels cid hist
    ++ (if N.eqb (h_case h) cid
        then match to_level h with Some l => [l] | None => [] end
        else []).
Proof.
  unfold recorded_levels. rewrite filter_app, flat_map_app. simpl.
  destruct (N.eqb (h_case h) cid); simpl; now rewrite ?app_nil_r.
Qed.

Lemma StronglySorted_snoc {A} (R : A -> A -> Prop) (l : list A) (x : A) :
  StronglySorted R l -> Forall (fun a => R a x) l -> StronglySorted R (l ++ [x]).
Proof.
  induction l as [|a l IH]; simpl; intros Hs Hf.
  - repeat constructor.
  - inversion Hs as [|? ? Hs' Ha]; subst. inversion Hf as [|? ? Hax Hf']; subst.
    constructor; [now apply IH|].
    apply Forall_app. split; [exact Ha|]. now constructor.
Qed.

Lemma StronglySorted_before {A} (R : A -> A -> Prop) (l1 l2 l3 : list A) (a b : A) :
  StronglySorted R (l1 ++ a :: l2 ++ b :: l3) -> R a b.
Proof.
  induction l1 as [|x l1 IH]; simpl; intros H.
  - inversion H as [|? ? _ Hf]; subst. rewrite Forall_forall in Hf.
    apply Hf. apply in_or_app. right. now left.
  - inversion H; subst. now apply IH.
Qed.

Lemma NoDup_snoc {A} (l : list A) (x : A) :
  NoDup l -> ~ In x l -> NoDup (l ++ [x]).
Proof.
  induction l as [|a l IH]; simpl; intros Hnd Hx.
  - repeat constructor. tauto.
  - inversion Hnd as [|? ? Ha Hnd']; subst. constructor.
    + rewrite in_app_iff. simpl. intuition congruence.
    + apply IH; tauto.
Qed.

Lemma no_rows_no_levels cid hist :
  (forall h, In h hist -> h_case h <> cid) -> recorded_levels cid hist = [].
Proof.
  intros H. unfold recorded_levels.
  replace (filter (fun h => N.eqb (h_case h) cid) hist) with (@nil CaseStatusHistory);
    [reflexivity|].
  symmetry. induction hist as [|h hist IH]; [reflexivity|]. simpl.
  rewrite (proj2 (N.eqb_neq _ _) (H h (or_introl eq_refl))).
  apply IH. intros h' Hh'. apply H. now right.
Qed.

(** A recorded change keeps the invariant. *)
Lemma Inv_moves c db db' : Inv db -> moves c db db' -> Inv db'.
Proof.
  intros [Hkeys Hfk Hlv Hbound Hsorted Hrows]
         [c' h Hin Hlive Hid Hlive' Hcases Hhist Hrow Hopen Hfrom Hto Hkind].
  pose proof (Hlv c Hin) as Hc. pose proof (Hbound c Hin) as Hcb.
  assert (Hlow : current_level c' <= current_level c)
    by (destruct Hkind as [(_ & _ & E & _)|(_ & E & _)]; lia).
  assert (Hnew : forall l, to_level h = Some l ->
                   current_level c' <= l /\ l <= current_level c).
  { intros l Hl.
    destruct Hkind as [(_ & _ & E & _ & Et)|(_ & E & [(_ & Et)|(_ & Et)])];
      rewrite Et in Hl; inversion Hl; subst; lia. }
  split; rewrite ?Hcases, ?Hhist.
  - now rewrite map_id_put.
  - rewrite map_id_put. intros h' Hh'. apply in_app_iff in Hh'.
    destruct Hh' as [Hh'|[<-|[]]]; [now apply Hfk|].
    rewrite Hrow. now apply in_map.
  - intros r Hr. apply In_put in Hr. destruct Hr as [->|[Hr _]]; [|now apply Hlv].
    destruct Hkind as [(_ & Hne & E & _)|(_ & E & _)]; lia.
  - intros r Hr. rewrite recorded_levels_snoc.
    apply In_put in Hr. destruct Hr as [->|[Hr Hne]].
    + rewrite Hid, Hrow, N.eqb_refl. apply Forall_app. split.
      * eapply Forall_impl; [|exact Hcb]. simpl. intros l Hl. lia.
      * destruct (to_level h) as [l|] eqn:El; constructor; [|constructor].
        now apply Hnew.
    + rewrite Hrow, <- Hid.
      rewrite (proj2 (N.eqb_neq (id c') (id r)) (fun E => Hne (eq_sym E))).
      rewrite app_nil_r. now apply Hbound.
  - intros r Hr. rewrite recorded_levels_snoc.
    apply In_put in Hr. destruct Hr as [->|[Hr Hne]].
    + rewrite Hid, Hrow, N.eqb_refl.
      destruct (to_level h) as [l|] eqn:El.
      * apply StronglySorted_snoc; [now apply Hsorted|].
        eapply Forall_impl; [|exact Hcb]. simpl. intros a Ha.
        destruct (Hnew l eq_refl). lia.
      * rewrite app_nil_r. now apply Hsorted.
    + rewrite Hrow, <- Hid.
      rewrite (proj2 (N.eqb_neq (id c') (id r)) (fun E => Hne (eq_sym E))).
      rewrite app_nil_r. now apply Hsorted.
  - intros h' Hh'. apply in_app_iff in Hh'.
    destruct Hh' as [Hh'|[<-|[]]]; [now apply Hrows|].
    unfold row_ok.
    destruct Hkind as [(Hs & Hne & E & Ef & Et)
                      |(_ & E & [(Ef & Et)|(Ef & Et)])];
      rewrite Ef, Et; auto.
    right. repeat split; try lia; congruence.
Qed.

(** The creation of a case keeps the invariant. *)
Lemma Inv_creates db db' : Inv db -> creates db db' -> Inv db'.
Proof.
  intros [Hkeys Hfk Hlv Hbound Hsorted Hrows]
         [c h Hnew Hlive Hcases Hhist Hrow Hopen Hlevel [Hfs Hfl] [Hts Htl]].
  assert (Hnone : recorded_levels (id c) (status_history db) = []).
  { apply no_rows_no_levels. intros h' Hh' E. apply Hnew.
    rewrite <- E. now apply Hfk. }
  assert (Hold : forall r, In r (cases db) -> N.eqb (h_case h) (id r) = false).
  { intros r Hr. apply N.eqb_neq. rewrite Hrow. intros E. apply Hnew.
    rewrite E. now apply in_map. }
  split; rewrite ?Hcases, ?Hhist.
  - rewrite map_app. simpl. now apply NoDup_snoc.
  - intros h' Hh'. rewrite map_app, in_app_iff. apply in_app_iff in Hh'.
    destruct Hh' as [Hh'|[<-|[]]]; [left; now apply Hfk|].
    right. simpl. auto.
  - intros r Hr. apply in_app_iff in Hr.
    destruct Hr as [Hr|[<-|[]]]; [now apply Hlv|lia].
  - intros r Hr. rewrite recorded_levels_snoc. apply in_app_iff in Hr.
    destruct Hr as [Hr|[<-|[]]].
    + rewrite (Hold r Hr), app_nil_r. now apply Hbound.
    + rewrite Hrow, N.eqb_refl, Hnone, Htl. simpl.
      constructor; [lia|constructor].
  - intros r Hr. rewrite recorded_levels_snoc. apply in_app_iff in Hr.
    destruct Hr as [Hr|[<-|[]]].
    + rewrite (Hold r Hr), app_nil_r. now apply Hsorted.
    + rewrite Hrow, N.eqb_refl, Hnone, Htl. simpl. repeat constructor.
  - intros h' Hh'. apply in_app_iff in Hh'.
    destruct Hh' as [Hh'|[<-|[]]]; [now apply Hrows|].
    unfold row_ok. rewrite Hfl, Htl. auto.
Qed.

Lemma Inv_steps db db' : Inv db -> steps db db' -> Inv db'.
Proof.
  intros HI Hs. induction Hs as [db db' Hc Hh|db db1 db2 Ha Hs IH].
  - destruct HI as [H1 H2 H3 H4 H5 H6].
    split; rewrite ?Hc, ?Hh; assumption.
  - apply IH. destruct Ha as [c Hm|Hc];
      [eapply Inv_moves|eapply Inv_creates]; eassumption.
Qed.

(** No row ever goes up: along recorded changes every case keeps its
    key and its level does not grow. *)
Definition not_above (db db' : DB) : Prop :=
  forall c, In c (cases db) ->
    exists c', In c' (cases db') /\ id c' = id c
               /\ current_level c' <= current_level c.

Lemma not_above_steps db db' : Inv db -> steps db db' -> not_above db db'.
Proof.
  intros HI Hs. induction Hs as [db db' Hc Hh|db db1 db2 Ha Hs IH]; intros c Hin.
  - exists c. rewrite Hc. repeat split; [exact Hin|lia].
  - assert (HI1 : Inv db1).
    { destruct Ha as [k Hm|Hc];
        [eapply Inv_moves|eapply Inv_creates]; eassumption. }
    assert (H1 : exists c1, In c1 (cases db1) /\ id c1 = id c
                            /\ current_level c1 <= current_level c).
    { destruct Ha as [k [c' h Hk _ Hid _ Hcases _ _ _ _ _ Hkind]
                     |[k h _ _ Hcases]].
      - destruct (N.eq_dec (id c) (id k)) as [E|E].
        + assert (Hck : c = k)
            by (eapply NoDup_key_eq; [apply (inv_keys db HI)| | |]; eassumption).
          subst k. exists c'. rewrite Hcases. repeat split.
          * unfold put. apply in_map_iff. exists c. split; [|exact Hin].
            now rewrite Hid, N.eqb_refl.
          * exact Hid.
          * destruct Hkind as [(_ & _ & E' & _)|(_ & E' & _)]; lia.
        + exists c. rewrite Hcases. repeat split; [|lia].
          apply In_put_other; [exact Hin|congruence].
      - exists c. rewrite Hcases. repeat split; [|lia].
        apply in_or_app. now left. }
    destruct H1 as (c1 & Hin1 & Hid1 & Hle1).
    destruct (IH HI1 c1 Hin1) as (c2 & Hin2 & Hid2 & Hle2).
    exists c2. repeat split; [exact Hin2|congruence|lia].
Qed.

(** *** Runs from the empty database *)

Section Runs.

Variable can_escalate : option (Case -> bool * string).
Variable is_sla_expired : option (Case -> datetime -> bool).
Variable calculate_sla_deadline_for_level : option (Z -> datetime -> datetime).
Variable CASE_ESCALATED : option string.
Variable has_select_for_update : bool.
Variable DecimalField_saves : string -> bool.

Local Abbreviation run_ops :=
  (run can_escalate is_sla_expired calculate_sla_deadline_for_level
     CASE_ESCALATED has_select_for_update DecimalField_saves).

Lemma Inv_empty : Inv empty.
Proof.
  split; simpl; try (intros ? []); constructor.
Qed.

Lemma run_steps (ops : list Op) (db : DB) :
  Inv db -> steps db (run_ops ops db) /\ Inv (run_ops ops db).
Proof.
  revert db. induction ops as [|op ops IH]; intros db HI; simpl.
  - split; [apply steps_refl|exact HI].
  - pose proof (apply_op_steps can_escalate is_sla_expired
                  calculate_sla_deadline_for_level CASE_ESCALATED
                  has_select_for_update DecimalField_saves op db
                  (inv_keys db HI)) as H1.
    pose proof (Inv_steps _ _ HI H1) as HI1.
    destruct (IH _ HI1) as [H2 HI2].
    split; [eapply steps_trans; eassumption|exact HI2].
Qed.

(** C7. Level monotonicity.  Take any sequence of operations (submit,
    solve, reject, forward, force-escalate, force-close, auto-escalation
    sweep; any callers, inputs and times) from the empty database, and
    any further such sequence after it.  The further operations amount
    to finitely many recorded single-case changes; every case present
    before them is still present with a level that is not higher; every
    history row that records two different levels records a step from a
    level above 0 to the level just below it, on a case that was OPEN and
    stays OPEN; and of two history rows of one case, the later never
    records a higher [to_level] than the earlier. *)
Theorem C7_level_monotonicity (ops1 ops2 : list Op) :
  let db1 := run_ops ops1 empty in
  let db2 := run_ops ops2 db1 in
  steps db1 db2
  /\ (forall c1, In c1 (cases db1) ->
        exists c2, In c2 (cases db2) /\ id c2 = id c1
                   /\ current_level c2 <= current_level c1)
  /\ (forall h a b,
        In h (status_history db2) ->
        from_level h = Some a -> to_level h = Some b -> a <> b ->
        from_status h = Some OPEN /\ to_status h = OPEN
        /\ 0 < a /\ b = a - 1)
  /\ (forall cid pre H1 mid H2 post l1 l2,
        history_of cid db2 = pre ++ H1 :: mid ++ H2 :: post ->
        to_level H1 = Some l1 -> to_level H2 = Some l2 -> l2 <= l1).
Proof.
  intros db1 db2.
  destruct (run_steps ops1 empty Inv_empty) as [_ HI1]. fold db1 in HI1.
  destruct (run_steps ops2 db1 HI1) as [Hs HI2]. fold db2 in Hs, HI2.
  repeat apply conj.
  - exact Hs.
  - now apply not_above_steps.
  - intros h a b Hh Hfa Htb Hne.
    pose proof (inv_rows db2 HI2 h Hh) as Hrow. unfold row_ok in Hrow.
    rewrite Hfa, Htb in Hrow. destruct Hrow as [E|(E & Ha & Hf & Ht)];
      [congruence|auto].
  - intros cid pre H1 mid H2 post l1 l2 Hdec Hl1 Hl2.
    assert (HH1 : In H1 (history_of cid db2))
      by (rewrite Hdec; apply in_or_app; right; now left).
    unfold history_of in HH1. apply filter_In in HH1.
    destruct HH1 as [HH1 Hcid]. apply N.eqb_eq in Hcid.
    pose proof (inv_fk db2 HI2 H1 HH1) as Hkey. rewrite Hcid in Hkey.
    apply in_map_iff in Hkey. destruct Hkey as (c & Hc & Hin).
    pose proof (inv_sorted db2 HI2 c Hin) as Hsorted.
    unfold recorded_levels in Hsorted. rewrite Hc in Hsorted.
    unfold history_of in Hdec. rewrite Hdec in Hsorted.
    rewrite flat_map_app in Hsorted. simpl in Hsorted.
    rewrite flat_map_app in Hsorted. simpl in Hsorted.
    rewrite Hl1, Hl2 in Hsorted. simpl in Hsorted.
    exact (StronglySorted_before _ _ _ _ _ _ Hsorted).
Qed.

(** *** Terminal stability *)

Lemma get_live_row (c : Case) (table : list Case) :
  NoDup (map id table) -> In c table -> is_deleted c = false ->
  get table (id c) = Some c.
Proof.
  intros Hnd Hin Hlive. unfold get.
  destruct (find _ (objects table)) as [r|] eqn:E.
  - apply find_some in E. destruct E as [Hr E].
    apply andb_true_iff in E. destruct E as [E _]. apply N.eqb_eq in E.
    apply In_objects in Hr. destruct Hr as [Hr _].
    now rewrite (NoDup_key_eq id table r c Hnd Hr Hin E).
  - exfalso.
    assert (Hk : In c (objects table)) by (apply In_objects; tauto).
    pose proof (find_none _ _ E c Hk) as H. simpl in H.
    now rewrite N.eqb_refl, Hlive in H.
Qed.

(** A row that is not OPEN survives every recorded change untouched, and
    so does its history. *)
Lemma closed_row_steps db db' (c : Case) :
  steps db db' ->
  NoDup (map id (cases db)) -> In c (cases db) -> status c <> OPEN ->
  NoDup (map id (cases db')) /\ In c (cases db')
  /\ history_of (id c) db' = history_of (id c) db.
Proof.
  intros Hs. induction Hs as [db db' Hc Hh|db db1 db2 Ha Hs IH];
    intros Hnd Hin Hst.
  - unfold history_of. rewrite Hc, Hh. auto.
  - assert (H1 : NoDup (map id (cases db1)) /\ In c (cases db1)
                 /\ history_of (id c) db1 = history_of (id c) db).
    { destruct Ha as [k [c' h Hk _ Hid _ Hcases Hhist Hrow Hopen]
                     |[k h Hnew _ Hcases Hhist Hrow]].
      - assert (Hne : id c <> id k).
        { intros E. apply Hst.
          now rewrite (NoDup_key_eq id (cases db) c k Hnd Hin Hk E). }
        unfold history_of. rewrite Hcases, Hhist, map_id_put, filter_app.
        simpl. rewrite Hrow.
        rewrite (proj2 (N.eqb_neq (id k) (id c)) (fun E => Hne (eq_sym E))).
        rewrite app_nil_r. repeat split; auto.
        apply In_put_other; [exact Hin|congruence].
      - assert (Hne : id k <> id c).
        { intros E. apply Hnew. rewrite E. now apply in_map. }
        unfold history_of. rewrite Hcases, Hhist, map_app, filter_app.
        simpl. rewrite Hrow, (proj2 (N.eqb_neq _ _) Hne), app_nil_r.
        repeat split; auto.
        + now apply NoDup_snoc.
        + apply in_or_app. now left. }
    destruct H1 as (Hnd1 & Hin1 & Hh1).
    destruct (IH Hnd1 Hin1 Hst) as (Hnd2 & Hin2 & Hh2).
    repeat split; auto. congruence.
Qed.

(** The loop of [force_close_case] counts every terminal row it is given
    as skipped. *)
Lemma force_close_skips (u : User) (now : datetime) (qs : list Case)
  (st : CaseAdmin.LoopState) :
  snd st <= snd (fold_left (CaseAdmin.force_close_body u now) qs st)
  /\ (forall k, In k qs -> terminal (status k) ->
        snd st < snd (fold_left (CaseAdmin.force_close_body u now) qs st)).
Proof.
  revert st. induction qs as [|k qs IH]; intros st; simpl.
  - split; [lia|intros k []].
  - destruct (IH (CaseAdmin.force_close_body u now st k)) as [Hle Hlt].
    assert (Hstep : snd st <= snd (CaseAdmin.force_close_body u now st k)
                    /\ (terminal (status k) ->
                        snd st < snd (CaseAdmin.force_close_body u now st k))).
    { destruct st as [[db e] n]. unfold CaseAdmin.force_close_body.
      destruct (existsb _ _) eqn:E; simpl.
      - split; intros; lia.
      - split; [lia|]. intros Ht. apply terminal_listed in Ht. congruence. }
    destruct Hstep as [Hle1 Hlt1]. split; [lia|].
    intros k' [->|Hk'] Ht; [specialize (Hlt1 Ht); lia|].
    specialize (Hlt k' Hk' Ht). lia.
Qed.

Lemma closed_row_run (ops : list Op) (db : DB) (c : Case) :
  NoDup (map id (cases db)) -> In c (cases db) -> status c <> OPEN ->
  NoDup (map id (cases (run_ops ops db))) /\ In c (cases (run_ops ops db))
  /\ history_of (id c) (run_ops ops db) = history_of (id c) db.
Proof.
  revert db. induction ops as [|op ops IH]; intros db Hnd Hin Hst; simpl.
  - auto.
  - pose proof (apply_op_steps can_escalate is_sla_expired
                  calculate_sla_deadline_for_level CASE_ESCALATED
                  has_select_for_update DecimalField_saves op db Hnd)
      as H1.
    destruct (closed_row_steps _ _ c H1 Hnd Hin Hst) as (Hnd1 & Hin1 & Hh1).
    destruct (IH _ Hnd1 Hin1 Hst) as (Hnd2 & Hin2 & Hh2).
    repeat split; auto. congruence.
Qed.

(** How the endpoints answer an authority when the case is terminal. *)
Lemma terminal_refused (db : DB) (cid : UUID) (c : Case) (u : User)
  (data : Dict) (now : datetime) :
  get (cases db) cid = Some c -> terminal (status c) ->
  Permissions.IsLevel1OrLevel2 (Some u) = true ->
  let refused := (mkResponse HTTP_400_BAD_REQUEST (Detail "Case is not open."), db) in
  SolveCaseView.as_view cid data now (Some u) db = refused
  /\ RejectCaseView.as_view cid data now (Some u) db = refused
  /\ ForwardCaseView.as_view cid data now (Some u) db = refused.
Proof.
  intros Hget Ht Hperm refused. apply terminal_not_open in Ht.
  assert (Hg : forallb (fun p : RequestUser -> bool => p (Some u))
                 [Permissions.IsLevel1OrLevel2] = true)
    by (unfold forallb; now rewrite Hperm).
  unfold SolveCaseView.as_view, RejectCaseView.as_view, ForwardCaseView.as_view.
  rewrite !RevokeProps.dispatch_granted by exact Hg.
  unfold SolveCaseView.post, RejectCaseView.post, ForwardCaseView.post.
  rewrite Hget, Ht. auto.
Qed.

(** C5. Terminal stability.  Let the case [c] be a live row with status
    SOLVED, REJECTED or CLOSED in a table with unique keys.  Solve, reject
    and forward requests on it by any caller that holds the authority
    permission are answered with the conflict error "Case is not open."
    and leave the database as it is; an admin force-close that selects it
    counts it as skipped and reports that with a warning; and after any
    sequence of operations whatsoever (submit, solve, reject, forward,
    force-escalate, force-close, sweep) the row is still exactly [c] and
    no history row has been added for it. *)
Theorem C5_terminal_stability (db : DB) (cid : UUID) (c : Case) :
  NoDup (map id (cases db)) ->
  get (cases db) cid = Some c -> terminal (status c) ->
  (forall (u : User) data now,
     Permissions.IsLevel1OrLevel2 (Some u) = true ->
     (ConflictError (fst (SolveCaseView.as_view cid data now (Some u) db))
      /\ snd (SolveCaseView.as_view cid data now (Some u) db) = db)
     /\ (ConflictError (fst (RejectCaseView.as_view cid data now (Some u) db))
         /\ snd (RejectCaseView.as_view cid data now (Some u) db) = db)
     /\ (ConflictError (fst (ForwardCaseView.as_view cid data now (Some u) db))
         /\ snd (ForwardCaseView.as_view cid data now (Some u) db) = db))
  /\ (forall admin selected now,
        In cid selected ->
        exists n,
          0 < n
          /\ In (CaseAdmin.mkMessage CaseAdmin.WARNING
                   ("Skipped " ++ str_of_Z n
                    ++ " case(s) (already in terminal state)."))
               (fst (CaseAdmin.force_close_case admin selected now db)))
  /\ (forall ops,
        get (cases (run_ops ops db)) cid = Some c
        /\ history_of cid (run_ops ops db) = history_of cid db).
Proof.
  intros Hnd Hget Ht.
  destruct (get_Some _ _ _ Hget) as (Hin & Hid & Hlive).
  repeat apply conj.
  - intros u data now Hperm.
    destruct (terminal_refused db cid c u data now Hget Ht Hperm)
      as (E1 & E2 & E3).
    rewrite E1, E2, E3. unfold ConflictError. simpl. auto 10.
  - intros admin selected now Hsel.
    assert (Hq : In c (CaseAdmin.queryset selected db)).
    { unfold CaseAdmin.queryset. apply In_order_by, filter_In. split.
      - apply In_objects. auto.
      - apply existsb_exists. exists cid. split; [exact Hsel|].
        apply N.eqb_eq. exact Hid. }
    destruct (force_close_skips admin now (CaseAdmin.queryset selected db)
                (db, 0, 0)) as [_ Hlt].
    specialize (Hlt c Hq Ht). simpl in Hlt.
    unfold CaseAdmin.force_close_case.
    destruct (fold_left _ _ _) as [[db' e] n]. simpl in Hlt |- *.
    exists n. split; [exact Hlt|].
    rewrite (proj2 (Z.ltb_lt 0 n) Hlt). apply in_or_app. right. now left.
  - intros ops.
    assert (Hst : status c <> OPEN)
      by (intros E; apply terminal_not_open in Ht; rewrite E in Ht; discriminate).
    destruct (closed_row_run ops db c Hnd Hin Hst) as (Hnd' & Hin' & Hh').
    rewrite <- Hid. split; [now apply get_live_row|exact Hh'].
Qed.

End Runs.

(** *** Who may act on a case *)

(** The roles [is_authority] accepts. *)
Lemma is_authority_iff (u : User) :
  is_authority u = true <->
  role u = LEVEL_0 \/ role u = LEVEL_1 \/ role u = LEVEL_2
  \/ role u = LEVEL_2_CAPTAIN.
Proof.
  unfold is_authority. destruct (role u); simpl; intuition discriminate.
Qed.

(** C10. The transition endpoints are not level-gated.  For a live OPEN
    case and a caller with any authority role (active, not revoked),
    whatever the case's level and the caller's role: solve succeeds and
    leaves the case SOLVED; reject succeeds, given the reason it
    requires, and leaves the case REJECTED; forward succeeds, given a
    level above 0, and leaves the case OPEN one level down.  No
    hypothesis relates the caller's role to the level of the case: the
    permission checks the authority role only, the endpoint the case's
    status and level only. *)
Theorem C10_not_level_gated (db : DB) (cid : UUID) (c : Case) (u : User)
  (data : Dict) (now : datetime) :
  get (cases db) cid = Some c -> status c = OPEN ->
  is_authority u = true -> is_revoked u = false ->
  Authentication.is_active u = true ->
  (let r := SolveCaseView.as_view cid data now (Some u) db in
   status_code (fst r) = HTTP_200_OK
   /\ exists c', get (cases (snd r)) cid = Some c'
                 /\ status c' = SOLVED /\ solved_by c' = Some (user_id u)
                 /\ current_level c' = current_level c)
  /\ (truthy (dict_get data "reason" "") = true ->
      let r := RejectCaseView.as_view cid data now (Some u) db in
      status_code (fst r) = HTTP_200_OK
      /\ exists c', get (cases (snd r)) cid = Some c'
                    /\ status c' = REJECTED /\ rejected_by c' = Some (user_id u)
                    /\ current_level c' = current_level c)
  /\ (0 < current_level c ->
      let r := ForwardCaseView.as_view cid data now (Some u) db in
      status_code (fst r) = HTTP_200_OK
      /\ exists c', get (cases (snd r)) cid = Some c'
                    /\ status c' = OPEN
                    /\ current_level c' = current_level c - 1).
Proof.
  intros Hget Hopen Hauth Hrev Hact.
  destruct (get_Some _ _ _ Hget) as (Hin & Hid & Hlive).
  pose proof (authority_granted u Hauth Hrev Hact) as Hg.
  unfold SolveCaseView.as_view, RejectCaseView.as_view, ForwardCaseView.as_view.
  rewrite !RevokeProps.dispatch_granted by exact Hg.
  unfold SolveCaseView.post, RejectCaseView.post, ForwardCaseView.post.
  rewrite Hget, Hopen. simpl. subst cid.
  repeat apply conj.
  - reflexivity.
  - eexists. split.
    + apply (get_save_same (cases db) c
               (assign_solved c u (dict_get data "solution_notes" "") now) now);
        [exact Hget|exact Hlive].
    + simpl. auto.
  - intros Hreason. rewrite Hreason. simpl. split; [reflexivity|].
    eexists. split.
    + apply (get_save_same (cases db) c
               (assign_rejected c u (dict_get data "reason" "") now) now);
        [exact Hget|exact Hlive].
    + simpl. auto.
  - intros Hlevel. unfold CaseLevel.LEVEL_0.
    destruct (Z.leb_spec (current_level c) 0); [lia|]. simpl.
    split; [reflexivity|].
    eexists. split.
    + apply (get_save_same (cases db) c
               (assign_escalated c (current_level c - 1) now
                  (now + timedelta_hours 24)) now);
        [exact Hget|exact Hlive].
    + simpl. auto.
Qed.

End LifecycleProps.

(** ** The auto-escalation sweep (auto_escalate_cases.py) *)

Module SweepProps.

Import CaseProps LifecycleProps AutoEscalateCases.

(** The rows the query of the sweep selects. *)
Lemma In_expired_cases (t : datetime) (db : DB) (k : Case) :
  In k (expired_cases t db) <->
  In k (cases db) /\ is_deleted k = false /\ status k = OPEN
  /\ sla_deadline k < t /\ current_level k <> 0.
Proof.
  unfold expired_cases, CaseLevel.LEVEL_0.
  rewrite In_order_by, !filter_In, In_objects, andb_true_iff, negb_true_iff,
    CaseStatus_eqb_eq, Z.ltb_lt, Z.eqb_neq.
  tauto.
Qed.

(** The cases the claim calls eligible at time [t]: live, OPEN, SLA
    deadline before [t], level above 0. *)
Definition eligible (t : datetime) (c : Case) : bool :=
  negb (is_deleted c) && CaseStatus_eqb (status c) OPEN
  && (sla_deadline c <? t) && (0 <? current_level c).

(** The command over the classes of the sources, on a database with or
    without [select_for_update]. *)
Definition shipped_sweep (has_select_for_update : bool)
  : datetime -> bool -> DB -> DB * Exit :=
  handle Case_can_escalate Case_is_sla_expired
    Case_calculate_sla_deadline_for_level AuditEventType_CASE_ESCALATED
    has_select_for_update.

(** Without [Case.can_escalate] no call of [_escalate_case] writes. *)
Lemma escalate_case_without_method (k : Case) (t : datetime) (dry_run : bool)
  (db : DB) :
  _escalate_case Case_can_escalate Case_is_sla_expired
    Case_calculate_sla_deadline_for_level AuditEventType_CASE_ESCALATED
    k t dry_run db
  = (if (current_level k =? 2) || (current_level k =? 1)
     then Raised else Skipped, db).
Proof.
  unfold _escalate_case, Case_can_escalate, CaseLevel.LEVEL_2,
    CaseLevel.LEVEL_1.
  destruct (current_level k =? 2); [reflexivity|].
  destruct (current_level k =? 1); reflexivity.
Qed.

Lemma loop_without_method (t : datetime) (dry_run : bool) (qs : list Case) :
  forall st,
    fst (fold_left
           (handle_body Case_can_escalate Case_is_sla_expired
              Case_calculate_sla_deadline_for_level
              AuditEventType_CASE_ESCALATED t dry_run) qs st)
    = fst st
    /\ escalated_count
         (snd (fold_left
                 (handle_body Case_can_escalate Case_is_sla_expired
                    Case_calculate_sla_deadline_for_level
                    AuditEventType_CASE_ESCALATED t dry_run) qs st))
       = escalated_count (snd st).
Proof.
  induction qs as [|k qs IH]; intros st; [split; reflexivity|].
  simpl. destruct (IH (handle_body Case_can_escalate Case_is_sla_expired
                         Case_calculate_sla_deadline_for_level
                         AuditEventType_CASE_ESCALATED t dry_run st k))
    as [E1 E2].
  rewrite E1, E2. destruct st as [db n]. unfold handle_body.
  rewrite escalate_case_without_method.
  destruct ((current_level k =? 2) || (current_level k =? 1));
    split; reflexivity.
Qed.

(** *** The sweep with the model methods the specification describes *)

(** Modelled from the spec: [Case.can_escalate()], which [class Case] of
    reports/models.py does not define; the transition table gives
    auto-escalation the precondition "status==OPEN, level>0". *)
Definition can_escalate_model (c : Case) : bool * string :=
  if negb (CaseStatus_eqb (status c) OPEN)
  then (false, "Case is not open"%string)
  else if current_level c <=? 0
       then (false, "Case is at the highest level"%string)
       else (true, EmptyString).

(** Modelled from the spec: [Case.is_sla_expired(now)], not defined
    either; the sweep's query is "sla_deadline < now". *)
Definition is_sla_expired_model (c : Case) (now : datetime) : bool :=
  sla_deadline c <? now.

(** Modelled from the spec: [Case.calculate_sla_deadline_for_level(level,
    now)], not defined either; the effect of an escalation is "SLA reset
    to now+24h". *)
Definition calculate_sla_deadline_for_level_model (lvl : Z) (now : datetime)
  : datetime :=
  now + timedelta_hours 24.

(** An untouched OPEN level-2 case whose deadline passed a minute ago,
    and a case that was solved in time. *)
Definition overdue : Case :=
  {| id := 1%N; created_at := 0; updated_at := 0; is_deleted := false;
     incident := 1%N; current_level := 2; status := OPEN;
     sla_deadline := 86400; solved_at := None; solved_by := None;
     solution_notes := ""; rejected_at := None; rejected_by := None;
     rejection_reason := ""; escalation_count := 0;
     last_escalated_at := None |}.

Definition solved_in_time : Case :=
  {| id := 2%N; created_at := 0; updated_at := 86340; is_deleted := false;
     incident := 2%N; current_level := 2; status := SOLVED;
     sla_deadline := 86400; solved_at := Some 86340; solved_by := Some 7%N;
     solution_notes := "fixed"; rejected_at := None; rejected_by := None;
     rejection_reason := ""; escalation_count := 0;
     last_escalated_at := None |}.

Definition desk : DB := mkDB [] [overdue; solved_in_time] [] [].

(** The command with the model methods, on a database without
    [select_for_update]. *)
Definition model_sweep : datetime -> bool -> DB -> DB * Exit :=
  handle (Some can_escalate_model) (Some is_sla_expired_model)
    (Some calculate_sla_deadline_for_level_model) (Some "case.escalated"%string)
    false.

(** The two scenarios of the specification, run with the model methods:
    the overdue case goes one level down once, the solved case stays,
    and a second sweep at the same time finds nothing. *)
Example sweep_scenarios :
  map (fun c => (id c, status c, current_level c, escalation_count c,
                 sla_deadline c))
    (cases (fst (model_sweep 86460 false desk)))
  = [(1%N, OPEN, 1, 1, 172860); (2%N, SOLVED, 2, 0, 86400)]
  /\ map (fun h => (h_case h, from_level h, to_level h, changed_by h,
                    is_auto_escalation h))
       (status_history (fst (model_sweep 86460 false desk)))
     = [(1%N, Some 2, Some 1, None, true)]
  /\ snd (model_sweep 86460 false desk) = Completed (mkSummary 1 1 0 0)
  /\ model_sweep 86460 false (fst (model_sweep 86460 false desk))
     = (fst (model_sweep 86460 false desk), Completed (mkSummary 0 0 0 0)).
Proof. repeat split. Qed.

(** C2. The auto-escalation sweep.  The claim has the sweep at [t] take
    every case that is OPEN with [sla_deadline < t] and a level above 0
    one level down, once.  The command is written to do so, and with the
    attributes it looks up supplied it does so in the scenarios of the
    specification ([sweep_scenarios]).  With the classes as the sources
    have them it escalates nothing: [Case] has no [can_escalate], so
    whatever the time, the mode and the tables, a run leaves the database
    as it is and counts no escalation; and on a database that has
    [select_for_update], whatever the attributes, the command ends in
    TransactionManagementError before it handles a candidate.  The
    overdue case of [desk] is eligible at 86460; the sweep finds it and
    counts it as an error where [select_for_update] is ignored, and
    stops with the exception where it is not; the case stays at level 2
    with no history row either way. *)
Theorem C2_sweep_escalates_nothing :
  (In overdue (cases desk) /\ eligible 86460 overdue = true
   /\ expired_cases 86460 desk = [overdue])
  /\ shipped_sweep false 86460 false desk
     = (desk, Completed (mkSummary 1 0 0 1))
  /\ shipped_sweep true 86460 false desk = (desk, TransactionManagementError)
  /\ (forall has_select_for_update t dry_run db,
        fst (shipped_sweep has_select_for_update t dry_run db) = db
        /\ forall n,
             snd (shipped_sweep has_select_for_update t dry_run db)
             = Completed n -> escalated_count n = 0)
  /\ (forall can_escalate is_sla_expired calculate_sla_deadline_for_level
             CASE_ESCALATED t dry_run db,
        handle can_escalate is_sla_expired calculate_sla_deadline_for_level
          CASE_ESCALATED true t dry_run db
        = (db, TransactionManagementError)).
Proof.
  split; [repeat split; simpl; auto|].
  split; [reflexivity|]. split; [reflexivity|]. split; [|reflexivity].
  intros has_select_for_update t dry_run db.
  unfold shipped_sweep, handle.
  destruct has_select_for_update; [split; [reflexivity|discriminate]|].
  destruct (loop_without_method t dry_run (expired_cases t db)
              (db, mkSummary (Z.of_nat (List.length (expired_cases t db)))
                     0 0 0)) as [E1 E2].
  split; [exact E1|].
  intros n En. cbn [snd] in En. inversion En; subst n. exact E2.
Qed.

End SweepProps.

(** ** The scenarios of the specification, and instances of the theorems *)

Module Scenarios.

Import CaseProps LifecycleProps SweepProps.

Definition reporter : User :=
  mkUser 3%N "JM-0A1B2C3D4E5F" LEVEL_3 ACTIVE true true false None None "".

Definition officer : User :=
  mkUser 7%N "officer@police.example" LEVEL_2 ACTIVE false true false
    None None "".

Definition senior : User :=
  mkUser 8%N "senior@police.example" LEVEL_1 ACTIVE false true false
    None None "".

(** A decimal column that takes the two coordinates of the docstring of
    [IncidentBroadcastView] and no other text. *)
Definition docstring_coordinates (text : string) : bool :=
  existsb (String.eqb text) ["12.9716"; "77.5946"]%string.

(** The database after the citizen's submission at time 1000. *)
Definition submitted : DB :=
  snd (IncidentBroadcastView.as_view docstring_coordinates
         [("text_content", "pothole on Main St"); ("category", "infrastructure")]%string
         1000 (Some reporter) empty).

(** The columns of a history row that record the transition. *)
Definition recorded (h : CaseStatusHistory)
  : UUID * option CaseStatus * CaseStatus * option Z * option Z :=
  (h_case h, from_status h, to_status h, from_level h, to_level h).

Example submission_creates_case :
  map (fun c => (id c, status c, current_level c, sla_deadline c)) (cases submitted)
  = [(1%N, OPEN, 2, 1000 + 24 * 3600)]
  /\ map recorded (status_history submitted) = [(1%N, None, OPEN, None, Some 2)].
Proof. split; reflexivity. Qed.

(** The database after the officer forwards the case at time 5000. *)
Definition forwarded : DB :=
  snd (ForwardCaseView.as_view 1%N [("reason", "needs senior review")]%string
         5000 (Some officer) submitted).

Example forward_moves_case_to_level_1 :
  map (fun c => (current_level c, escalation_count c, sla_deadline c))
    (cases forwarded) = [(1, 1, 5000 + 24 * 3600)]
  /\ CaseListView.get_queryset None (Some officer) forwarded = []
  /\ map id (CaseListView.get_queryset None (Some senior) forwarded) = [1%N].
Proof. repeat split. Qed.

(** Every recorded change and every creation appends one history row. *)
Lemma atomic_one_row (db db' : DB) :
  atomic db db' ->
  List.length (status_history db') = S (List.length (status_history db)).
Proof.
  intros [c [c' h _ _ _ _ _ Hh]|[c h _ _ _ Hh]];
    rewrite Hh, length_app; simpl; lia.
Qed.

(** C6. Every status- or level-changing operation is to insert one
    history row that captures the status and the level before and after.
    The rows that [SolveCaseView.post] and [RejectCaseView.post] insert
    carry no level at all: on the level-2 case just submitted, the solve
    row and the reject row have [from_level] and [to_level] empty, where
    the row of the admin force-close, also a change of status alone,
    records level 2 on both sides. *)
Theorem C6_solve_and_reject_rows_record_no_level :
  map recorded
    (status_history
       (snd (SolveCaseView.as_view 1%N [("solution_notes", "filled")]%string
               2000 (Some officer) submitted)))
  = [(1%N, None, OPEN, None, Some 2); (1%N, Some OPEN, SOLVED, None, None)]
  /\ map recorded
       (status_history
          (snd (RejectCaseView.as_view 1%N [("reason", "duplicate")]%string
                  2000 (Some officer) submitted)))
     = [(1%N, None, OPEN, None, Some 2); (1%N, Some OPEN, REJECTED, None, None)]
  /\ map recorded
       (status_history
          (snd (CaseAdmin.force_close_case senior [1%N] 2000 submitted)))
     = [(1%N, None, OPEN, None, Some 2);
        (1%N, Some OPEN, CLOSED, Some 2, Some 2)].
Proof. repeat split. Qed.

Lemma C5_terminal_stability_witness :
  ConflictError
    (fst (SolveCaseView.as_view 2%N [("solution_notes", "again")]%string 90000
            (Some officer) desk))
  /\ snd (ForwardCaseView.as_view 2%N [] 90000 (Some officer) desk) = desk
  /\ get (cases (run (Some can_escalate_model) (Some is_sla_expired_model)
                   (Some calculate_sla_deadline_for_level_model)
                   (Some "case.escalated"%string) false docstring_coordinates
                   [ForceEscalate senior [1%N; 2%N] 90000;
                    ForceClose senior [1%N; 2%N] 90001;
                    AutoEscalate 200000 false]
                   desk)) 2%N
     = Some solved_in_time.
Proof.
  assert (Hnd : NoDup (map id (cases desk))).
  { simpl. repeat constructor; simpl; intuition discriminate. }
  assert (Ht : terminal (status solved_in_time)) by (left; reflexivity).
  pose proof (C5_terminal_stability (Some can_escalate_model)
                (Some is_sla_expired_model)
                (Some calculate_sla_deadline_for_level_model)
                (Some "case.escalated"%string) false docstring_coordinates
                desk 2%N solved_in_time Hnd eq_refl Ht) as (Hviews & _ & Hrun).
  split; [|split].
  - exact (proj1 (proj1 (Hviews officer _ 90000 eq_refl))).
  - exact (proj2 (proj2 (proj2 (Hviews officer [] 90000 eq_refl)))).
  - exact (proj1 (Hrun _)).
Defined.

(** A level-2 officer and a case that has moved on to level 1: the
    officer's list does not show it, the officer's solve request goes
    through. *)
Lemma C10_not_level_gated_witness :
  CaseListView.get_queryset None (Some officer) forwarded = []
  /\ status_code
       (fst (SolveCaseView.as_view 1%N [("solution_notes", "done")]%string 6000
               (Some officer) forwarded)) = HTTP_200_OK.
Proof.
  split; [reflexivity|].
  exact (proj1 (proj1
           (C10_not_level_gated forwarded 1%N
              (touch (assign_escalated
                        {| id := 1%N; created_at := 1000; updated_at := 1000;
                           is_deleted := false; incident := 1%N;
                           current_level := 2; status := OPEN;
                           sla_deadline := 1000 + timedelta_hours 24;
                           solved_at := None; solved_by := None;
                           solution_notes := ""; rejected_at := None;
                           rejected_by := None; rejection_reason := "";
                           escalation_count := 0; last_escalated_at := None |}
                        1 5000 (5000 + timedelta_hours 24)) 5000)
              officer [("solution_notes", "done")]%string 6000
              eq_refl eq_refl eq_refl eq_refl eq_refl))).
Defined.

End Scenarios.

(** ** Properties of device-bound authentication *)

Module DeviceBindingProps.

Import DeviceSessions AuthViews Backends SessionViews.



(** The columns of a session that say whose it is, for which device, and
    whether it counts. *)
Definition binding (s : DeviceSession) : UUID * UUID * bool * bool * string :=
  (id s, user s, is_deleted s, is_active s, device_fingerprint_hash s).

Lemma touch_active_binding pk now ip table :
  map binding (touch_active pk now ip table) = map binding table.
Proof.
  unfold touch_active. rewrite map_map. apply map_ext. intros s.
  destruct (is_active_of pk s); reflexivity.
Qed.

Lemma touch_active_selects pk now ip table :
  map (fun s => (id s, last_activity_at s, last_activity_ip s))
    (filter (is_active_of pk) (touch_active pk now ip table))
  = map (fun s => (id s, now, Some ip)) (filter (is_active_of pk) table).
Proof.
  unfold touch_active. induction table as [|s table IH]; [reflexivity|].
  simpl. destruct (is_active_of pk s) eqn:E.
  - unfold is_active_of at 1. simpl. unfold is_active_of in E. rewrite E.
    simpl. now rewrite IH.
  - rewrite E. exact IH.
Qed.

Section Backend.

Variable Token : Type.
Variable jwt_authenticate : Request -> Outcome Token.
Variable sha256_hexdigest : string -> string.

Local Abbreviation authenticate_request :=
  (authenticate Token jwt_authenticate sha256_hexdigest).


Lemma active_user_passes (u : User) (request : Request) (db : AuthDB) :
  Authentication.status u = ACTIVE -> Authentication.is_active u = true ->
  _check_user_status Token u request db = inr db.
Proof.
  intros Hs Ha. unfold _check_user_status, is_revoked. now rewrite Hs, Ha.
Qed.


(** X2. Authorities are not device-bound.  For an active user who is not
    a citizen, every request that carries a valid token is authenticated,
    whatever its headers and whatever sessions are stored, and the tables
    stay as they are. *)
Theorem authority_skips_device_binding (request : Request) (now : datetime)
  (db : AuthDB) (u : User) (validated_token : Token) :
  jwt_authenticate request = Authenticated u validated_token ->
  is_janmitra u = false ->
  Authentication.status u = ACTIVE -> Authentication.is_active u = true ->
  authenticate_request request now db = (Authenticated u validated_token, db).
Proof.
  intros Hjwt Hjm Hs Ha. unfold authenticate.
  rewrite Hjwt, (active_user_passes u request db Hs Ha), Hjm.
  unfold _update_activity. now rewrite Hjm.
Qed.

(** X3. Authentication never decides who is logged in: whatever the
    request and its outcome, the users are unchanged and every session
    keeps its key, owner, deletion flag, activity flag and fingerprint
    hash; a successful citizen request stamps the time and the client
    address on the user's active sessions and nothing else. *)
Theorem authenticate_keeps_bindings (request : Request) (now : datetime)
  (db : AuthDB) :
  let result := authenticate_request request now db in
  users (snd result) = users db
  /\ map binding (sessions (snd result)) = map binding (sessions db)
  /\ (forall u tok,
        fst result = Authenticated u tok -> is_janmitra u = true ->
        map (fun s => (id s, last_activity_at s, last_activity_ip s))
          (filter (is_active_of (user_id u)) (sessions (snd result)))
        = map (fun s => (id s, now, Some (_get_ip request)))
            (filter (is_active_of (user_id u)) (sessions db))).
Proof.
  unfold authenticate.
  destruct (jwt_authenticate request) as [|u tok|d c|d c|e]; simpl;
    try (repeat split; intros; discriminate).
  unfold _check_user_status.
  destruct (is_revoked u); simpl; [repeat split; intros; discriminate|].
  destruct (UserStatus_eqb (Authentication.status u) SUSPENDED); simpl;
    [repeat split; intros; discriminate|].
  destruct (negb (Authentication.is_active u)); simpl;
    [repeat split; intros; discriminate|].
  unfold _update_activity.
  destruct (is_janmitra u) eqn:Hjm.
  - unfold _validate_device_binding.
    destruct (negb (truthy _)); simpl; [repeat split; intros; discriminate|].
    destruct (filter (is_active_of (user_id u)) (sessions db))
      as [|s [|s' rest]] eqn:Ef; simpl;
      try (repeat split; intros; discriminate).
    destruct (negb (verify_fingerprint sha256_hexdigest s _)); simpl;
      [repeat split; intros; discriminate|].
    repeat split.
    + apply touch_active_binding.
    + intros u' tok' E _. inversion E; subst u' tok'.
      rewrite touch_active_selects, Ef. reflexivity.
  - repeat split. intros u' tok' E Hjm'. inversion E; subst. congruence.
Qed.

(** What a successful revocation wrote. *)
Lemma revoke_success_inv (target_id : UUID) (request_data : Dict)
  (now : datetime) (actor : User) (db : AuthDB) :
  status_code
    (fst (RevokeUserView.as_view target_id request_data now (Some actor) db))
  = HTTP_200_OK ->
  exists target why,
    get_user (users db) target_id = Some target
    /\ user_id target = target_id /\ user_is_deleted target = false
    /\ snd (RevokeUserView.as_view target_id request_data now (Some actor) db)
       = mkAuthDB (users (revoke_access target actor why now db))
           (sessions (revoke_access target actor why now db))
           (Audit.log "user.revoked" (Some (user_id actor))
              (Some (user_id target)) true (audit_log db)).
Proof.
  unfold RevokeUserView.as_view, dispatch.
  destruct (check_permissions RevokeUserView.permission_classes (Some actor))
    as [denied|] eqn:Hperm.
  - unfold check_permissions in Hperm.
    destruct (forallb _ _); [discriminate|]. simpl in Hperm.
    inversion Hperm; subst. simpl. discriminate.
  - unfold RevokeUserView.post.
    destruct (negb (truthy _)); simpl; [discriminate|].
    destruct (get_user (users db) target_id) as [target|] eqn:Hget;
      simpl; [|discriminate].
    destruct (negb (RevokeUserView.check_object_permissions actor target));
      simpl; [discriminate|].
    destruct (is_revoked target); simpl; [discriminate|].
    intros _. exists target, (strip (dict_get request_data "reason" "")).
    unfold get_user in Hget. apply find_some in Hget.
    destruct Hget as [Hin Hid]. apply filter_In in Hin.
    destruct Hin as [_ Hlive]. apply N.eqb_eq in Hid.
    apply negb_true_iff in Hlive. auto.
Qed.

(** X4. Revocation locks the target out.  After a successful
    [RevokeUserView] call the stored row of the target is REVOKED and
    inactive, none of its sessions is active, every request with a valid
    token of the target is refused, whatever the device and the time, by
    the base class with [user_inactive], before the status check of the
    backend is reached and with nothing written, and the role
    permissions of the API refuse the target. *)
Theorem revoked_target_locked_out (target_id : UUID) (request_data : Dict)
  (t : datetime) (actor : User) (db : AuthDB) :
  status_code
    (fst (RevokeUserView.as_view target_id request_data t (Some actor) db))
  = HTTP_200_OK ->
  let db' :=
    snd (RevokeUserView.as_view target_id request_data t (Some actor) db) in
  exists target',
    get_user (users db') target_id = Some target'
    /\ Authentication.status target' = REVOKED
    /\ Authentication.is_active target' = false
    /\ revoked_by target' = Some (user_id actor)
    /\ filter (is_active_of target_id) (sessions db') = []
    /\ (forall (get_validated_token : Request -> Bearer Token) request now
               validated_token,
          get_validated_token request = Valid validated_token target_id ->
          DeviceBoundJWTAuthentication get_validated_token sha256_hexdigest
            request now db'
          = (AuthenticationFailed "User is inactive" "user_inactive", db'))
    /\ Permissions.IsLevel1 (Some target') = false
    /\ Permissions.IsLevel1OrLevel2 (Some target') = false
    /\ RolePermissions.IsJanMitra (Some target') = false
    /\ RolePermissions.IsJanMitraOrAuthority (Some target') = false.
Proof.
  intros Hok db'.
  destruct (revoke_success_inv target_id request_data t actor db Hok)
    as (target & why & Hget & Hid & Hlive & Hdb).
  subst db'. rewrite Hdb.
  assert (Hrow : get_user (users (revoke_access target actor why t db))
                   target_id
                 = Some {| user_id := user_id target;
                           identifier := identifier target;
                           role := role target;
                           Authentication.status := REVOKED;
                           is_anonymous := is_anonymous target;
                           Authentication.is_active := false;
                           user_is_deleted := user_is_deleted target;
                           revoked_at := Some t;
                           revoked_by := Some (user_id actor);
                           revocation_reason := why |}).
  { simpl. eapply BackendProps.get_user_save_user;
      [exact Hget|simpl; exact Hid|simpl; exact Hlive]. }
  eexists. split; [exact Hrow|].
  do 3 (split; [reflexivity|]).
  split.
  { simpl. rewrite Hid. apply RevokeProps.invalidate_active_none_left. }
  split; [|repeat split].
  intros get_validated_token request now tok Htoken.
  unfold DeviceBoundJWTAuthentication, authenticate,
    JWTAuthentication.authenticate, JWTAuthentication.get_user.
  rewrite Htoken. cbn [users] in Hrow |- *. rewrite Hrow. reflexivity.
Qed.

End Backend.

(** X4 at work: the senior authority revokes the citizen, whose phone
    then presents the token with the right fingerprint. *)
Lemma revoked_target_locked_out_witness :
  let revoked :=
    snd (RevokeUserView.as_view 3%N [("reason", "abuse")]%string 70
           (Some RevokeProps.senior) RevokeProps.office) in
  (exists target',
     get_user (users revoked) 3%N = Some target'
     /\ Authentication.status target' = REVOKED)
  /\ DeviceBoundJWTAuthentication (fun _ => Valid tt 3%N) (fun s => s)
       (mkRequest [("HTTP_X_DEVICE_FINGERPRINT", "hash")]%string) 80 revoked
     = (AuthenticationFailed "User is inactive" "user_inactive", revoked).
Proof.
  cbv zeta.
  destruct (revoked_target_locked_out unit (fun s => s) 3%N
              [("reason", "abuse")]%string 70
              RevokeProps.senior RevokeProps.office eq_refl)
    as (target' & H1 & H2 & _ & _ & _ & H3 & _).
  split.
  - exists target'. split; assumption.
  - exact (H3 (fun _ => Valid tt 3%N)
             (mkRequest [("HTTP_X_DEVICE_FINGERPRINT", "hash")]%string) 80 tt
             eq_refl).
Defined.

(** An active citizen on the device called pixel-7. *)
Definition citizen : User :=
  mkUser 9%N "JM-0123456789AB" LEVEL_3 ACTIVE true true false None None "".



Lemma authority_skips_device_binding_witness :
  authenticate unit (fun _ => Authenticated RevokeProps.senior tt) (fun s => s)
    (mkRequest []) 20 RevokeProps.office
  = (Authenticated RevokeProps.senior tt, RevokeProps.office).
Proof.
  exact (authority_skips_device_binding unit
           (fun _ => Authenticated RevokeProps.senior tt) (fun s => s)
           (mkRequest []) 20 RevokeProps.office RevokeProps.senior tt
           eq_refl eq_refl eq_refl eq_refl).
Defined.

End DeviceBindingProps.

(** ** Properties of session invalidation and of the role permissions *)

Module SessionViewProps.

Import DeviceSessions AuthViews Backends SessionViews DeviceBindingProps.



Section Backend.

Variable Token : Type.
Variable jwt_authenticate : Request -> Outcome Token.
Variable sha256_hexdigest : string -> string.


End Backend.



(** *** The role permissions *)

(** X6. How the role permissions nest.  [IsLevel1] and [IsLevel2] each
    imply [IsLevel1OrLevel2]; [IsLevel1OrLevel2] and [IsJanMitra] each
    imply [IsJanMitraOrAuthority] and exclude one another;
    [IsJanMitraOrAuthority] itself reads no role and grants exactly the
    users in good standing; [IsLevel1OrLevel2] also admits LEVEL_0 and the
    captain, whom [IsLevel1] and [IsLevel2] both refuse. *)
Theorem role_permissions_nest (user : RequestUser) :
  (Permissions.IsLevel1 user = true -> Permissions.IsLevel1OrLevel2 user = true)
  /\ (RolePermissions.IsLevel2 user = true ->
      Permissions.IsLevel1OrLevel2 user = true)
  /\ (Permissions.IsLevel1OrLevel2 user = true
      \/ RolePermissions.IsJanMitra user = true ->
      RolePermissions.IsJanMitraOrAuthority user = true)
  /\ (RolePermissions.IsJanMitraOrAuthority user = true <->
      exists u, user = Some u /\ is_revoked u = false
                /\ Authentication.is_active u = true)
  /\ ~ (Permissions.IsLevel1OrLevel2 user = true
        /\ RolePermissions.IsJanMitra user = true)
  /\ (forall u, user = Some u ->
        role u = LEVEL_0 \/ role u = LEVEL_2_CAPTAIN ->
        Permissions.IsLevel1 user = false
        /\ RolePermissions.IsLevel2 user = false
        /\ (Permissions.IsLevel1OrLevel2 user = true <->
            is_revoked u = false /\ Authentication.is_active u = true)).
Proof.
  destruct user as [u|]; simpl.
  - unfold is_level_1, is_level_2, is_janmitra, is_authority.
    split; [|split; [|split; [|split; [|split]]]].
    1-3, 5: destruct (is_revoked u), (Authentication.is_active u), (role u);
      simpl; intuition discriminate.
    { split.
      - intros H. exists u.
        destruct (is_revoked u), (Authentication.is_active u);
          try discriminate H; auto.
      - intros (u0 & E & Hr & Ha). inversion E; subst u0.
        rewrite Hr, Ha. reflexivity. }
    intros u0 E Hr. inversion E; subst u0.
    destruct (is_revoked u), (Authentication.is_active u), Hr as [Hr|Hr];
      rewrite Hr; simpl; intuition discriminate.
  - split; [|split; [|split; [|split; [|split]]]]; try discriminate;
      try (intuition discriminate).
    split; [discriminate|]. intros (u & E & _). discriminate.
Qed.

(** X7. Media permissions.  Whoever may download may preview; the users
    who may preview but not download are exactly the LEVEL_2 officers in
    good standing; a citizen may do neither. *)
Theorem media_permissions (u : User) :
  (RolePermissions.CanDownloadMedia (Some u) = true ->
   RolePermissions.CanPreviewMedia (Some u) = true)
  /\ (RolePermissions.CanPreviewMedia (Some u) = true
      /\ RolePermissions.CanDownloadMedia (Some u) = false <->
      role u = LEVEL_2 /\ is_revoked u = false
      /\ Authentication.is_active u = true)
  /\ (role u = JANMITRA ->
      RolePermissions.CanPreviewMedia (Some u) = false
      /\ RolePermissions.CanDownloadMedia (Some u) = false).
Proof.
  unfold RolePermissions.CanDownloadMedia, RolePermissions.CanPreviewMedia,
    is_janmitra, is_authority, JANMITRA.
  destruct (is_revoked u), (Authentication.is_active u), (role u); simpl;
    repeat split; intros; try discriminate; try tauto;
    try (match goal with
         | H : _ /\ _ |- _ => destruct H as (? & ? & ?); discriminate
         end);
    try (match goal with
         | H : _ /\ _ |- _ => destruct H; discriminate
         end).
Qed.

End SessionViewProps.

(** ** Case listings: detail, feed, open cases, status filter *)

Module ListingProps.

Import CaseViews VisibilityProps.

(** *** The order of a listing *)

Section Ordering.

Variable before : Case -> Case -> bool.
Hypothesis before_total : forall a b, before a b = true \/ before b a = true.
Hypothesis before_trans :
  forall a b c, before a b = true -> before b c = true -> before a c = true.

Lemma insert_by_in_order (x : Case) (rows : list Case) :
  StronglySorted (fun a b => before a b = true) rows ->
  StronglySorted (fun a b => before a b = true) (insert_by before x rows).
Proof.
  induction rows as [|y rows IH]; intros Hs; simpl.
  - constructor; constructor.
  - inversion Hs as [|? ? Hs' Hy]; subst.
    destruct (before x y) eqn:E.
    + constructor; [exact Hs|]. constructor; [exact E|].
      eapply Forall_impl; [|exact Hy]. intros z Hz. now apply before_trans with y.
    + constructor; [now apply IH|].
      apply Forall_forall. intros z Hz. apply In_insert_by in Hz.
      destruct Hz as [->|Hz].
      * destruct (before_total x y) as [H|H]; [congruence|exact H].
      * rewrite Forall_forall in Hy. now apply Hy.
Qed.

Lemma order_by_in_order (rows : list Case) :
  StronglySorted (fun a b => before a b = true) (order_by before rows).
Proof.
  induction rows as [|x rows IH]; simpl; [constructor|].
  now apply insert_by_in_order.
Qed.

Lemma page_in_order (n : nat) (rows : list Case) :
  StronglySorted (fun a b => before a b = true) rows ->
  StronglySorted (fun a b => before a b = true) (firstn n rows).
Proof.
  revert rows. induction n as [|n IH]; intros [|x rows] Hs; simpl;
    try constructor.
  - inversion Hs; subst. now apply IH.
  - inversion Hs as [|? ? _ Hx]; subst. apply Forall_forall.
    intros z Hz. rewrite Forall_forall in Hx. apply Hx.
    revert Hz. clear. revert rows. induction n as [|n IH]; intros [|y rows];
      simpl; try tauto. intros [->|H]; [now left|right; now apply IH].
Qed.

End Ordering.

Definition newest_first (a b : Case) : bool := created_at b <=? created_at a.
Definition most_urgent_first (a b : Case) : bool :=
  sla_deadline a <=? sla_deadline b.

Lemma newest_first_total a b :
  newest_first a b = true \/ newest_first b a = true.
Proof. unfold newest_first. rewrite !Z.leb_le. lia. Qed.

Lemma newest_first_trans a b c :
  newest_first a b = true -> newest_first b c = true -> newest_first a c = true.
Proof. unfold newest_first. rewrite !Z.leb_le. lia. Qed.

Lemma most_urgent_first_total a b :
  most_urgent_first a b = true \/ most_urgent_first b a = true.
Proof. unfold most_urgent_first. rewrite !Z.leb_le. lia. Qed.

Lemma most_urgent_first_trans a b c :
  most_urgent_first a b = true -> most_urgent_first b c = true ->
  most_urgent_first a c = true.
Proof. unfold most_urgent_first. rewrite !Z.leb_le. lia. Qed.

Lemma newest_first_order (rows : list Case) :
  StronglySorted (fun a b => newest_first a b = true) rows ->
  StronglySorted (fun a b => created_at b <= created_at a) rows.
Proof.
  induction 1 as [|x rows _ IH Hx]; constructor; [exact IH|].
  eapply Forall_impl; [|exact Hx]. intros b Hb. now apply Z.leb_le.
Qed.

Lemma most_urgent_first_order (rows : list Case) :
  StronglySorted (fun a b => most_urgent_first a b = true) rows ->
  StronglySorted (fun a b => sla_deadline a <= sla_deadline b) rows.
Proof.
  induction 1 as [|x rows _ IH Hx]; constructor; [exact IH|].
  eapply Forall_impl; [|exact Hx]. intros b Hb. now apply Z.leb_le.
Qed.

Lemma detail_queryset_rows (user : RequestUser) (db : DB) (c : Case) :
  In c (CaseDetailView.get_queryset user db) <->
  In c (CaseListView.get_queryset None user db).
Proof.
  unfold CaseDetailView.get_queryset, CaseListView.get_queryset.
  destruct (getattr user is_janmitra); [tauto|].
  now rewrite In_order_by.
Qed.

Lemma listed_rows (user : RequestUser) (db : DB) (c : Case) :
  In c (CaseListView.get_queryset None user db) -> In c (cases db).
Proof.
  unfold CaseListView.get_queryset, visible_cases_for_user.
  destruct (getattr user is_janmitra); [intros []|].
  rewrite In_order_by.
  repeat match goal with
         | |- In _ (if ?b then _ else _) -> _ => destruct b
         end; try (intros []);
    rewrite !filter_In, In_objects; tauto.
Qed.

(** X8. The case detail endpoint follows the case list.  With unique
    case keys, [CaseDetailView.get] returns a case exactly when the
    case list of the same user (without status filter) contains a case
    with that key, and it returns that row; in every other case the
    answer is 404.  In particular a citizen always gets 404. *)
Theorem case_detail_follows_list (user : RequestUser) (db : DB) (cid : UUID) :
  NoDup (map id (cases db)) ->
  (forall c,
     CaseDetailView.get cid user db = Some c <->
     id c = cid /\ In c (CaseListView.get_queryset None user db))
  /\ (getattr user is_janmitra = true ->
      CaseDetailView.get cid user db = None).
Proof.
  intros Hnd. split.
  - intros c. unfold CaseDetailView.get. split.
    + intros H. apply find_some in H. destruct H as [Hin E].
      apply N.eqb_eq in E. split; [exact E|]. now apply detail_queryset_rows.
    + intros [E Hin].
      destruct (find _ (CaseDetailView.get_queryset user db)) as [c'|] eqn:F.
      * apply find_some in F. destruct F as [Hin' E'].
        apply N.eqb_eq in E'. apply detail_queryset_rows in Hin'.
        f_equal.
        apply (LifecycleProps.NoDup_key_eq id (cases db));
          eauto using listed_rows. congruence.
      * apply detail_queryset_rows in Hin.
        pose proof (find_none _ _ F c Hin) as H. simpl in H.
        apply N.eqb_neq in H. congruence.
  - intros Hj. unfold CaseDetailView.get, CaseDetailView.get_queryset.
    now rewrite Hj.
Qed.

Lemma case_detail_follows_list_witness :
  CaseDetailView.get 1%N (Some captain) (mkDB [] [escalated_case] [] []) = None
  /\ CaseDetailView.get 1%N
       (Some (mkUser 8%N "dsp@police.example" LEVEL_1 ACTIVE false true false
                None None ""))
       (mkDB [] [escalated_case] [] []) = Some escalated_case.
Proof.
  assert (Hnd : NoDup (map id (cases (mkDB [] [escalated_case] [] []))))
    by (repeat constructor; simpl; tauto).
  split.
  - destruct (CaseDetailView.get 1%N (Some captain)
                (mkDB [] [escalated_case] [] [])) as [c|] eqn:E;
      [|reflexivity].
    apply (proj1 (case_detail_follows_list (Some captain) _ 1%N Hnd)) in E.
    destruct E as [_ []].
  - apply (proj1 (case_detail_follows_list _ _ 1%N Hnd)).
    split; [reflexivity|]. simpl. now left.
Defined.

Lemma feed_page (n : nat) (rows : list Case) (c : Case) :
  In c (firstn n rows) -> In c rows.
Proof.
  revert rows. induction n as [|n IH]; intros [|x rows]; simpl; try tauto.
  intros [->|H]; [now left|right; now apply IH].
Qed.

(** X9. The incident feed.  The feed holds at most 100 cases, newest
    first; each is a live row of the case table at the level the user's
    role is given (LEVEL_2: level 2; captain: level 2 or below; LEVEL_1:
    level 1; LEVEL_0: level 0), whatever its status; a citizen's feed is
    empty.  When the case table has no more than 100 rows, the feed
    holds every case that qualifies. *)
Theorem incident_feed (u : User) (db : DB) :
  let feed := IncidentFeedView.get_queryset u db in
  (List.length feed <= 100)%nat
  /\ StronglySorted (fun a b => created_at b <= created_at a) feed
  /\ (forall c, In c feed ->
        In c (cases db) /\ is_deleted c = false
        /\ open_listed_level (role u) (current_level c))
  /\ (role u = JANMITRA -> feed = [])
  /\ ((List.length (cases db) <= 100)%nat ->
      forall c, In c (cases db) -> is_deleted c = false ->
                open_listed_level (role u) (current_level c) -> In c feed).
Proof.
  cbv zeta.
  assert (Hshape :
            exists keep : Case -> bool,
              (forall c, keep c = true ->
                         open_listed_level (role u) (current_level c))
              /\ (forall c, open_listed_level (role u) (current_level c) ->
                            keep c = true)
              /\ IncidentFeedView.get_queryset u db
                 = firstn 100
                     (order_by newest_first
                        (filter keep
                           (filter (fun c => negb (is_deleted c))
                              (objects (cases db)))))).
  { unfold IncidentFeedView.get_queryset, is_janmitra, is_level_2,
      is_level_2_captain, is_level_1, is_level_0, newest_first.
    unfold CaseLevel.LEVEL_2, CaseLevel.LEVEL_1, CaseLevel.LEVEL_0.
    destruct (role u); cbn [UserRole_eqb andb negb].
    - exists (fun c => current_level c =? 0). repeat split; try reflexivity;
        intros c; rewrite Z.eqb_eq; auto.
    - exists (fun c => current_level c =? 1). repeat split; try reflexivity;
        intros c; rewrite Z.eqb_eq; auto.
    - exists (fun c => current_level c =? 2). repeat split; try reflexivity;
        intros c; rewrite Z.eqb_eq; auto.
    - exists (fun c => current_level c <=? 2). repeat split; try reflexivity;
        intros c; rewrite Z.leb_le; auto.
    - exists (fun _ => false).
      split; [discriminate|]. split; [intros c []|].
      assert (Hnone : forall l : list Case, filter (fun _ => false) l = [])
        by (induction l; simpl; auto).
      now rewrite Hnone. }
  destruct Hshape as (keep & Hk1 & Hk2 & ->).
  split; [apply firstn_le_length|].
  split.
  { apply newest_first_order.
    apply page_in_order, order_by_in_order;
      [apply newest_first_total|apply newest_first_trans]. }
  split.
  { intros c Hc. apply feed_page in Hc. apply In_order_by in Hc.
    rewrite !filter_In, In_objects in Hc.
    destruct Hc as [[[Hin Hlive] _] Hkeep]. auto. }
  split.
  { intros Hr. unfold IncidentFeedView.get_queryset in *.
    assert (Hempty : filter keep
                       (filter (fun c => negb (is_deleted c))
                          (objects (cases db))) = []).
    { induction (filter (fun c => negb (is_deleted c)) (objects (cases db)))
        as [|x l IH]; simpl; [reflexivity|].
      destruct (keep x) eqn:E; [|exact IH].
      apply Hk1 in E. rewrite Hr in E. destruct E. }
    now rewrite Hempty. }
  intros Hlen c Hin Hlive Hlvl.
  rewrite firstn_all2.
  - apply In_order_by. rewrite !filter_In, In_objects, negb_true_iff. auto.
  - clear - Hlen.
    assert (Hle : forall (f : Case -> bool) l,
               (List.length (filter f l) <= List.length l)%nat).
    { intros f l. induction l as [|x l IH]; simpl; [lia|].
      destruct (f x); simpl; lia. }
    assert (Hsame : forall f (l : list Case),
               List.length (order_by f l) = List.length l).
    { intros f l. induction l as [|x l IH]; simpl; [reflexivity|].
      rewrite <- IH. clear. induction (order_by f l) as [|y r IHr]; simpl;
        [reflexivity|]. destruct (f x y); simpl; lia. }
    rewrite Hsame. unfold objects.
    pose proof (Hle keep (filter (fun c => negb (is_deleted c))
                            (filter (fun c => negb (is_deleted c)) (cases db)))).
    pose proof (Hle (fun c => negb (is_deleted c))
                  (filter (fun c => negb (is_deleted c)) (cases db))).
    pose proof (Hle (fun c => negb (is_deleted c)) (cases db)).
    lia.
Qed.

(** X10. The open-cases dashboard.  It lists exactly the live OPEN cases
    at the level the user's role is given (LEVEL_2: level 2; captain:
    level 2 or below; LEVEL_1: level 1; LEVEL_0: level 0; a citizen:
    none), the case with the earliest SLA deadline first. *)
Theorem open_cases_most_urgent_first (u : User) (db : DB) :
  let listing := OpenCasesView.get_queryset u db in
  StronglySorted (fun a b => sla_deadline a <= sla_deadline b) listing
  /\ (forall c,
        In c listing <->
        In c (cases db) /\ is_deleted c = false /\ status c = OPEN
        /\ open_listed_level (role u) (current_level c)).
Proof.
  cbv zeta. split; [|intros c; apply OpenCasesView_members].
  apply most_urgent_first_order.
  pose proof (order_by_in_order most_urgent_first most_urgent_first_total
                most_urgent_first_trans) as Hsorted.
  unfold OpenCasesView.get_queryset.
  fold most_urgent_first.
  repeat match goal with
         | |- StronglySorted _ (if ?b then _ else _) => destruct b
         end; try apply Hsorted; constructor.
Qed.

(** X11. The status filter of the case list.  With [?status=s] the list
    holds the cases of the unfiltered list whose status string is [s],
    newest first; an empty [s] filters nothing; an [s] that is not one of
    the four status strings (they are lower case) gives the empty list,
    not an error. *)
Theorem case_list_status_filter (u : User) (db : DB) (wanted : string) :
  let listing := CaseListView.get_queryset (Some wanted) (Some u) db in
  let everything := CaseListView.get_queryset None (Some u) db in
  (forall c,
     In c listing <->
     In c everything
     /\ (wanted = EmptyString \/ CaseStatus_value (status c) = wanted))
  /\ (wanted = EmptyString -> listing = everything)
  /\ (wanted <> EmptyString ->
      ~ In wanted ["open"; "solved"; "rejected"; "closed"]%string ->
      listing = [])
  /\ StronglySorted (fun a b => created_at b <= created_at a) listing.
Proof.
  cbv zeta.
  assert (Hmem : forall c,
             In c (CaseListView.get_queryset (Some wanted) (Some u) db) <->
             In c (CaseListView.get_queryset None (Some u) db)
             /\ (wanted = EmptyString
                 \/ CaseStatus_value (status c) = wanted)).
  { intros c. unfold CaseListView.get_queryset.
    destruct (getattr (Some u) is_janmitra); [simpl; tauto|].
    destruct wanted as [|a w]; simpl truthy; cbv iota.
    - rewrite !In_order_by. tauto.
    - rewrite !In_order_by, filter_In, String.eqb_eq.
      split; [intros [H1 H2]; auto|].
      intros [H1 [H2|H2]]; [discriminate|auto]. }
  split; [exact Hmem|]. split; [|split].
  - intros ->. reflexivity.
  - intros Hne Hnot.
    destruct (CaseListView.get_queryset (Some wanted) (Some u) db)
      as [|c rest] eqn:E; [reflexivity|].
    exfalso. destruct (proj1 (Hmem c) (or_introl eq_refl)) as [_ [H|H]];
      [contradiction|].
    apply Hnot. rewrite <- H. destruct (status c); simpl; tauto.
  - apply newest_first_order.
    pose proof (order_by_in_order newest_first newest_first_total
                  newest_first_trans) as Hsorted.
    unfold CaseListView.get_queryset. fold newest_first.
    destruct (getattr (Some u) is_janmitra); [constructor|].
    apply Hsorted.
Qed.

End ListingProps.

(** ** Computed flags, notification recipients and soft deletion *)

Module FlagProps.

Import CaseSerializers CaseAdminDisplay NotificationService VisibilityProps.

(** X12. The three SLA-breach indicators.  The admin flag and badge say
    "breached" exactly for an OPEN case whose deadline has passed; the
    API field [is_sla_breached] says so for an OPEN or a CLOSED one.
    So the admin flag implies the API field, the two differ exactly on
    a force-closed case past its deadline, the badge is N/A exactly for
    cases that are not OPEN, and every candidate of the auto-escalation
    sweep is breached by all three. *)
Theorem sla_breach_flags (c : Case) (now : datetime) :
  (is_sla_breached_display c now = true <->
   status c = OPEN /\ sla_deadline c < now)
  /\ (get_is_sla_breached c now = true <->
      (status c = OPEN \/ status c = CLOSED) /\ sla_deadline c < now)
  /\ (is_sla_breached_display c now = true ->
      get_is_sla_breached c now = true)
  /\ (get_is_sla_breached c now <> is_sla_breached_display c now <->
      status c = CLOSED /\ sla_deadline c < now)
  /\ (sla_status_badge c now = BREACHED <->
      is_sla_breached_display c now = true)
  /\ (sla_status_badge c now = NOT_APPLICABLE <-> status c <> OPEN)
  /\ (forall db, In c (AutoEscalateCases.expired_cases now db) ->
        is_sla_breached_display c now = true
        /\ get_is_sla_breached c now = true
        /\ sla_status_badge c now = BREACHED).
Proof.
  unfold is_sla_breached_display, get_is_sla_breached, sla_status_badge,
    AutoEscalateCases.expired_cases.
  assert (Hgt : (now >? sla_deadline c) = true <-> sla_deadline c < now)
    by (rewrite Z.gtb_lt; tauto).
  assert (Hlt : (sla_deadline c <? now) = true <-> sla_deadline c < now)
    by apply Z.ltb_lt.
  destruct (now >? sla_deadline c), (status c) eqn:Es; simpl;
    repeat split; intros;
    repeat match goal with
           | H : _ /\ _ |- _ => destruct H
           | H : _ \/ _ |- _ => destruct H
           | H : In _ (order_by _ _) |- _ => apply In_order_by in H
           | H : In _ (filter _ _) |- _ => apply filter_In in H
           | H : _ && _ = true |- _ => apply andb_true_iff in H
           end;
    try discriminate; try congruence; try tauto;
    try (rewrite Es in *; simpl in *; intuition congruence);
    try (match goal with
         | H : sla_deadline c < now |- _ => apply Hgt in H; discriminate
         end).
Qed.

(** X13. The [can_download_media] field of the case detail payload and
    the download permission.  Whoever holds [CanDownloadMedia] is shown
    the flag; for every caller the detail endpoint admits (it requires
    [IsLevel1OrLevel2]) the flag equals the permission; the flag can be
    set without the permission only for a revoked or inactive user. *)
Theorem download_flag_matches_permission (user : RequestUser) :
  (RolePermissions.CanDownloadMedia user = true ->
   get_can_download_media user = true)
  /\ (Permissions.IsLevel1OrLevel2 user = true ->
      get_can_download_media user = RolePermissions.CanDownloadMedia user)
  /\ (forall u, user = Some u ->
        get_can_download_media user = true ->
        RolePermissions.CanDownloadMedia user = false ->
        is_revoked u = true \/ is_active u = false).
Proof.
  destruct user as [u|]; simpl.
  - unfold is_janmitra, is_authority.
    split; [|split].
    1-2: destruct (is_revoked u), (is_active u), (role u); simpl;
      intuition discriminate.
    intros u0 E. inversion E; subst u0.
    destruct (is_revoked u), (is_active u), (role u); simpl;
      intuition discriminate.
  - repeat split; intros; discriminate.
Qed.

(** X14. Who is notified can list.  The users notified about a case at
    [level] are live, active authorities, and only levels 0, 1 and 2 have
    recipients.  Such a user, unless revoked, passes the permission of
    the case endpoints, finds every live case of that level in the case
    list and every live OPEN one in the open-cases dashboard.  The
    captains are among the level-2 recipients. *)
Theorem notified_officers_can_list (level : Z) (table : list User) (db : DB)
  (u : User) :
  In u (_get_users_by_level level table) ->
  0 <= level <= 2
  /\ In u table /\ is_active u = true /\ user_is_deleted u = false
  /\ is_authority u = true
  /\ (In u (_get_captains table) <-> level = 2 /\ role u = LEVEL_2_CAPTAIN)
  /\ (is_revoked u = false ->
      Permissions.IsLevel1OrLevel2 (Some u) = true
      /\ forall c, In c (cases db) -> is_deleted c = false ->
                   current_level c = level ->
                   In c (CaseListView.get_queryset None (Some u) db)
                   /\ (status c = OPEN ->
                       In c (OpenCasesView.get_queryset u db))).
Proof.
  intros Hin.
  assert (H : In u table /\ is_active u = true /\ user_is_deleted u = false
              /\ (level = 2 /\ (role u = LEVEL_2 \/ role u = LEVEL_2_CAPTAIN)
                  \/ level = 1 /\ role u = LEVEL_1
                  \/ level = 0 /\ role u = LEVEL_0)).
  { unfold _get_users_by_level, role_mapping, user_objects in Hin.
    destruct (Z.eqb_spec level 2);
      [|destruct (Z.eqb_spec level 1); [|destruct (Z.eqb_spec level 0)]];
      try destruct Hin;
      apply filter_In in Hin; destruct Hin as [Hin Hp];
      apply filter_In in Hin; destruct Hin as [Hin _];
      apply andb_true_iff in Hp; destruct Hp as [Hp Hd];
      apply andb_true_iff in Hp; destruct Hp as [Hr Ha];
      apply negb_true_iff in Hd;
      repeat split; auto; destruct (role u); simpl in Hr;
      try discriminate; tauto. }
  destruct H as (Htable & Hact & Hdel & Hrole).
  assert (Hauth : is_authority u = true).
  { unfold is_authority.
    destruct Hrole as [[_ [E|E]]|[[_ E]|[_ E]]]; now rewrite E. }
  split; [lia|]. split; [exact Htable|]. split; [exact Hact|].
  split; [exact Hdel|]. split; [exact Hauth|]. split.
  { split.
    - intros Hc. unfold _get_captains, user_objects in Hc.
      apply filter_In in Hc. destruct Hc as [_ Hc].
      apply andb_true_iff in Hc. destruct Hc as [Hc _].
      apply andb_true_iff in Hc. destruct Hc as [Hc _].
      apply UserRole_eqb_eq in Hc. rewrite Hc in Hrole.
      intuition congruence.
    - intros [_ Hc]. unfold _get_captains, user_objects.
      rewrite !filter_In, Hc, Hact, Hdel. auto. }
  intros Hrev. split.
  - unfold Permissions.IsLevel1OrLevel2. now rewrite Hrev, Hact, Hauth.
  - intros c Hc Hlive Hlvl. split.
    + apply CaseListView_members. repeat split; auto.
      destruct Hrole as [[? [E|E]]|[[? E]|[? E]]]; rewrite E; simpl; lia.
    + intros Hopen. apply OpenCasesView_members. repeat split; auto.
      destruct Hrole as [[? [E|E]]|[[? E]|[? E]]]; rewrite E; simpl; lia.
Qed.

Lemma notified_officers_can_list_witness :
  In escalated_case
    (OpenCasesView.get_queryset
       (mkUser 8%N "dsp@police.example" LEVEL_1 ACTIVE false true false
          None None "")
       (mkDB [] [escalated_case] [] [])).
Proof.
  assert (Hin : In (mkUser 8%N "dsp@police.example" LEVEL_1 ACTIVE false true
                      false None None "")
                  (_get_users_by_level 1
                     [captain;
                      mkUser 8%N "dsp@police.example" LEVEL_1 ACTIVE false true
                        false None None ""]))
    by (simpl; auto).
  destruct (notified_officers_can_list 1 _ (mkDB [] [escalated_case] [] []) _ Hin)
    as (_ & _ & _ & _ & _ & _ & H).
  destruct (H eq_refl) as [_ Hlist].
  destruct (Hlist escalated_case (or_introl eq_refl) eq_refl eq_refl)
    as [_ Hopen].
  exact (Hopen eq_refl).
Defined.

End FlagProps.

Module SoftDeleteProps.

Import CoreModels.

(** X15. Soft deletion.  [delete()] removes no row: the table keeps its
    length and keys, the default manager no longer shows the rows with
    the deleted key while [deleted_only] does, and the two managers
    split the table between them.  [restore] after [delete] brings back
    every row with that key, live and with [deleted_at] cleared; only
    [updated_at] tells it was ever deleted. *)
Theorem soft_delete_round_trip (table : list BaseModel) (r : BaseModel)
  (t1 t2 : datetime) :
  let deleted := delete r t1 table in
  List.length deleted = List.length table
  /\ map id deleted = map id table
  /\ (forall x, In x (get_queryset deleted) <->
                In x (get_queryset table) /\ id x <> id r)
  /\ (forall x, In x table -> id x = id r ->
        In {| id := id x; created_at := created_at x; updated_at := t1;
              is_deleted := true; deleted_at := Some t1 |}
          (deleted_only deleted))
  /\ (forall x, In x (all_with_deleted deleted) <->
                In x (get_queryset deleted) \/ In x (deleted_only deleted))
  /\ (forall x, ~ (In x (get_queryset deleted) /\ In x (deleted_only deleted)))
  /\ restore r t2 deleted
     = map (fun row =>
              if N.eqb (id row) (id r) then
                {| id := id row; created_at := created_at row;
                   updated_at := t2; is_deleted := false;
                   deleted_at := None |}
              else row) table.
Proof.
  cbv zeta. unfold delete, soft_delete, restore, save_update_fields,
    get_queryset, deleted_only, all_with_deleted. simpl.
  split; [apply length_map|].
  split.
  { rewrite map_map. apply map_ext. intros row.
    now destruct (N.eqb (id row) (id r)). }
  split.
  { intros x. rewrite !filter_In, in_map_iff. split.
    - intros [(row & E & Hin) Hx].
      destruct (N.eqb_spec (id row) (id r)) as [Ei|Ei]; subst x;
        [discriminate|]. auto.
    - intros [[Hin Hx] Hne]. split; [|exact Hx]. exists x.
      split; [|exact Hin]. destruct (N.eqb_spec (id x) (id r)); congruence. }
  split.
  { intros x Hin E. apply filter_In. split; [|reflexivity].
    apply in_map_iff. exists x. split; [|exact Hin].
    now rewrite E, N.eqb_refl. }
  split.
  { intros x. rewrite !filter_In. destruct (is_deleted x); simpl; tauto. }
  split.
  { intros x. rewrite !filter_In. destruct (is_deleted x); simpl;
      intuition discriminate. }
  rewrite map_map. apply map_ext. intros row.
  destruct (N.eqb_spec (id row) (id r)) as [E|E]; simpl.
  - now rewrite E, N.eqb_refl.
  - now destruct (N.eqb_spec (id row) (id r)).
Qed.

End SoftDeleteProps.

(** ** The admin bulk actions, row by row (reports/admin.py) *)

Module BulkProps.

Import CaseProps LifecycleProps.

(** *** A loop that rewrites the rows it acts on and counts the rest *)

Section Bulk.

Variables St Rest : Type.
Variable proj : St -> DB.
Variables hits misses : St -> Z.
Variable rest : St -> Rest.
Variable body : St -> Case -> St.
Variable good : Case -> Prop.
Variable acts : Case -> bool.
Variable new : Case -> Case.
Variable row : Case -> CaseStatusHistory.

Hypothesis new_id : forall k, id (new k) = id k.

Hypothesis body_acts :
  forall st k,
    NoDup (map id (cases (proj st))) -> In k (cases (proj st)) -> good k ->
    acts k = true ->
    cases (proj (body st k)) = put (new k) (cases (proj st))
    /\ status_history (proj (body st k)) = status_history (proj st) ++ [row k]
    /\ hits (body st k) = hits st + 1
    /\ misses (body st k) = misses st
    /\ rest (body st k) = rest st.

Hypothesis body_skips :
  forall st k,
    NoDup (map id (cases (proj st))) -> In k (cases (proj st)) -> good k ->
    acts k = false ->
    proj (body st k) = proj st
    /\ hits (body st k) = hits st
    /\ misses (body st k) = misses st + 1
    /\ rest (body st k) = rest st.

Lemma bulk_loop (qs : list Case) :
  forall st,
    NoDup (map id (cases (proj st))) -> NoDup (map id qs) ->
    (forall k, In k qs -> In k (cases (proj st)) /\ good k) ->
    let r := fold_left body qs st in
    cases (proj r)
    = map (fun c => if existsb (fun k => N.eqb (id k) (id c) && acts k) qs
                    then new c else c)
        (cases (proj st))
    /\ status_history (proj r)
       = status_history (proj st) ++ map row (filter acts qs)
    /\ hits r = hits st + Z.of_nat (List.length (filter acts qs))
    /\ misses r
       = misses st
         + Z.of_nat (List.length (filter (fun k => negb (acts k)) qs))
    /\ rest r = rest st.
Proof.
  induction qs as [|k qs IH]; intros st Hnd Hqs Hall; cbv zeta.
  - simpl. rewrite map_id, app_nil_r, !Z.add_0_r. auto 6.
  - inversion Hqs as [|? ? Hk Hqs']; subst.
    destruct (Hall k (or_introl eq_refl)) as [Hin Hg].
    change (fold_left body (k :: qs) st) with (fold_left body qs (body st k)).
    assert (Hfresh : existsb (fun k0 => N.eqb (id k0) (id k) && acts k0) qs
                     = false).
    { apply not_true_is_false. intros Hex.
      apply existsb_exists in Hex. destruct Hex as (k' & Hk' & Ek').
      apply andb_true_iff in Ek'. destruct Ek' as [Ek' _].
      apply N.eqb_eq in Ek'. apply Hk. rewrite <- Ek'. now apply in_map. }
    destruct (acts k) eqn:Ea.
    + destruct (body_acts st k Hnd Hin Hg Ea)
        as (Hc & Hh & Hhit & Hmiss & Hrest).
      assert (Hnd1 : NoDup (map id (cases (proj (body st k)))))
        by now rewrite Hc, map_id_put.
      assert (Hall1 : forall k', In k' qs ->
                                 In k' (cases (proj (body st k))) /\ good k').
      { intros k' Hk'. destruct (Hall k' (or_intror Hk')) as [Hin' Hg'].
        split; [|exact Hg']. rewrite Hc. apply In_put_other; [exact Hin'|].
        rewrite new_id. intros E. apply Hk. rewrite <- E. now apply in_map. }
      destruct (IH (body st k) Hnd1 Hqs' Hall1) as (Ec & Eh & En & Em & Er).
      cbv zeta in Ec, Eh, En, Em, Er.
      rewrite Ec, Eh, En, Em, Er, Hc, Hh, Hhit, Hmiss, Hrest.
      simpl filter. rewrite Ea. simpl negb. cbv iota.
      repeat split.
      * unfold put. rewrite map_map. apply map_ext_in. intros c Hcin. simpl.
        rewrite new_id.
        destruct (N.eqb (id c) (id k)) eqn:E.
        -- apply N.eqb_eq in E.
           pose proof (NoDup_key_eq id _ c k Hnd Hcin Hin E) as ->.
           rewrite new_id, Hfresh, N.eqb_refl, Ea. reflexivity.
        -- rewrite N.eqb_sym, E. reflexivity.
      * rewrite <- app_assoc. reflexivity.
      * simpl List.length. lia.
    + destruct (body_skips st k Hnd Hin Hg Ea) as (Hp & Hhit & Hmiss & Hrest).
      assert (Hnd1 : NoDup (map id (cases (proj (body st k)))))
        by now rewrite Hp.
      assert (Hall1 : forall k', In k' qs ->
                                 In k' (cases (proj (body st k))) /\ good k').
      { intros k' Hk'. rewrite Hp. apply Hall. now right. }
      destruct (IH (body st k) Hnd1 Hqs' Hall1) as (Ec & Eh & En & Em & Er).
      cbv zeta in Ec, Eh, En, Em, Er.
      rewrite Ec, Eh, En, Em, Er, Hp, Hhit, Hmiss, Hrest.
      simpl filter. rewrite Ea. simpl negb. cbv iota.
      repeat split.
      * apply map_ext. intros c. simpl. now rewrite Ea, andb_false_r.
      * simpl List.length. lia.
Qed.

(** The rows a selection acts on, read off the table. *)
Lemma picked_row (pick : Case -> bool) (qs table : list Case) (c : Case) :
  NoDup (map id table) ->
  (forall k, In k qs <-> In k table /\ pick k = true) ->
  In c table ->
  existsb (fun k => N.eqb (id k) (id c) && acts k) qs = pick c && acts c.
Proof.
  intros Hnd Hqs Hin.
  destruct (pick c && acts c) eqn:E.
  - apply andb_true_iff in E. destruct E as [Ep Ea].
    apply existsb_exists. exists c. rewrite N.eqb_refl, Ea.
    split; [apply Hqs; auto|reflexivity].
  - apply not_true_is_false. intros Hex.
    apply existsb_exists in Hex. destruct Hex as (k & Hk & Ek).
    apply andb_true_iff in Ek. destruct Ek as [Ek Ea].
    apply N.eqb_eq in Ek. apply Hqs in Hk. destruct Hk as [Hk Hp].
    pose proof (NoDup_key_eq id table k c Hnd Hk Hin Ek) as ->.
    rewrite Hp, Ea in E. discriminate.
Qed.

End Bulk.

(** *** The two admin actions *)

(** The rows of the table that a selection of keys picks. *)
Definition picked (selected : list UUID) (c : Case) : bool :=
  existsb (N.eqb (id c)) selected && negb (is_deleted c).

Definition is_open (c : Case) : bool := CaseStatus_eqb (status c) OPEN.

Definition can_go_down (c : Case) : bool :=
  is_open c && negb (current_level c =? 0).

(** The row [force_close_case] writes for [c], and its history row. *)
Definition closed (now : datetime) (c : Case) : Case :=
  touch (assign_closed c) now.

Definition close_row (admin : User) (k : Case) : CaseStatusHistory :=
  {| h_case := id k; from_status := Some (status k); to_status := CLOSED;
     from_level := Some (current_level k);
     to_level := Some (current_level k);
     changed_by := Some (user_id admin);
     reason := "Admin force closed by " ++ identifier admin;
     is_auto_escalation := false |}.

(** The row [force_escalate_case] writes for [c], and its history row. *)
Definition pushed_down (now : datetime) (c : Case) : Case :=
  touch (assign_escalated c (current_level c - 1) now
           (now + timedelta_hours 24)) now.

Definition push_row (admin : User) (k : Case) : CaseStatusHistory :=
  {| h_case := id k; from_status := Some (status k); to_status := status k;
     from_level := Some (current_level k);
     to_level := Some (current_level k - 1);
     changed_by := Some (user_id admin);
     reason := "Admin force escalation by " ++ identifier admin;
     is_auto_escalation := false |}.

Lemma queryset_picked (selected : list UUID) (db : DB) (k : Case) :
  In k (CaseAdmin.queryset selected db) <->
  In k (cases db) /\ picked selected k = true.
Proof.
  unfold CaseAdmin.queryset, picked.
  rewrite In_order_by, filter_In, In_objects, andb_true_iff, negb_true_iff.
  tauto.
Qed.


Lemma force_close_loop (admin : User) (now : datetime) (qs : list Case)
  (st : CaseAdmin.LoopState) :
  NoDup (map id (cases (tables st))) -> NoDup (map id qs) ->
  (forall k, In k qs -> In k (cases (tables st)) /\ True) ->
  let r := fold_left (CaseAdmin.force_close_body admin now) qs st in
  cases (tables r)
  = map (fun c => if existsb (fun k => N.eqb (id k) (id c) && is_open k) qs
                  then closed now c else c)
      (cases (tables st))
  /\ status_history (tables r)
     = status_history (tables st) ++ map (close_row admin) (filter is_open qs)
  /\ snd (fst r) = snd (fst st) + Z.of_nat (List.length (filter is_open qs))
  /\ snd r
     = snd st
       + Z.of_nat (List.length (filter (fun k => negb (is_open k)) qs))
  /\ incidents (tables r) = incidents (tables st).
Proof.
  apply (bulk_loop CaseAdmin.LoopState (list Incident) tables
           (fun st => snd (fst st)) snd (fun st => incidents (tables st))
           (CaseAdmin.force_close_body admin now) (fun _ => True) is_open
           (closed now) (close_row admin)).
  - intros k. reflexivity.
  - intros [[db a] b] k _ _ _ Ha. unfold is_open in Ha.
    apply CaseStatus_eqb_eq in Ha. unfold CaseAdmin.force_close_body.
    rewrite Ha. simpl. rewrite save_put. unfold closed, close_row.
    rewrite Ha. auto.
  - intros [[db a] b] k _ _ _ Ha. unfold is_open in Ha.
    unfold CaseAdmin.force_close_body.
    destruct (status k); try discriminate; simpl; auto.
Qed.







Lemma force_escalate_loop (admin : User) (now : datetime) (qs : list Case)
  (st : CaseAdmin.LoopState) :
  NoDup (map id (cases (tables st))) -> NoDup (map id qs) ->
  (forall k, In k qs -> In k (cases (tables st)) /\ True) ->
  let r := fold_left (CaseAdmin.force_escalate_body admin now) qs st in
  cases (tables r)
  = map (fun c => if existsb (fun k => N.eqb (id k) (id c) && can_go_down k) qs
                  then pushed_down now c else c)
      (cases (tables st))
  /\ status_history (tables r)
     = status_history (tables st)
       ++ map (push_row admin) (filter can_go_down qs)
  /\ snd (fst r)
     = snd (fst st) + Z.of_nat (List.length (filter can_go_down qs))
  /\ snd r
     = snd st
       + Z.of_nat (List.length (filter (fun k => negb (can_go_down k)) qs))
  /\ incidents (tables r) = incidents (tables st).
Proof.
  apply (bulk_loop CaseAdmin.LoopState (list Incident) tables
           (fun st => snd (fst st)) snd (fun st => incidents (tables st))
           (CaseAdmin.force_escalate_body admin now) (fun _ => True)
           can_go_down (pushed_down now) (push_row admin)).
  - intros k. reflexivity.
  - intros [[db a] b] k _ _ _ Ha. unfold can_go_down, is_open in Ha.
    apply andb_true_iff in Ha. destruct Ha as [Ho Hl].
    unfold CaseAdmin.force_escalate_body, CaseLevel.LEVEL_0.
    rewrite Ho. apply negb_true_iff in Hl. rewrite Hl. simpl.
    rewrite save_put. auto.
  - intros [[db a] b] k _ _ _ Ha. unfold can_go_down, is_open in Ha.
    unfold CaseAdmin.force_escalate_body, CaseLevel.LEVEL_0.
    destruct (CaseStatus_eqb (status k) OPEN); simpl in *; auto.
    apply negb_false_iff in Ha. rewrite Ha. auto.
Qed.



End BulkProps.

(** ** The sweep, whatever its lookups give *)

Module SweepRunProps.

Import CaseProps LifecycleProps AutoEscalateCases BulkProps.

(** The rows the query of [handle] selects. *)
Definition candidate (t : datetime) (c : Case) : bool :=
  negb (is_deleted c) && is_open c && (sla_deadline c <? t)
  && negb (current_level c =? 0).

Lemma expired_cases_candidate (t : datetime) (db : DB) (k : Case) :
  In k (expired_cases t db) <-> In k (cases db) /\ candidate t k = true.
Proof.
  unfold expired_cases, candidate, is_open, CaseLevel.LEVEL_0.
  rewrite In_order_by, !filter_In, In_objects, !andb_true_iff,
    !negb_true_iff.
  tauto.
Qed.

Definition Outcome_eqb (a b : Outcome) : bool :=
  match a, b with
  | Escalated, Escalated | Skipped, Skipped | Raised, Raised => true
  | _, _ => false
  end.

(** One more candidate with the outcome [o]. *)
Definition count (o : Outcome) (n : Summary) : Summary :=
  match o with
  | Escalated =>
      mkSummary (total_found n) (escalated_count n + 1) (skipped_count n)
        (error_count n)
  | Skipped =>
      mkSummary (total_found n) (escalated_count n) (skipped_count n + 1)
        (error_count n)
  | Raised =>
      mkSummary (total_found n) (escalated_count n) (skipped_count n)
        (error_count n + 1)
  end.

Section Sweep.

Variable can_escalate : option (Case -> bool * string).
Variable is_sla_expired : option (Case -> datetime -> bool).
Variable calculate_sla_deadline_for_level : option (Z -> datetime -> datetime).
Variable CASE_ESCALATED : option string.
Variable has_select_for_update : bool.

Local Abbreviation escalate_case :=
  (_escalate_case can_escalate is_sla_expired
     calculate_sla_deadline_for_level CASE_ESCALATED).
Local Abbreviation sweep :=
  (handle can_escalate is_sla_expired
     calculate_sla_deadline_for_level CASE_ESCALATED has_select_for_update).
Local Abbreviation sweep_body :=
  (handle_body can_escalate is_sla_expired
     calculate_sla_deadline_for_level CASE_ESCALATED).

(** What the loop of [handle] counts a candidate as, read off the
    candidate and the lookups: skipped when its level is neither 2 nor 1
    or a check says no, an error when a lookup fails on the way, and
    escalated otherwise. *)
Definition verdict (dry_run : bool) (t : datetime) (k : Case) : Outcome :=
  if (current_level k =? 2) || (current_level k =? 1) then
    match can_escalate with
    | None => Raised
    | Some can =>
        if fst (can k) then
          match is_sla_expired with
          | None => Raised
          | Some expired =>
              if expired k t then
                if dry_run then Escalated
                else
                  match calculate_sla_deadline_for_level, CASE_ESCALATED with
                  | Some _, Some _ => Escalated
                  | _, _ => Raised
                  end
              else Skipped
          end
        else Skipped
    end
  else Skipped.

(** The candidates a run that is not dry rewrites. *)
Definition passes (t : datetime) (k : Case) : bool :=
  Outcome_eqb (verdict false t k) Escalated.

Definition writes (dry_run : bool) (t : datetime) (k : Case) : bool :=
  negb dry_run && passes t k.

(** The row the sweep writes for [k]. *)
Definition escalated (t : datetime) (k : Case) : Case :=
  auto_escalated k (current_level k - 1) t
    (new_deadline calculate_sla_deadline_for_level (current_level k - 1) t).

(** How many of [qs] are counted as [o]. *)
Definition counted (dry_run : bool) (t : datetime) (o : Outcome)
  (qs : list Case) : Z :=
  Z.of_nat
    (List.length (filter (fun k => Outcome_eqb (verdict dry_run t k) o) qs)).

Lemma escalate_case_verdict (k : Case) (t : datetime) (dry_run : bool)
  (db : DB) :
  NoDup (map id (cases db)) -> In k (cases db) -> is_deleted k = false ->
  status k = OPEN ->
  fst (escalate_case k t dry_run db) = verdict dry_run t k.
Proof.
  intros Hnd Hin Hlive Hopen. unfold _escalate_case, verdict.
  rewrite (find_live_row k (cases db) Hnd Hin Hlive), Z.eqb_refl, Hopen.
  unfold CaseLevel.LEVEL_2, CaseLevel.LEVEL_1.
  destruct (current_level k =? 2), (current_level k =? 1); simpl;
    try reflexivity;
    destruct can_escalate as [can|]; try reflexivity;
    destruct (fst (can k)); simpl; try reflexivity;
    destruct is_sla_expired as [expired|]; try reflexivity;
    destruct (expired k t); simpl; try reflexivity;
    destruct dry_run; try reflexivity;
    destruct calculate_sla_deadline_for_level; try reflexivity;
    destruct CASE_ESCALATED; reflexivity.
Qed.

Lemma escalate_case_writes (k : Case) (t : datetime) (dry_run : bool)
  (db : DB) :
  NoDup (map id (cases db)) -> In k (cases db) -> is_deleted k = false ->
  status k = OPEN ->
  if writes dry_run t k
  then cases (snd (escalate_case k t dry_run db)) = put (escalated t k) (cases db)
       /\ status_history (snd (escalate_case k t dry_run db))
          = status_history db ++ [auto_row k (current_level k - 1)]
  else snd (escalate_case k t dry_run db) = db.
Proof.
  intros Hnd Hin Hlive Hopen.
  pose proof (escalate_case_verdict k t dry_run db Hnd Hin Hlive Hopen) as Hv.
  destruct (escalate_case_cases can_escalate is_sla_expired
              calculate_sla_deadline_for_level CASE_ESCALATED
              k t dry_run db Hnd Hin Hlive)
    as [[Hsame Hout]|(Hout & Hdry & _ & _ & _ & Hc & Hh)].
  - destruct (writes dry_run t k) eqn:Ew; [|exact Hsame].
    exfalso. unfold writes, passes in Ew.
    apply andb_true_iff in Ew. destruct Ew as [Ed Ep].
    apply negb_true_iff in Ed. subst dry_run.
    rewrite Hv in Hout.
    destruct (verdict false t k); simpl in Ep; try discriminate.
    destruct Hout as [Hout|[Hout|[_ Hout]]]; discriminate.
  - subst dry_run. unfold writes, passes. rewrite <- Hv, Hout. simpl.
    split; [exact Hc|exact Hh].
Qed.

(** The loop of [handle] over candidates that are live and OPEN. *)
Lemma sweep_loop (dry_run : bool) (t : datetime) (qs : list Case) :
  forall st : DB * Summary,
    NoDup (map id (cases (fst st))) -> NoDup (map id qs) ->
    (forall k, In k qs ->
               In k (cases (fst st)) /\ is_deleted k = false
               /\ status k = OPEN) ->
    let r := fold_left (sweep_body t dry_run) qs st in
    cases (fst r)
    = map (fun c =>
             if existsb (fun k => N.eqb (id k) (id c) && writes dry_run t k) qs
             then escalated t c else c)
        (cases (fst st))
    /\ status_history (fst r)
       = status_history (fst st)
         ++ map (fun k => auto_row k (current_level k - 1))
              (filter (writes dry_run t) qs)
    /\ snd r
       = mkSummary (total_found (snd st))
           (escalated_count (snd st) + counted dry_run t Escalated qs)
           (skipped_count (snd st) + counted dry_run t Skipped qs)
           (error_count (snd st) + counted dry_run t Raised qs).
Proof.
  unfold counted.
  induction qs as [|k qs IH]; intros [db n] Hnd Hqs Hall; cbv zeta.
  - simpl. rewrite map_id, app_nil_r, !Z.add_0_r. now destruct n.
  - simpl in Hnd. inversion Hqs as [|? ? Hk Hqs']; subst.
    destruct (Hall k (or_introl eq_refl)) as (Hin & Hlive & Hopen).
    simpl in Hin.
    change (fold_left (sweep_body t dry_run) (k :: qs) (db, n))
      with (fold_left (sweep_body t dry_run) qs
              (sweep_body t dry_run (db, n) k)).
    assert (Estep : sweep_body t dry_run (db, n) k
                    = (snd (escalate_case k t dry_run db),
                       count (verdict dry_run t k) n)).
    { pose proof (escalate_case_verdict k t dry_run db Hnd Hin Hlive Hopen)
        as Hv.
      unfold handle_body.
      destruct (escalate_case k t dry_run db) as [o db1]. simpl in Hv.
      subst o. now destruct (verdict dry_run t k). }
    rewrite Estep.
    pose proof (escalate_case_writes k t dry_run db Hnd Hin Hlive Hopen) as Hw.
    set (db1 := snd (escalate_case k t dry_run db)) in *.
    assert (Hfresh : existsb (fun k0 => N.eqb (id k0) (id k)
                                        && writes dry_run t k0) qs = false).
    { apply not_true_is_false. intros Hex.
      apply existsb_exists in Hex. destruct Hex as (k' & Hk' & Ek').
      apply andb_true_iff in Ek'. destruct Ek' as [Ek' _].
      apply N.eqb_eq in Ek'. apply Hk. rewrite <- Ek'. now apply in_map. }
    assert (Hcounts :
              forall o,
                Z.of_nat
                  (List.length
                     (filter (fun k0 => Outcome_eqb (verdict dry_run t k0) o)
                        (k :: qs)))
                = (if Outcome_eqb (verdict dry_run t k) o then 1 else 0)
                  + Z.of_nat
                      (List.length
                         (filter
                            (fun k0 => Outcome_eqb (verdict dry_run t k0) o)
                            qs))).
    { intros o. simpl filter.
      destruct (Outcome_eqb (verdict dry_run t k) o); simpl List.length; lia. }
    rewrite !Hcounts.
    destruct (writes dry_run t k) eqn:Ew.
    + destruct Hw as [Hc Hh].
      assert (Hnd1 : NoDup (map id (cases db1)))
        by now rewrite Hc, map_id_put.
      assert (Hall1 : forall k', In k' qs ->
                        In k' (cases (fst (db1, count (verdict dry_run t k) n)))
                        /\ is_deleted k' = false /\ status k' = OPEN).
      { intros k' Hk'. destruct (Hall k' (or_intror Hk')) as (Hin' & Hrest).
        split; [|exact Hrest]. simpl. rewrite Hc.
        apply In_put_other; [exact Hin'|].
        simpl. intros E. apply Hk. rewrite <- E. now apply in_map. }
      destruct (IH (db1, count (verdict dry_run t k) n) Hnd1 Hqs' Hall1)
        as (Ec & Eh & En).
      cbv zeta in Ec, Eh, En. rewrite Ec, Eh, En. cbn [fst snd].
      rewrite Hc, Hh. simpl filter. rewrite Ew.
      split; [|split].
      * unfold put. rewrite map_map. apply map_ext_in. intros c Hcin.
        cbn [existsb].
        change (id (escalated t k)) with (id k).
        destruct (N.eqb (id c) (id k)) eqn:E.
        -- apply N.eqb_eq in E.
           pose proof (NoDup_key_eq id _ c k Hnd Hcin Hin E) as ->.
           change (id (escalated t k)) with (id k).
           rewrite Hfresh, N.eqb_refl, Ew. reflexivity.
        -- rewrite N.eqb_sym, E. reflexivity.
      * rewrite <- app_assoc. reflexivity.
      * destruct (verdict dry_run t k); cbn [count Outcome_eqb total_found
          escalated_count skipped_count error_count]; f_equal; lia.
    + assert (Hnd1 : NoDup (map id (cases db1))) by now rewrite Hw.
      assert (Hall1 : forall k', In k' qs ->
                        In k' (cases (fst (db1, count (verdict dry_run t k) n)))
                        /\ is_deleted k' = false /\ status k' = OPEN).
      { intros k' Hk'. simpl. rewrite Hw. apply Hall. now right. }
      destruct (IH (db1, count (verdict dry_run t k) n) Hnd1 Hqs' Hall1)
        as (Ec & Eh & En).
      cbv zeta in Ec, Eh, En. rewrite Ec, Eh, En. cbn [fst snd].
      rewrite Hw. simpl filter. rewrite Ew.
      split; [|split].
      * apply map_ext. intros c. cbn [existsb].
        now rewrite Ew, andb_false_r.
      * reflexivity.
      * destruct (verdict dry_run t k); cbn [count Outcome_eqb total_found
          escalated_count skipped_count error_count]; f_equal; lia.
Qed.

(** A dry run writes nothing. *)
Lemma dry_run_keeps (t : datetime) (qs : list Case) :
  forall st, fst (fold_left (sweep_body t true) qs st) = fst st.
Proof.
  induction qs as [|k qs IH]; intros [db n]; [reflexivity|].
  simpl fold_left. rewrite IH. unfold handle_body, _escalate_case.
  destruct (if current_level k =? CaseLevel.LEVEL_2
            then Some CaseLevel.LEVEL_1
            else if current_level k =? CaseLevel.LEVEL_1
                 then Some CaseLevel.LEVEL_0 else None); [|reflexivity].
  destruct can_escalate as [can|]; [|reflexivity].
  destruct (fst (can k)); [|reflexivity]. simpl.
  destruct is_sla_expired as [expired|]; [|reflexivity].
  destruct (expired k t); reflexivity.
Qed.

(** The candidates of the query are live and OPEN. *)
Lemma expired_cases_open (t : datetime) (db : DB) (n : Summary) :
  forall k, In k (expired_cases t db) ->
            In k (cases (fst (db, n))) /\ is_deleted k = false
            /\ status k = OPEN.
Proof.
  intros k Hk. apply expired_cases_candidate in Hk.
  destruct Hk as [Hin Hc]. unfold candidate, is_open in Hc.
  rewrite !andb_true_iff, negb_true_iff, CaseStatus_eqb_eq in Hc. tauto.
Qed.

(** X18. The sweep and its dry run, whatever the four lookups give.  On
    a database that has [select_for_update] either run ends in
    TransactionManagementError with nothing written.  On one that
    ignores it, and a table with unique keys: every candidate is
    counted once, as escalated, skipped or error according to
    [verdict]; a dry run changes nothing; the real run rewrites exactly
    the candidates it counts as escalated, each one level down with one
    history row, in the order of the query, and leaves every other row
    as it is.  The two runs count the same number of candidates as
    skipped, and their summaries agree when
    [calculate_sla_deadline_for_level] and [CASE_ESCALATED] are there;
    without [can_escalate] neither run counts an escalation. *)
Theorem sweep_outcomes (t : datetime) (db : DB) :
  NoDup (map id (cases db)) ->
  let found := expired_cases t db in
  let tally dry_run :=
    mkSummary (Z.of_nat (List.length found))
      (counted dry_run t Escalated found) (counted dry_run t Skipped found)
      (counted dry_run t Raised found) in
  (has_select_for_update = true ->
   forall dry_run, sweep t dry_run db = (db, TransactionManagementError))
  /\ (has_select_for_update = false ->
      sweep t true db = (db, Completed (tally true))
      /\ snd (sweep t false db) = Completed (tally false)
      /\ cases (fst (sweep t false db))
         = map (fun c => if candidate t c && passes t c
                         then escalated t c else c)
             (cases db)
      /\ status_history (fst (sweep t false db))
         = status_history db
           ++ map (fun k => auto_row k (current_level k - 1))
                (filter (passes t) found))
  /\ (forall dry_run,
        escalated_count (tally dry_run) + skipped_count (tally dry_run)
        + error_count (tally dry_run) = total_found (tally dry_run))
  /\ skipped_count (tally true) = skipped_count (tally false)
  /\ (calculate_sla_deadline_for_level <> None -> CASE_ESCALATED <> None ->
      tally true = tally false)
  /\ (can_escalate = None ->
      forall dry_run, escalated_count (tally dry_run) = 0).
Proof.
  intros Hnd found tally.
  destruct (expired_cases_rows t db Hnd) as [Hqs _].
  assert (Hloop : forall dry_run,
            let r := fold_left (sweep_body t dry_run) found
                       (db, mkSummary (Z.of_nat (List.length found)) 0 0 0) in
            cases (fst r)
            = map (fun c =>
                     if existsb (fun k => N.eqb (id k) (id c)
                                          && writes dry_run t k) found
                     then escalated t c else c) (cases db)
            /\ status_history (fst r)
               = status_history db
                 ++ map (fun k => auto_row k (current_level k - 1))
                      (filter (writes dry_run t) found)
            /\ snd r = tally dry_run).
  { intros dry_run.
    exact (sweep_loop dry_run t found
             (db, mkSummary (Z.of_nat (List.length found)) 0 0 0)
             Hnd Hqs (expired_cases_open t db _)). }
  assert (Hsame : forall k,
            Outcome_eqb (verdict true t k) Skipped
            = Outcome_eqb (verdict false t k) Skipped).
  { intros k. unfold verdict.
    destruct ((current_level k =? 2) || (current_level k =? 1));
      [|reflexivity].
    destruct can_escalate as [can|]; [|reflexivity].
    destruct (fst (can k)); [|reflexivity].
    destruct is_sla_expired as [expired|]; [|reflexivity].
    destruct (expired k t); [|reflexivity].
    destruct calculate_sla_deadline_for_level, CASE_ESCALATED; reflexivity. }
  split; [|split; [|split; [|split; [|split]]]].
  - intros E dry_run. unfold handle. now rewrite E.
  - intros E. unfold handle. rewrite E. fold found.
    destruct (Hloop true) as (_ & _ & Hn).
    destruct (Hloop false) as (Hc & Hh & Hn').
    cbv zeta in Hn, Hc, Hh, Hn'. cbn [fst snd].
    split; [|split; [|split]].
    + now rewrite dry_run_keeps, Hn.
    + now rewrite Hn'.
    + rewrite Hc. apply map_ext_in. intros c Hin.
      now rewrite (picked_row (writes false t) (candidate t) found
                     (cases db) c Hnd (expired_cases_candidate t db) Hin).
    + exact Hh.
  - intros dry_run. subst tally. cbn [escalated_count skipped_count
      error_count total_found]. unfold counted.
    clear Hloop Hqs. subst found.
    induction (expired_cases t db) as [|k qs IH]; [reflexivity|].
    simpl filter. destruct (verdict dry_run t k); simpl Outcome_eqb;
      cbv iota; simpl List.length; lia.
  - subst tally. cbn [skipped_count]. unfold counted. f_equal. f_equal.
    apply filter_ext. intros k. apply Hsame.
  - intros Hcalc Hev. subst tally. unfold counted.
    assert (Hv : forall k, verdict true t k = verdict false t k).
    { intros k. unfold verdict.
      destruct calculate_sla_deadline_for_level; [|congruence].
      destruct CASE_ESCALATED; [|congruence]. reflexivity. }
    f_equal; f_equal; f_equal; apply filter_ext; intros k; now rewrite Hv.
  - intros Hnone dry_run. subst tally. cbn [escalated_count]. unfold counted.
    replace (filter (fun k => Outcome_eqb (verdict dry_run t k) Escalated)
               found) with (@nil Case); [reflexivity|].
    symmetry. clear Hloop Hqs. subst found.
    induction (expired_cases t db) as [|k qs IH]; [reflexivity|].
    simpl. rewrite <- IH. unfold verdict. rewrite Hnone.
    destruct ((current_level k =? 2) || (current_level k =? 1)); reflexivity.
Qed.

End Sweep.

Lemma sweep_outcomes_witness :
  SweepProps.model_sweep 86460 true SweepProps.desk
  = (SweepProps.desk, Completed (mkSummary 1 1 0 0))
  /\ snd (SweepProps.model_sweep 86460 false SweepProps.desk)
     = Completed (mkSummary 1 1 0 0)
  /\ SweepProps.shipped_sweep false 86460 true SweepProps.desk
     = (SweepProps.desk, Completed (mkSummary 1 0 0 1))
  /\ SweepProps.shipped_sweep true 86460 true SweepProps.desk
     = (SweepProps.desk, TransactionManagementError).
Proof.
  assert (Hnd : NoDup (map id (cases SweepProps.desk)))
    by (repeat constructor; simpl; intuition discriminate).
  pose proof (sweep_outcomes (Some SweepProps.can_escalate_model)
                (Some SweepProps.is_sla_expired_model)
                (Some SweepProps.calculate_sla_deadline_for_level_model)
                (Some "case.escalated"%string) false 86460 SweepProps.desk Hnd)
    as Hmodel.
  pose proof (sweep_outcomes Case_can_escalate Case_is_sla_expired
                Case_calculate_sla_deadline_for_level
                AuditEventType_CASE_ESCALATED false 86460 SweepProps.desk Hnd)
    as Hsqlite.
  pose proof (sweep_outcomes Case_can_escalate Case_is_sla_expired
                Case_calculate_sla_deadline_for_level
                AuditEventType_CASE_ESCALATED true 86460 SweepProps.desk Hnd)
    as Hpostgres.
  cbv zeta in Hmodel, Hsqlite, Hpostgres.
  destruct Hmodel as (_ & Hmodel & _).
  destruct (Hmodel eq_refl) as (Hdry & Hreal & _).
  destruct Hsqlite as (_ & Hsqlite & _).
  destruct (Hsqlite eq_refl) as (Hdry' & _).
  destruct Hpostgres as (Hpostgres & _).
  split; [exact Hdry|]. split; [exact Hreal|].
  split; [exact Hdry'|exact (Hpostgres eq_refl true)].
Defined.

End SweepRunProps.

(** ** The case endpoints: refusals, frame, forwarding, submission *)

Module EndpointProps.

Import CaseProps LifecycleProps.

(** What a transition endpoint may do to the database: nothing, or save
    one row under the addressed key and append one history row. *)
Definition rewrites (cid : UUID) (now : datetime) (db db' : DB) : Prop :=
  db' = db
  \/ exists c' h,
       id c' = cid
       /\ db' = add_history h (set_cases (save c' now (cases db)) db).

Lemma solve_rewrites user cid data now db :
  rewrites cid now db (snd (SolveCaseView.as_view cid data now user db)).
Proof.
  unfold SolveCaseView.as_view.
  destruct (dispatch_cases SolveCaseView.permission_classes
              (SolveCaseView.post cid data now) user db) as [E|(u & _ & E)];
    rewrite E; [now left|].
  unfold SolveCaseView.post.
  destruct (get (cases db) cid) as [c|] eqn:Hget; [|now left].
  destruct (CaseStatus_eqb (status c) OPEN); simpl; [|now left].
  right. do 2 eexists. split; [|reflexivity].
  simpl. now apply get_Some in Hget.
Qed.

Lemma reject_rewrites user cid data now db :
  rewrites cid now db (snd (RejectCaseView.as_view cid data now user db)).
Proof.
  unfold RejectCaseView.as_view.
  destruct (dispatch_cases RejectCaseView.permission_classes
              (RejectCaseView.post cid data now) user db) as [E|(u & _ & E)];
    rewrite E; [now left|].
  unfold RejectCaseView.post.
  destruct (get (cases db) cid) as [c|] eqn:Hget; [|now left].
  destruct (CaseStatus_eqb (status c) OPEN); simpl; [|now left].
  destruct (truthy (dict_get data "reason" "")); simpl; [|now left].
  right. do 2 eexists. split; [|reflexivity].
  simpl. now apply get_Some in Hget.
Qed.

Lemma forward_rewrites user cid data now db :
  rewrites cid now db (snd (ForwardCaseView.as_view cid data now user db)).
Proof.
  unfold ForwardCaseView.as_view.
  destruct (dispatch_cases ForwardCaseView.permission_classes
              (ForwardCaseView.post cid data now) user db) as [E|(u & _ & E)];
    rewrite E; [now left|].
  unfold ForwardCaseView.post.
  destruct (get (cases db) cid) as [c|] eqn:Hget; [|now left].
  destruct (CaseStatus_eqb (status c) OPEN); simpl; [|now left].
  destruct (current_level c <=? CaseLevel.LEVEL_0); simpl; [now left|].
  right. do 2 eexists. split; [|reflexivity].
  simpl. now apply get_Some in Hget.
Qed.

Lemma rewrites_frame cid now db db' :
  rewrites cid now db db' ->
  incidents db' = incidents db
  /\ audit_log db' = audit_log db
  /\ map id (cases db') = map id (cases db)
  /\ (forall k, k <> cid -> get (cases db') k = get (cases db) k)
  /\ (forall c, id c <> cid -> (In c (cases db') <-> In c (cases db))).
Proof.
  intros [E|(c1 & h & Hid & E)]; subst db'.
  - repeat split; auto.
  - simpl. repeat split; auto.
    + rewrite save_put. apply map_id_put.
    + intros k Hk. apply get_save_other. congruence.
    + rewrite save_put. intros Hin. apply In_put in Hin.
      destruct Hin as [->|[Hin _]]; [|exact Hin].
      exfalso. rewrite touch_id in H. congruence.
    + rewrite save_put. intros Hin. apply In_put_other; [exact Hin|].
      rewrite touch_id. congruence.
Qed.

(** X19. The transition endpoints touch one case.  Whoever calls solve,
    reject or forward for the key [cid], with whatever input: the
    incident table and the audit log are left as they are, no case is
    added or removed, every row with another key is left as it is, and
    a lookup of any other key gives what it gave before. *)
Theorem endpoints_touch_one_case (user : RequestUser) (cid : UUID)
  (data : Dict) (now : datetime) (db : DB) :
  forall db',
    db' = snd (SolveCaseView.as_view cid data now user db)
    \/ db' = snd (RejectCaseView.as_view cid data now user db)
    \/ db' = snd (ForwardCaseView.as_view cid data now user db) ->
    incidents db' = incidents db
    /\ audit_log db' = audit_log db
    /\ map id (cases db') = map id (cases db)
    /\ (forall k, k <> cid -> get (cases db') k = get (cases db) k)
    /\ (forall c, id c <> cid -> (In c (cases db') <-> In c (cases db))).
Proof.
  intros db' [-> | [-> | ->]]; apply rewrites_frame with (now := now).
  - apply solve_rewrites.
  - apply reject_rewrites.
  - apply forward_rewrites.
Qed.

Lemma endpoints_touch_one_case_witness :
  get (cases (snd (SolveCaseView.as_view 1%N [] 300
                     (Some VisibilityProps.captain) SweepProps.desk))) 2%N
  = Some SweepProps.solved_in_time.
Proof.
  destruct (endpoints_touch_one_case (Some VisibilityProps.captain) 1%N []
              300 SweepProps.desk _ (or_introl eq_refl))
    as (_ & _ & _ & H & _).
  rewrite H; [reflexivity|discriminate].
Defined.



End EndpointProps.

(** ** What forwarding, submitting and noting write *)

Module EffectProps.

Import CaseProps LifecycleProps VisibilityProps CaseViews.









End EffectProps.

(** ** Case notes, invite codes and the client address *)

Module NoteProps.

Import CaseViews.


End NoteProps.

Module InviteUseProps.

Import InviteCodes InviteProps.

Lemma upper_ascii_twice (c : ascii) : upper_ascii (upper_ascii c) = upper_ascii c.
Proof.
  unfold upper_ascii.
  destruct ((97 <=? nat_of_ascii c)%nat && (nat_of_ascii c <=? 122)%nat)
    eqn:E.
  - apply andb_true_iff in E. destruct E as [E1 E2].
    apply Nat.leb_le in E1. apply Nat.leb_le in E2.
    rewrite nat_ascii_embedding by lia.
    destruct (Nat.leb_spec 97 (nat_of_ascii c - 32)); [lia|reflexivity].
  - now rewrite E.
Qed.

Lemma upper_twice (s : string) : upper (upper s) = upper s.
Proof.
  induction s as [|c s IH]; simpl; [reflexivity|].
  now rewrite upper_ascii_twice, IH.
Qed.

(** X24. The answers of the invite check.  The code is looked up in
    upper case, so the check does not depend on the case of the letters
    typed.  It returns a live row with that code that is valid, or one
    of three messages: "Invalid invite code." when no live row has the
    code; "This invite code has already been used." when the row found
    is exhausted, expired or not; "This invite code has expired." when
    it is not exhausted and [now] is past its expiry.  The messages
    "has been revoked" and "is no longer valid" are never given: a
    soft-deleted code is reported as invalid. *)
Theorem invite_check_answers (value : string) (now : datetime)
  (table : list InviteCode) :
  validate_invite_code (upper value) now table
  = validate_invite_code value now table
  /\ match validate_invite_code value now table with
     | inl c =>
         In c table /\ code c = upper value /\ is_valid c now = true
     | inr message =>
         (message = "Invalid invite code."%string
          /\ forall c, In c table -> code c = upper value ->
                       is_deleted c = true)
         \/ (message = "This invite code has already been used."%string
             /\ exists c, In c table /\ code c = upper value
                          /\ is_deleted c = false
                          /\ max_uses c <= use_count c)
         \/ (message = "This invite code has expired."%string
             /\ exists c, In c table /\ code c = upper value
                          /\ is_deleted c = false
                          /\ use_count c < max_uses c
                          /\ expires_at c < now)
     end.
Proof.
  split.
  - unfold validate_invite_code. now rewrite upper_twice.
  - unfold validate_invite_code.
    destruct (find _ (filter _ table)) as [c|] eqn:F.
    + apply find_some in F. destruct F as [Hin Hcode].
      apply filter_In in Hin. destruct Hin as [Hin Hlive].
      apply negb_true_iff in Hlive. apply String.eqb_eq in Hcode.
      unfold is_valid. rewrite Hlive.
      destruct (Z.geb_spec (use_count c) (max_uses c)); simpl.
      * right. left. split; [reflexivity|]. exists c. auto.
      * destruct (Z.gtb_spec now (expires_at c)); simpl.
        -- right. right. split; [reflexivity|]. exists c.
           repeat split; auto.
        -- split; [exact Hin|]. split; [exact Hcode|]. rewrite Hlive.
           destruct (Z.geb_spec (use_count c) (max_uses c)); [lia|].
           destruct (Z.gtb_spec now (expires_at c)); [lia|reflexivity].
    + left. split; [reflexivity|]. intros c Hin Hcode.
      destruct (is_deleted c) eqn:Ed; [reflexivity|].
      assert (Hc : In c (filter (fun c => negb (is_deleted c)) table))
        by (apply filter_In; now rewrite Ed).
      pose proof (find_none _ _ F c Hc) as H. simpl in H.
      apply String.eqb_neq in H. contradiction.
Qed.

(** Registrations with the same code, one after the other. *)
Fixpoint use_all (value : string) (users : list UUID) (now : datetime)
  (table : list InviteCode) : list InviteCode + string :=
  match users with
  | [] => inl table
  | u :: rest =>
      match use_invite value u now table with
      | inr message => inr message
      | inl (_, table') => use_all value rest now table'
      end
  end.

Lemma save_used (table : list InviteCode) (c : InviteCode) (u : UUID)
  (now : datetime) :
  NoDup (map id table) -> In c table ->
  map id (save (use c u now) table) = map id table
  /\ map code (save (use c u now) table) = map code table
  /\ In (use c u now) (save (use c u now) table).
Proof.
  intros Hnd Hin. unfold save. rewrite !map_map. repeat split.
  - apply map_ext. intros r. simpl.
    destruct (N.eqb_spec (id r) (id c)); simpl; congruence.
  - apply map_ext_in. intros r Hr. simpl.
    destruct (N.eqb_spec (id r) (id c)) as [E|E]; [|reflexivity].
    simpl. f_equal. symmetry.
    now apply (LifecycleProps.NoDup_key_eq id table).
  - apply in_map_iff. exists c. simpl. now rewrite N.eqb_refl.
Qed.

Lemma use_all_exhausts (value : string) (now : datetime) (users : list UUID) :
  forall (table : list InviteCode) (c : InviteCode),
    NoDup (map id table) -> NoDup (map code table) ->
    In c table -> code c = upper value ->
    is_deleted c = false -> now <= expires_at c ->
    Z.of_nat (List.length users) = max_uses c - use_count c ->
    (use_count c = max_uses c -> is_used c = true) ->
    exists table' c',
      use_all value users now table = inl table'
      /\ NoDup (map code table') /\ In c' table'
      /\ id c' = id c /\ code c' = code c /\ is_deleted c' = false
      /\ use_count c' = max_uses c /\ max_uses c' = max_uses c
      /\ is_used c' = true.
Proof.
  induction users as [|u users IH];
    intros table c Hids Hcodes Hin Hcode Hlive Hexp Hlen Hused.
  - simpl in Hlen. exists table, c. simpl.
    repeat split; auto; try lia. apply Hused. lia.
  - simpl List.length in Hlen.
    assert (Hvalid : is_valid c now = true).
    { apply is_valid_iff. unfold valid_until_expiry. repeat split; auto; lia. }
    assert (Hstep : use_invite value u now table
                    = inl (use c u now, save (use c u now) table)).
    { unfold use_invite, validate_invite_code.
      rewrite (find_by_code table c (upper value) Hcodes Hin Hcode), Hlive.
      now rewrite Hvalid. }
    destruct (save_used table c u now Hids Hin) as (Hids1 & Hcodes1 & Hin1).
    destruct (IH (save (use c u now) table) (use c u now)) as (t & c' & H);
      try (simpl; auto; lia).
    + now rewrite Hids1.
    + now rewrite Hcodes1.
    + simpl. intros E.
      destruct (Z.geb_spec (use_count c + 1) (max_uses c)); [reflexivity|lia].
    + exists t, c'. simpl use_all. rewrite Hstep. exact H.
Qed.

(** X25. An invite code runs out.  With unique keys and codes, a valid
    code with [max_uses - use_count] uses left admits exactly that many
    registrations in a row (before its expiry): they all succeed, the row
    then has [use_count = max_uses] and [is_used] set, and every later
    attempt, by anyone at any time, is refused with "This invite code
    has already been used." *)
Theorem invite_runs_out (table : list InviteCode) (c : InviteCode)
  (value : string) (now : datetime) (users : list UUID) :
  NoDup (map id table) -> NoDup (map code table) ->
  In c table -> code c = upper value -> is_valid c now = true ->
  Z.of_nat (List.length users) = max_uses c - use_count c ->
  exists table' c',
    use_all value users now table = inl table'
    /\ In c' table' /\ id c' = id c
    /\ use_count c' = max_uses c /\ is_used c' = true
    /\ forall u later,
         use_invite value u later table'
         = inr "This invite code has already been used."%string.
Proof.
  intros Hids Hcodes Hin Hcode Hvalid Hlen.
  apply is_valid_iff in Hvalid. unfold valid_until_expiry in Hvalid.
  destruct Hvalid as (Hlive & Hcount & Hexp).
  destruct (use_all_exhausts value now users table c Hids Hcodes Hin Hcode
              Hlive Hexp Hlen) as (t & c' & Hrun & Hcodes' & Hin' & Hid
                                   & Hcode' & Hlive' & Hfull & Hmax & Hused);
    [lia|].
  exists t, c'. repeat split; auto.
  intros u later. unfold use_invite, validate_invite_code.
  rewrite (find_by_code t c' (upper value) Hcodes' Hin') by congruence.
  rewrite Hlive'. unfold is_valid. rewrite Hlive'.
  destruct (Z.geb_spec (use_count c') (max_uses c')); [reflexivity|lia].
Qed.

Definition welcome : InviteCode :=
  mkInvite 1%N false "WELCOME" 7%N false None None 1000 2 0.

Lemma invite_runs_out_witness :
  exists table',
    use_all "welcome" [21%N; 22%N] 500 [welcome] = inl table'
    /\ use_invite "welcome" 23%N 501 table'
       = inr "This invite code has already been used."%string.
Proof.
  assert (Hids : NoDup (map id [welcome]))
    by (repeat constructor; simpl; tauto).
  assert (Hcodes : NoDup (map code [welcome]))
    by (repeat constructor; simpl; tauto).
  destruct (invite_runs_out [welcome] welcome "welcome" 500 [21%N; 22%N]
              Hids Hcodes (or_introl eq_refl) eq_refl eq_refl eq_refl)
    as (t & c' & H1 & _ & _ & _ & _ & H2).
  exists t. split; [exact H1|apply H2].
Defined.

End InviteUseProps.

Module ClientAddressProps.

Import Backends.

Fixpoint comma_free (s : string) : bool :=
  match s with
  | EmptyString => true
  | String c s' => negb (Ascii.eqb c ","%char) && comma_free s'
  end.

Lemma before_comma_first (client rest : string) :
  comma_free client = true ->
  before_comma (client ++ String ","%char rest)%string = client.
Proof.
  induction client as [|c client IH]; simpl; [reflexivity|].
  intros H. apply andb_true_iff in H. destruct H as [Hc H].
  apply negb_true_iff in Hc. rewrite Hc. now rewrite IH.
Qed.

Lemma before_comma_whole (s : string) :
  comma_free s = true -> before_comma s = s.
Proof.
  induction s as [|c s IH]; simpl; [reflexivity|].
  intros H. apply andb_true_iff in H. destruct H as [Hc H].
  apply negb_true_iff in Hc. rewrite Hc. now rewrite IH.
Qed.

(** X26. The client address.  Without an [X-Forwarded-For] header, or
    with an empty one, the address is [REMOTE_ADDR], or "unknown" when
    that is missing too.  With a header that lists several hops, it is
    the first hop, stripped of white space, and with a single hop that
    hop, stripped; [REMOTE_ADDR] is then not consulted, so a header that
    starts with a comma gives the empty string. *)
Theorem client_address (request : Request) :
  let forwarded := dict_lookup (META request) "HTTP_X_FORWARDED_FOR" in
  (forwarded = None \/ forwarded = Some EmptyString ->
   _get_ip request = dict_get (META request) "REMOTE_ADDR" "unknown")
  /\ (forall client rest,
        comma_free client = true ->
        forwarded = Some (client ++ String ","%char rest)%string ->
        _get_ip request = strip client)
  /\ (forall hop,
        comma_free hop = true -> hop <> EmptyString ->
        forwarded = Some hop -> _get_ip request = strip hop)
  /\ (forall rest,
        forwarded = Some (String ","%char rest) ->
        _get_ip request = EmptyString).
Proof.
  cbv zeta. unfold _get_ip. repeat split.
  - intros [-> | ->]; reflexivity.
  - intros client rest Hc ->.
    rewrite before_comma_first by exact Hc.
    destruct client; reflexivity.
  - intros hop Hc Hne ->. rewrite before_comma_whole by exact Hc.
    destruct hop; [contradiction|reflexivity].
  - intros rest ->. reflexivity.
Qed.

End ClientAddressProps.

(** ** What holds of every database the operations can produce *)

Module ReachableProps.

Import CaseProps LifecycleProps AutoEscalateCases BulkProps.

(** The bookkeeping columns of a case row agree with its status and
    level. *)
Definition well_formed (c : Case) : Prop :=
  is_deleted c = false
  /\ 0 <= current_level c <= 2
  /\ escalation_count c = 2 - current_level c
  /\ (last_escalated_at c = None <-> current_level c = 2)
  /\ (solved_by c <> None <-> status c = SOLVED)
  /\ (solved_at c <> None <-> status c = SOLVED)
  /\ (rejected_by c <> None <-> status c = REJECTED)
  /\ (rejected_at c <> None <-> status c = REJECTED)
  /\ (status c = REJECTED -> rejection_reason c <> EmptyString)
  /\ (status c <> SOLVED -> solution_notes c = EmptyString).

Definition rows_well_formed (db : DB) : Prop :=
  forall c, In c (cases db) -> well_formed c.

(** The assignments the operations make to an OPEN case. *)
Inductive successor (now : datetime) (c : Case) : Case -> Prop :=
| succ_solved u notes : successor now c (assign_solved c u notes now)
| succ_rejected u why :
    truthy why = true -> successor now c (assign_rejected c u why now)
| succ_escalated deadline :
    current_level c <> 0 ->
    successor now c (assign_escalated c (current_level c - 1) now deadline)
| succ_closed : successor now c (assign_closed c).

Lemma well_formed_successor (now t : datetime) (c c' : Case) :
  well_formed c -> status c = OPEN -> successor now c c' ->
  well_formed (touch c' t).
Proof.
  unfold well_formed.
  intros (Hd & Hl & He & Hle & Hsb & Hsa & Hrb & Hra & Hrr & Hsn) Ho Hs.
  rewrite Ho in *.
  assert (solved_by c = None)
    by (destruct (solved_by c); [exfalso|reflexivity];
        assert (OPEN = SOLVED) by (apply Hsb; discriminate); discriminate).
  assert (solved_at c = None)
    by (destruct (solved_at c); [exfalso|reflexivity];
        assert (OPEN = SOLVED) by (apply Hsa; discriminate); discriminate).
  assert (rejected_by c = None)
    by (destruct (rejected_by c); [exfalso|reflexivity];
        assert (OPEN = REJECTED) by (apply Hrb; discriminate); discriminate).
  assert (rejected_at c = None)
    by (destruct (rejected_at c); [exfalso|reflexivity];
        assert (OPEN = REJECTED) by (apply Hra; discriminate); discriminate).
  assert (solution_notes c = EmptyString) by (apply Hsn; discriminate).
  destruct Hs as [u notes|u why Hwhy|deadline Hlvl|];
    cbn [touch assign_solved assign_rejected assign_escalated assign_closed
           is_deleted current_level escalation_count last_escalated_at
           solved_by solved_at rejected_by rejected_at status
           rejection_reason solution_notes];
    rewrite ?Ho;
    repeat split; intros; try assumption; try discriminate; try congruence;
    try lia;
    try (apply Hle; assumption);
    try (apply Hle; lia).
  destruct why; [discriminate|congruence].
Qed.

(** What a transition endpoint does to the case table: nothing, or it
    saves a successor of an OPEN row. *)
Definition advances (now : datetime) (db db' : DB) : Prop :=
  db' = db
  \/ exists c c',
       In c (cases db) /\ status c = OPEN /\ successor now c c'
       /\ cases db' = save c' now (cases db).

Lemma solve_advances user cid data now db :
  advances now db (snd (SolveCaseView.as_view cid data now user db)).
Proof.
  unfold SolveCaseView.as_view.
  destruct (dispatch_cases SolveCaseView.permission_classes
              (SolveCaseView.post cid data now) user db) as [E|(u & _ & E)];
    rewrite E; [now left|].
  unfold SolveCaseView.post.
  destruct (get (cases db) cid) as [c|] eqn:Hget; [|now left].
  destruct (CaseStatus_eqb (status c) OPEN) eqn:Hs; simpl; [|now left].
  apply CaseStatus_eqb_eq in Hs. apply get_Some in Hget.
  right. exists c. eexists. repeat split; [tauto|exact Hs|constructor].
Qed.

Lemma reject_advances user cid data now db :
  advances now db (snd (RejectCaseView.as_view cid data now user db)).
Proof.
  unfold RejectCaseView.as_view.
  destruct (dispatch_cases RejectCaseView.permission_classes
              (RejectCaseView.post cid data now) user db) as [E|(u & _ & E)];
    rewrite E; [now left|].
  unfold RejectCaseView.post.
  destruct (get (cases db) cid) as [c|] eqn:Hget; [|now left].
  destruct (CaseStatus_eqb (status c) OPEN) eqn:Hs; simpl; [|now left].
  destruct (truthy (dict_get data "reason" "")) eqn:Hr; simpl; [|now left].
  apply CaseStatus_eqb_eq in Hs. apply get_Some in Hget.
  right. exists c. eexists.
  repeat split; [tauto|exact Hs|now constructor].
Qed.

Lemma forward_advances user cid data now db :
  advances now db (snd (ForwardCaseView.as_view cid data now user db)).
Proof.
  unfold ForwardCaseView.as_view.
  destruct (dispatch_cases ForwardCaseView.permission_classes
              (ForwardCaseView.post cid data now) user db) as [E|(u & _ & E)];
    rewrite E; [now left|].
  unfold ForwardCaseView.post, CaseLevel.LEVEL_0.
  destruct (get (cases db) cid) as [c|] eqn:Hget; [|now left].
  destruct (CaseStatus_eqb (status c) OPEN) eqn:Hs; simpl; [|now left].
  destruct (Z.leb_spec (current_level c) 0); simpl; [now left|].
  apply CaseStatus_eqb_eq in Hs. apply get_Some in Hget.
  right. exists c. eexists.
  repeat split; [tauto|exact Hs|constructor; lia].
Qed.

Lemma advances_well_formed now db db' :
  advances now db db' -> rows_well_formed db -> rows_well_formed db'.
Proof.
  intros [->|(c & c' & Hin & Ho & Hs & Hc)] Hwf; [exact Hwf|].
  intros r Hr. rewrite Hc, save_put in Hr. apply In_put in Hr.
  destruct Hr as [->|[Hr _]]; [|now apply Hwf].
  eapply well_formed_successor; eauto.
Qed.

Lemma submit_well_formed saves data now user db :
  rows_well_formed db ->
  rows_well_formed (snd (IncidentBroadcastView.as_view saves data now user db)).
Proof.
  intros Hwf. unfold IncidentBroadcastView.as_view.
  destruct (dispatch_cases IncidentBroadcastView.permission_classes
              (IncidentBroadcastView.post saves data now) user db)
    as [E|(u & _ & E)]; rewrite E; [exact Hwf|].
  unfold IncidentBroadcastView.post.
  destruct (truthy (strip (dict_get data "text_content" ""))); simpl;
    [|exact Hwf].
  destruct (IncidentBroadcastView.saves saves (dict_lookup data "latitude")
            && IncidentBroadcastView.saves saves
                 (dict_lookup data "longitude")); simpl; [|exact Hwf].
  intros c Hc. simpl in Hc. apply in_app_or in Hc.
  destruct Hc as [Hc|[<-|[]]]; [now apply Hwf|].
  unfold well_formed, CaseLevel.LEVEL_2. simpl.
  repeat split; intros; try reflexivity; try discriminate; try lia;
    congruence.
Qed.

Lemma rewritten_rows_well_formed (cond : Case -> bool) (F : Case -> Case)
  (table : list Case) :
  (forall c, In c table -> well_formed c) ->
  (forall c, In c table -> cond c = true -> well_formed (F c)) ->
  forall c, In c (map (fun c => if cond c then F c else c) table) ->
            well_formed c.
Proof.
  intros Hwf HF c Hc. apply in_map_iff in Hc. destruct Hc as (c0 & <- & Hin).
  destruct (cond c0) eqn:E; auto.
Qed.

Lemma force_close_well_formed admin selected now db :
  NoDup (map id (cases db)) -> rows_well_formed db ->
  rows_well_formed (snd (CaseAdmin.force_close_case admin selected now db)).
Proof.
  intros Hnd Hwf.
  destruct (queryset_rows selected db Hnd) as [Hqs Hrows].
  pose proof (force_close_loop admin now (CaseAdmin.queryset selected db)
                (db, 0, 0) Hnd Hqs
                (fun k Hk => conj (proj1 (Hrows k Hk)) I)) as Hloop.
  cbv zeta in Hloop. unfold CaseAdmin.force_close_case.
  destruct (fold_left (CaseAdmin.force_close_body admin now)
              (CaseAdmin.queryset selected db) (db, 0, 0))
    as [[db1 a] b] eqn:Efold.
  unfold tables in Hloop. simpl in Hloop. destruct Hloop as (Hc & _).
  simpl. intros c Hin. rewrite Hc in Hin. revert c Hin.
  apply rewritten_rows_well_formed; [exact Hwf|].
  intros c Hin Hcond.
  rewrite (picked_row is_open (picked selected)
             (CaseAdmin.queryset selected db) (cases db) c Hnd
             (queryset_picked selected db) Hin) in Hcond.
  apply andb_true_iff in Hcond. destruct Hcond as [_ Ho].
  apply CaseStatus_eqb_eq in Ho.
  unfold closed.
  apply (well_formed_successor now now c (assign_closed c));
    [exact (Hwf c Hin)|exact Ho|apply succ_closed].
Qed.

Lemma force_escalate_well_formed admin selected now db :
  NoDup (map id (cases db)) -> rows_well_formed db ->
  rows_well_formed (snd (CaseAdmin.force_escalate_case admin selected now db)).
Proof.
  intros Hnd Hwf.
  destruct (queryset_rows selected db Hnd) as [Hqs Hrows].
  pose proof (force_escalate_loop admin now (CaseAdmin.queryset selected db)
                (db, 0, 0) Hnd Hqs
                (fun k Hk => conj (proj1 (Hrows k Hk)) I)) as Hloop.
  cbv zeta in Hloop. unfold CaseAdmin.force_escalate_case.
  destruct (fold_left (CaseAdmin.force_escalate_body admin now)
              (CaseAdmin.queryset selected db) (db, 0, 0))
    as [[db1 a] b] eqn:Efold.
  unfold tables in Hloop. simpl in Hloop. destruct Hloop as (Hc & _).
  simpl. intros c Hin. rewrite Hc in Hin. revert c Hin.
  apply rewritten_rows_well_formed; [exact Hwf|].
  intros c Hin Hcond.
  rewrite (picked_row can_go_down (picked selected)
             (CaseAdmin.queryset selected db) (cases db) c Hnd
             (queryset_picked selected db) Hin) in Hcond.
  apply andb_true_iff in Hcond. destruct Hcond as [_ Hg].
  unfold can_go_down, is_open in Hg.
  apply andb_true_iff in Hg. destruct Hg as [Ho Hl].
  apply CaseStatus_eqb_eq in Ho. apply negb_true_iff, Z.eqb_neq in Hl.
  unfold pushed_down.
  apply (well_formed_successor now now c
           (assign_escalated c (current_level c - 1) now
              (now + timedelta_hours 24)));
    [exact (Hwf c Hin)|exact Ho|now apply succ_escalated].
Qed.

Section Runs.

Variable can_escalate : option (Case -> bool * string).
Variable is_sla_expired : option (Case -> datetime -> bool).
Variable calculate_sla_deadline_for_level : option (Z -> datetime -> datetime).
Variable CASE_ESCALATED : option string.
Variable has_select_for_update : bool.
Variable DecimalField_saves : string -> bool.

Local Abbreviation run_ops :=
  (run can_escalate is_sla_expired calculate_sla_deadline_for_level
     CASE_ESCALATED has_select_for_update DecimalField_saves).
Local Abbreviation sweep :=
  (handle can_escalate is_sla_expired
     calculate_sla_deadline_for_level CASE_ESCALATED has_select_for_update).

Lemma sweep_well_formed now dry_run db :
  NoDup (map id (cases db)) -> rows_well_formed db ->
  rows_well_formed (fst (sweep now dry_run db)).
Proof.
  intros Hnd Hwf. unfold handle.
  destruct has_select_for_update; [exact Hwf|].
  destruct (expired_cases_rows now db Hnd) as [Hqs _].
  pose proof (SweepRunProps.sweep_loop can_escalate is_sla_expired
                calculate_sla_deadline_for_level CASE_ESCALATED
                dry_run now (expired_cases now db)
                (db, mkSummary (Z.of_nat (List.length (expired_cases now db)))
                       0 0 0)
                Hnd Hqs (SweepRunProps.expired_cases_open now db _)) as Hloop.
  cbv zeta in Hloop. destruct Hloop as (Hc & _).
  cbn [fst]. intros c Hin. rewrite Hc in Hin. revert c Hin.
  apply rewritten_rows_well_formed; [exact Hwf|].
  intros c Hin Hcond.
  rewrite (picked_row
             (SweepRunProps.writes can_escalate is_sla_expired
                calculate_sla_deadline_for_level CASE_ESCALATED dry_run now)
             (SweepRunProps.candidate now) (expired_cases now db)
             (cases db) c Hnd
             (SweepRunProps.expired_cases_candidate now db) Hin) in Hcond.
  apply andb_true_iff in Hcond. destruct Hcond as [Hcand _].
  unfold SweepRunProps.candidate, is_open in Hcand.
  rewrite !andb_true_iff, CaseStatus_eqb_eq in Hcand.
  destruct Hcand as [[[_ Ho] _] Hl].
  apply negb_true_iff, Z.eqb_neq in Hl.
  exact (well_formed_successor now now c _ (Hwf c Hin) Ho
           (succ_escalated now c
              (new_deadline calculate_sla_deadline_for_level
                 (current_level c - 1) now) Hl)).
Qed.

Lemma apply_op_well_formed (op : Op) (db : DB) :
  NoDup (map id (cases db)) -> rows_well_formed db ->
  rows_well_formed
    (apply_op can_escalate is_sla_expired calculate_sla_deadline_for_level
       CASE_ESCALATED has_select_for_update DecimalField_saves op db).
Proof.
  intros Hnd Hwf. destruct op; simpl.
  - now apply submit_well_formed.
  - eapply advances_well_formed; [apply solve_advances|exact Hwf].
  - eapply advances_well_formed; [apply reject_advances|exact Hwf].
  - eapply advances_well_formed; [apply forward_advances|exact Hwf].
  - now apply force_escalate_well_formed.
  - now apply force_close_well_formed.
  - now apply sweep_well_formed.
Qed.

Lemma run_well_formed (ops : list Op) :
  forall db, Inv db -> rows_well_formed db ->
             Inv (run_ops ops db) /\ rows_well_formed (run_ops ops db).
Proof.
  induction ops as [|op ops IH]; intros db HI Hwf; simpl; [auto|].
  apply IH.
  - apply (Inv_steps db); [exact HI|].
    apply apply_op_steps. apply (inv_keys db HI).
  - apply apply_op_well_formed; [apply (inv_keys db HI)|exact Hwf].
Qed.

(** X27. The tables stay consistent.  After any sequence of operations
    (submit, solve, reject, forward, force-escalate, force-close, sweep;
    any callers, inputs and times) from the empty database: no two cases
    share a key, every level is 0, 1 or 2, every history row belongs to
    a case of the table, and no case is soft-deleted. *)
Theorem reachable_tables_consistent (ops : list Op) :
  let db := run_ops ops empty in
  NoDup (map id (cases db))
  /\ (forall c, In c (cases db) ->
        0 <= current_level c <= 2 /\ is_deleted c = false)
  /\ (forall h, In h (status_history db) ->
        exists c, In c (cases db) /\ id c = h_case h).
Proof.
  cbv zeta.
  destruct (run_well_formed ops empty Inv_empty) as [HI Hwf];
    [intros c []|].
  split; [apply (inv_keys _ HI)|]. split.
  - intros c Hc. destruct (Hwf c Hc) as (Hd & Hl & _). auto.
  - intros h Hh. pose proof (inv_fk _ HI h Hh) as Hin.
    apply in_map_iff in Hin. destruct Hin as (c & E & Hc). eauto.
Qed.

(** X28. The bookkeeping of a case always agrees with its status and
    level.  After any sequence of operations from the empty database,
    every case has [escalation_count = 2 - current_level]; it has an
    escalation time exactly when it is below level 2; [solved_by] and
    [solved_at] are set exactly when it is SOLVED, [rejected_by] and
    [rejected_at] exactly when it is REJECTED; a REJECTED case has a
    non-empty rejection reason; a case that is not SOLVED has no
    solution notes. *)
Theorem reachable_rows_well_formed (ops : list Op) (c : Case) :
  In c (cases (run_ops ops empty)) ->
  escalation_count c = 2 - current_level c
  /\ (last_escalated_at c = None <-> current_level c = 2)
  /\ (solved_by c <> None <-> status c = SOLVED)
  /\ (solved_at c <> None <-> status c = SOLVED)
  /\ (rejected_by c <> None <-> status c = REJECTED)
  /\ (rejected_at c <> None <-> status c = REJECTED)
  /\ (status c = REJECTED -> rejection_reason c <> EmptyString)
  /\ (status c <> SOLVED -> solution_notes c = EmptyString).
Proof.
  intros Hc.
  destruct (run_well_formed ops empty Inv_empty) as [_ Hwf];
    [intros x []|].
  destruct (Hwf c Hc) as (_ & _ & H). exact H.
Qed.

End Runs.

(** A submission by a citizen, forwarded by an officer. *)
Definition first_report : list Op :=
  [Submit (Some Scenarios.reporter) [("text_content", "pothole")]%string 500;
   Forward (Some Scenarios.officer) 1%N [] 600].

(** The run of [first_report] with the classes of the sources, on a
    database that ignores [select_for_update]. *)
Definition after_first_report : DB :=
  run Case_can_escalate Case_is_sla_expired
    Case_calculate_sla_deadline_for_level AuditEventType_CASE_ESCALATED
    false Scenarios.docstring_coordinates first_report empty.

Lemma reachable_rows_well_formed_witness :
  escalation_count (hd SweepProps.overdue (cases after_first_report))
  = 2 - current_level (hd SweepProps.overdue (cases after_first_report)).
Proof.
  assert (Hin : In (hd SweepProps.overdue (cases after_first_report))
                  (cases after_first_report))
    by (vm_compute; left; reflexivity).
  exact (proj1 (reachable_rows_well_formed Case_can_escalate
                  Case_is_sla_expired Case_calculate_sla_deadline_for_level
                  AuditEventType_CASE_ESCALATED false
                  Scenarios.docstring_coordinates first_report _ Hin)).
Defined.

End ReachableProps.

(** ** The trust score (authentication/models.py) *)

Module ProfileProps.

Import Profiles.

(** How often [status] occurs in a history of report outcomes. *)
Definition occurrences (status : string) (history : list string) : Z :=
  Z.of_nat (List.length (filter (String.eqb status) history)).

Lemma occurrences_cons (status s : string) (history : list string) :
  occurrences status (s :: history)
  = (if String.eqb status s then 1 else 0) + occurrences status history.
Proof.
  unfold occurrences. simpl. destruct (String.eqb status s); simpl List.length; lia.
Qed.

Lemma counts_after (history : list string) :
  forall p,
    let q := fold_left increment_report_count history p in
    total_reports_submitted q
    = total_reports_submitted p + occurrences "submitted" history
    /\ verified_reports_count q
       = verified_reports_count p + occurrences "verified" history
    /\ rejected_reports_count q
       = rejected_reports_count p + occurrences "rejected" history
    /\ (history <> [] ->
        trust_score q
        = Z.max 0 (Z.min 100 (50 + verified_reports_count q * 5
                              - rejected_reports_count q * 10))).
Proof.
  induction history as [|s history IH]; intros p; cbv zeta.
  - simpl. unfold occurrences. simpl. repeat split; try lia. congruence.
  - change (fold_left increment_report_count (s :: history) p)
      with (fold_left increment_report_count history
              (increment_report_count p s)).
    destruct (IH (increment_report_count p s)) as (Ht & Hv & Hr & Hs).
    cbv zeta in Ht, Hv, Hr, Hs. rewrite Ht, Hv, Hr, !occurrences_cons.
    assert (Hstep :
              total_reports_submitted (increment_report_count p s)
              = total_reports_submitted p
                + (if String.eqb "submitted" s then 1 else 0)
              /\ verified_reports_count (increment_report_count p s)
                 = verified_reports_count p
                   + (if String.eqb "verified" s then 1 else 0)
              /\ rejected_reports_count (increment_report_count p s)
                 = rejected_reports_count p
                   + (if String.eqb "rejected" s then 1 else 0)).
    { unfold increment_report_count, update_trust_score.
      destruct (String.eqb_spec s "submitted") as [->|N1];
        [simpl; repeat split; lia|].
      destruct (String.eqb_spec s "verified") as [->|N2];
        [simpl; repeat split; lia|].
      destruct (String.eqb_spec s "rejected") as [->|N3];
        [simpl; repeat split; lia|].
      rewrite (proj2 (String.eqb_neq "submitted" s)) by congruence.
      rewrite (proj2 (String.eqb_neq "verified" s)) by congruence.
      rewrite (proj2 (String.eqb_neq "rejected" s)) by congruence.
      cbn [total_reports_submitted verified_reports_count
             rejected_reports_count].
      repeat split; lia. }
    destruct Hstep as (E1 & E2 & E3). rewrite E1, E2, E3.
    repeat split; try lia.
    intros _.
    assert (Hone : trust_score (increment_report_count p s)
                   = Z.max 0
                       (Z.min 100
                          (50
                           + verified_reports_count
                               (increment_report_count p s) * 5
                           - rejected_reports_count
                               (increment_report_count p s) * 10)))
      by reflexivity.
    destruct history as [|s' history'].
    + simpl fold_left. rewrite Hone, E2, E3.
      change (occurrences "verified" []) with 0.
      change (occurrences "rejected" []) with 0.
      f_equal. f_equal. lia.
    + rewrite Hs by discriminate. rewrite Hv, Hr, E2, E3. reflexivity.
Qed.

(** X29. The trust score follows the report history.  After any
    sequence of [increment_report_count] calls on a new profile, with
    any status strings, the three counters are the numbers of
    "submitted", "verified" and "rejected" among them (other strings
    count nothing), and the trust score is
    [50 + 5 * verified - 10 * rejected] clamped to 0..100; so it lies
    between 0 and 100, ten verified reports without a rejection reach
    100, and five rejections without a verified one reach 0. *)
Theorem trust_score_follows_history (history : list string) :
  let p := fold_left increment_report_count history new_profile in
  let verified := occurrences "verified" history in
  let rejected := occurrences "rejected" history in
  total_reports_submitted p = occurrences "submitted" history
  /\ verified_reports_count p = verified
  /\ rejected_reports_count p = rejected
  /\ trust_score p = Z.max 0 (Z.min 100 (50 + 5 * verified - 10 * rejected))
  /\ 0 <= trust_score p <= 100
  /\ (rejected = 0 -> 10 <= verified -> trust_score p = 100)
  /\ (verified = 0 -> 5 <= rejected -> trust_score p = 0).
Proof.
  cbv zeta.
  destruct (counts_after history new_profile) as (Ht & Hv & Hr & Hs).
  cbv zeta in Ht, Hv, Hr, Hs. simpl in Ht, Hv, Hr.
  assert (Hscore : trust_score (fold_left increment_report_count history
                                  new_profile)
                   = Z.max 0 (Z.min 100
                                (50 + 5 * occurrences "verified" history
                                 - 10 * occurrences "rejected" history))).
  { destruct history as [|s history'].
    - reflexivity.
    - rewrite Hs by discriminate. rewrite Hv, Hr. f_equal. f_equal. lia. }
  rewrite Ht, Hv, Hr, Hscore. repeat split; try lia.
Qed.

End ProfileProps.
